(** * A shallow embedding of the change-set calculation of capella-rm-bridge

    Source: [capella_rm_bridge/changeset/{__init__,change,find,actiontypes}.py].

    Python values that the change set is built from (snapshot values,
    action dictionaries, references and promises) are modelled by [val];
    dictionaries keep their insertion order as association lists.  The
    dictionaries that [TrackerChange] shares between [self.actions] and
    [self._req_deletions] live in a heap of the state, so that the
    in-place mutation done by [invalidate_deletion] is seen by every holder
    of the action. *)

From Stdlib Require Import String Ascii List ZArith Bool Lia Permutation.
Import ListNotations.
Open Scope string_scope.
Set Warnings "-register-all".

(* ------------------------------------------------------------------ *)
(** ** Python values *)

Inductive val : Type :=
| VNone
| VBool (b : bool)
| VInt (z : Z)
| VFloat (repr : string)        (** a float, kept by its [repr] *)
| VDate (repr : string)         (** a [datetime.datetime], by its [repr] *)
| VStr (s : string)
| VRef (uuid : string)          (** [decl.UUIDReference(uuid)] *)
| VPromise (identifier : string) (** [decl.Promise(identifier)] *)
| VList (l : list val)
| VDict (d : list (string * val)).

(** Python truthiness. *)
Definition truthy (v : val) : bool :=
  match v with
  | VNone => false
  | VBool b => b
  | VInt z => negb (Z.eqb z 0)
  | VStr s => negb (String.eqb s "")
  | VList l => match l with [] => false | _ => true end
  | VDict d => match d with [] => false | _ => true end
  | _ => true
  end.

(** [==] on values; dictionaries compare regardless of key order. *)
Fixpoint py_eq (a b : val) {struct a} : bool :=
  let fix list_eq (xs ys : list val) : bool :=
    match xs, ys with
    | [], [] => true
    | x :: xs', y :: ys' => py_eq x y && list_eq xs' ys'
    | _, _ => false
    end in
  let fix dict_sub (xs : list (string * val)) (ys : list (string * val)) : bool :=
    match xs with
    | [] => true
    | (k, x) :: xs' =>
        match find (fun kv => String.eqb (fst kv) k) ys with
        | Some (_, y) => py_eq x y && dict_sub xs' ys
        | None => false
        end
    end in
  match a, b with
  | VNone, VNone => true
  | VBool x, VBool y => Bool.eqb x y
  | VInt x, VInt y => Z.eqb x y
  | VBool x, VInt y | VInt y, VBool x => Z.eqb (if x then 1 else 0) y
  | VFloat x, VFloat y => String.eqb x y
  | VDate x, VDate y => String.eqb x y
  | VStr x, VStr y => String.eqb x y
  | VRef x, VRef y => String.eqb x y
  | VPromise x, VPromise y => String.eqb x y
  | VList xs, VList ys => list_eq xs ys
  | VDict xs, VDict ys =>
      Nat.eqb (length xs) (length ys) && dict_sub xs ys
  | _, _ => false
  end.

(** Dictionary access. *)
Definition dget (d : list (string * val)) (k : string) : option val :=
  match find (fun kv => String.eqb (fst kv) k) d with
  | Some (_, v) => Some v
  | None => None
  end.

(** [d[k] = v]: replaces in place, or appends a new key. *)
Fixpoint dset (d : list (string * val)) (k : string) (v : val)
  : list (string * val) :=
  match d with
  | [] => [(k, v)]
  | (k', v') :: d' =>
      if String.eqb k' k then (k, v) :: d' else (k', v') :: dset d' k v
  end.

(** [del d[k]]. *)
Definition ddel (d : list (string * val)) (k : string) : list (string * val) :=
  filter (fun kv => negb (String.eqb (fst kv) k)) d.

Definition dkeys (d : list (string * val)) : list string := map fst d.

Definition as_dict (v : val) : list (string * val) :=
  match v with VDict d => d | _ => [] end.

Definition as_list (v : val) : list val :=
  match v with VList l => l | _ => [] end.

(** [d.get(k, {})], read as a dictionary. *)
Definition dget_dict (d : list (string * val)) (k : string) : list (string * val) :=
  match dget d k with Some v => as_dict v | None => [] end.

(** [_deep_update(source, overrides)] (change.py), functionally: the
    nested dictionary is updated and returned. *)
Fixpoint deep_update_val (source : list (string * val)) (ov : val) {struct ov}
  : list (string * val) :=
  match ov with
  | VDict ovs =>
      (fix go (src : list (string * val)) (ovs : list (string * val))
         : list (string * val) :=
         match ovs with
         | [] => src
         | (k, v) :: rest =>
             let upd :=
               match v with
               | VDict (_ :: _) => VDict (deep_update_val (dget_dict src k) v)
               | _ => v
               end in
             go (dset src k upd) rest
         end) source ovs
  | _ => source
  end.

Definition _deep_update (source overrides : list (string * val))
  : list (string * val) :=
  deep_update_val source (VDict overrides).

(** [_add_action_safely(base, first_key, second_key, action)]. *)
Definition _add_action_safely (base : list (string * val))
    (first_key second_key : string) (action : val) : list (string * val) :=
  match dget base first_key with
  | Some (VDict inner) =>
      match dget inner second_key with
      | Some (VList l) =>
          dset base first_key (VDict (dset inner second_key (VList (l ++ [action]))))
      | _ => _deep_update base [(first_key, VDict [(second_key, VList [action])])]
      end
  | _ => _deep_update base [(first_key, VDict [(second_key, VList [action])])]
  end.

(* ------------------------------------------------------------------ *)
(** ** [repr] and f-strings *)

(** The single and the double quote character, as strings. *)
Definition sq : string := String (ascii_of_nat 39) EmptyString.
Definition dq : string := String (ascii_of_nat 34) EmptyString.

Fixpoint str_contains_char (c : ascii) (s : string) : bool :=
  match s with
  | EmptyString => false
  | String c' s' => Ascii.eqb c c' || str_contains_char c s'
  end.

(** Escape backslashes and the chosen quote character. *)
Fixpoint escape_with (q : ascii) (s : string) : string :=
  match s with
  | EmptyString => EmptyString
  | String c s' =>
      if Ascii.eqb c (ascii_of_nat 92) || Ascii.eqb c q
      then String (ascii_of_nat 92) (String c (escape_with q s'))
      else String c (escape_with q s')
  end.

(** [repr(s)] of a [str] of printable characters: single quotes unless
    the string holds a single quote and no double quote. *)
Definition repr_str (s : string) : string :=
  if str_contains_char (ascii_of_nat 39) s
     && negb (str_contains_char (ascii_of_nat 34) s)
  then dq ++ escape_with (ascii_of_nat 34) s ++ dq
  else sq ++ escape_with (ascii_of_nat 39) s ++ sq.

Fixpoint digits_of_pos (fuel : nat) (n : Z) (acc : string) : string :=
  match fuel with
  | O => acc
  | S fuel' =>
      let d := String (ascii_of_nat (48 + Z.to_nat (Z.modulo n 10))) EmptyString in
      if Z.ltb n 10 then d ++ acc
      else digits_of_pos fuel' (Z.div n 10) (d ++ acc)
  end.

(** [str(z)] for an integer. *)
Definition str_of_Z (z : Z) : string :=
  if Z.ltb z 0 then "-" ++ digits_of_pos (S (Z.to_nat (Z.log2 (- z)))) (- z) ""
  else digits_of_pos (S (Z.to_nat (Z.log2 z))) z "".

Fixpoint join (sep : string) (xs : list string) : string :=
  match xs with
  | [] => ""
  | [x] => x
  | x :: xs' => x ++ sep ++ join sep xs'
  end.

Fixpoint py_repr (v : val) : string :=
  match v with
  | VNone => "None"
  | VBool b => if b then "True" else "False"
  | VInt z => str_of_Z z
  | VFloat r => r
  | VDate r => r
  | VStr s => repr_str s
  | VRef u => "UUIDReference(uuid=" ++ repr_str u ++ ")"
  | VPromise i => "Promise(identifier=" ++ repr_str i ++ ")"
  | VList l => "[" ++ join ", " (map py_repr l) ++ "]"
  | VDict d =>
      "{" ++ join ", " (map (fun kv => repr_str (fst kv) ++ ": " ++ py_repr (snd kv)) d)
      ++ "}"
  end.

(* ------------------------------------------------------------------ *)
(** ** The Capella model (capellambse), as the change calculation reads it

    The model is the list of its objects in document order; containment
    is the [o_parent] link (the UUID of the parent, [""] at the root).
    The collections the code reads ([req.requirements], [req.folders],
    [req.attributes], [folder.data_type_definitions], ...) are the
    children of the matching class, in document order. *)

Inductive kind : Type :=
| KCapellaModule
| KCapellaTypesFolder
| KFolder
| KRequirement
| KRequirementType
| KAttributeDefinition
| KAttributeDefinitionEnumeration
| KEnumerationDataTypeDefinition
| KEnumValue
| KAttributeValue (cls : string).
  (** an attribute value of class [cls], e.g. ["EnumerationValueAttribute"] *)

(** The class name, as used by [model.search( *xtypes)]. *)
Definition kind_name (k : kind) : string :=
  match k with
  | KCapellaModule => "CapellaModule"
  | KCapellaTypesFolder => "CapellaTypesFolder"
  | KFolder => "Folder"
  | KRequirement => "Requirement"
  | KRequirementType => "RequirementType"
  | KAttributeDefinition => "AttributeDefinition"
  | KAttributeDefinitionEnumeration => "AttributeDefinitionEnumeration"
  | KEnumerationDataTypeDefinition => "EnumerationDataTypeDefinition"
  | KEnumValue => "EnumValue"
  | KAttributeValue cls => cls
  end.

Definition is_attribute_value (k : kind) : bool :=
  match k with KAttributeValue _ => true | _ => false end.

Record obj : Type := mkObj {
  o_uuid : string;
  o_kind : kind;
  o_identifier : string;
  o_long_name : string;
  o_text : string;
  o_parent : string;
  o_type : option string;        (** Requirement/Folder: its RequirementType *)
  o_definition : option string;  (** attribute value: its definition *)
  o_value : val;                 (** scalar attribute value: [value] *)
  o_values : list string;        (** enumeration attribute value: its EnumValues *)
  o_data_type : option string;   (** enumeration attribute definition *)
  o_multi_valued : bool          (** enumeration attribute definition *)
}.

Definition model_t := list obj.

Definition by_uuid (m : model_t) (u : string) : option obj :=
  find (fun o => String.eqb (o_uuid o) u) m.

Definition children_where (m : model_t) (p : string) (f : kind -> bool) : list obj :=
  filter (fun o => String.eqb (o_parent o) p && f (o_kind o)) m.

Definition kind_eqb (a b : kind) : bool := String.eqb (kind_name a) (kind_name b).

(** [req.requirements], [req.folders]. *)
Definition requirements_of (m : model_t) (p : string) : list obj :=
  children_where m p (kind_eqb KRequirement).
Definition folders_of (m : model_t) (p : string) : list obj :=
  children_where m p (kind_eqb KFolder).
(** [getattr(req, key)] for [key] in ["requirements"], ["folders"]. *)
Definition children_by_key (m : model_t) (p : string) (key : string) : list obj :=
  if String.eqb key "folders" then folders_of m p else requirements_of m p.
(** [req.attributes]. *)
Definition attributes_of (m : model_t) (p : string) : list obj :=
  children_where m p is_attribute_value.
(** [types_folder.data_type_definitions], [types_folder.requirement_types]. *)
Definition data_type_definitions_of (m : model_t) (p : string) : list obj :=
  children_where m p (kind_eqb KEnumerationDataTypeDefinition).
Definition requirement_types_of (m : model_t) (p : string) : list obj :=
  children_where m p (kind_eqb KRequirementType).
(** [reqtype.attribute_definitions]. *)
Definition attribute_definitions_of (m : model_t) (p : string) : list obj :=
  children_where m p (fun k => kind_eqb k KAttributeDefinition
                               || kind_eqb k KAttributeDefinitionEnumeration).
(** [data_type_definition.values]. *)
Definition enum_values_of (m : model_t) (p : string) : list obj :=
  children_where m p (kind_eqb KEnumValue).

(** The UUIDs of the ancestors of [o] (bounded by the model size). *)
Fixpoint ancestors (m : model_t) (fuel : nat) (p : string) : list string :=
  match fuel with
  | O => []
  | S fuel' =>
      match by_uuid m p with
      | Some po => p :: ancestors m fuel' (o_parent po)
      | None => []
      end
  end.

(** [o] lies in the subtree below the object with UUID [root]. *)
Definition is_below (m : model_t) (root : string) (o : obj) : bool :=
  existsb (String.eqb root) (ancestors m (length m) (o_parent o)).

(** [model.search( *xtypes, below=below)]. *)
Definition search (m : model_t) (xtypes : list string) (below : option string)
  : list obj :=
  filter (fun o => existsb (String.eqb (kind_name (o_kind o))) xtypes
                   && match below with
                      | None => true
                      | Some r => is_below m r o
                      end) m.

(* ------------------------------------------------------------------ *)
(** ** Exceptions and the state-and-exception monad *)

Inductive exn : Type :=
| InvalidTrackerConfig (msg : string)
| InvalidSnapshotModule (msg : string)
| MissingCapellaModule (msg : string)
| InvalidWorkItemType (msg : string)
| InvalidFieldValue (msg : string)
| InvalidAttributeDefinition (msg : string)
| KeyError (msg : string)
| ValueError (msg : string)
| AttributeError (msg : string)
| AssertionError
| MultipleMatches (msg : string).

(** The mutable attributes of a [TrackerChange] instance.  [heap] holds
    the action dictionaries by location; [actions] is [self.actions] as
    a list of locations, [req_deletions] is [self._req_deletions] mapping
    a UUID to the location of the action that deletes it. *)
Record st : Type := mkSt {
  actions : list nat;
  heap : list (list (string * val));
  location_changed : list string;
  req_deletions : list (string * nat);
  evdeletions : list string;
  faulty_attribute_definitions : list string;
  errors : list string;
  logs : list string;
  reqt_folder : option string;
  req_module : option string
}.

(** A computation reads and writes the state and may raise; the state
    reached when an exception is raised is kept, as in Python. *)
Definition M (A : Type) : Type := st -> (exn + A) * st.

Definition ret {A} (a : A) : M A := fun s => (inr a, s).
Definition bind {A B} (c : M A) (f : A -> M B) : M B :=
  fun s => match c s with
           | (inr a, s') => f a s'
           | (inl e, s') => (inl e, s')
           end.
Definition raise {A} (e : exn) : M A := fun s => (inl e, s).
Definition try_catch {A} (c : M A) (h : exn -> M A) : M A :=
  fun s => match c s with
           | (inl e, s') => h e s'
           | r => r
           end.
Definition gets {A} (f : st -> A) : M A := fun s => (inr (f s), s).
Definition modify (f : st -> st) : M unit := fun s => (inr tt, f s).

Notation "x <- c ;; k" := (bind c (fun x => k))
  (at level 61, c at next level, right associativity).
Notation "c ;;; k" := (bind c (fun _ => k))
  (at level 61, right associativity).

(** Lifting a result of a pure function that may raise. *)
Definition lift {A} (r : exn + A) : M A :=
  match r with inl e => raise e | inr a => ret a end.

Fixpoint mapM {A B} (f : A -> M B) (xs : list A) : M (list B) :=
  match xs with
  | [] => ret []
  | x :: xs' => y <- f x ;; ys <- mapM f xs' ;; ret (y :: ys)
  end.

Definition set_actions (l : list nat) (s : st) : st :=
  mkSt l (heap s) (location_changed s) (req_deletions s) (evdeletions s)
       (faulty_attribute_definitions s) (errors s) (logs s) (reqt_folder s)
       (req_module s).
Definition set_heap (h : list (list (string * val))) (s : st) : st :=
  mkSt (actions s) h (location_changed s) (req_deletions s) (evdeletions s)
       (faulty_attribute_definitions s) (errors s) (logs s) (reqt_folder s)
       (req_module s).
Definition set_location_changed (l : list string) (s : st) : st :=
  mkSt (actions s) (heap s) l (req_deletions s) (evdeletions s)
       (faulty_attribute_definitions s) (errors s) (logs s) (reqt_folder s)
       (req_module s).
Definition set_req_deletions (l : list (string * nat)) (s : st) : st :=
  mkSt (actions s) (heap s) (location_changed s) l (evdeletions s)
       (faulty_attribute_definitions s) (errors s) (logs s) (reqt_folder s)
       (req_module s).
Definition set_evdeletions (l : list string) (s : st) : st :=
  mkSt (actions s) (heap s) (location_changed s) (req_deletions s) l
       (faulty_attribute_definitions s) (errors s) (logs s) (reqt_folder s)
       (req_module s).
Definition set_faulty (l : list string) (s : st) : st :=
  mkSt (actions s) (heap s) (location_changed s) (req_deletions s)
       (evdeletions s) l (errors s) (logs s) (reqt_folder s) (req_module s).
Definition set_errors (l : list string) (s : st) : st :=
  mkSt (actions s) (heap s) (location_changed s) (req_deletions s)
       (evdeletions s) (faulty_attribute_definitions s) l (logs s)
       (reqt_folder s) (req_module s).
Definition set_logs (l : list string) (s : st) : st :=
  mkSt (actions s) (heap s) (location_changed s) (req_deletions s)
       (evdeletions s) (faulty_attribute_definitions s) (errors s) l
       (reqt_folder s) (req_module s).
Definition set_reqt_folder (f : option string) (s : st) : st :=
  mkSt (actions s) (heap s) (location_changed s) (req_deletions s)
       (evdeletions s) (faulty_attribute_definitions s) (errors s) (logs s)
       f (req_module s).
Definition set_req_module (f : option string) (s : st) : st :=
  mkSt (actions s) (heap s) (location_changed s) (req_deletions s)
       (evdeletions s) (faulty_attribute_definitions s) (errors s) (logs s)
       (reqt_folder s) f.

(** Python [set.add] on a set kept as a list. *)
Definition set_add (x : string) (l : list string) : list string :=
  if existsb (String.eqb x) l then l else l ++ [x].
Definition mem (x : string) (l : list string) : bool := existsb (String.eqb x) l.

(** A new dictionary object on the heap; its location. *)
Definition alloc (d : list (string * val)) : M nat :=
  fun s => (inr (length (heap s)), set_heap (heap s ++ [d]) s).
Definition deref (s : st) (l : nat) : list (string * val) :=
  nth l (heap s) [].
Definition store (l : nat) (d : list (string * val)) : M unit :=
  modify (fun s => set_heap (firstn l (heap s) ++ [d] ++ skipn (S l) (heap s)) s).
Definition append_action (l : nat) : M unit :=
  modify (fun s => set_actions (actions s ++ [l]) s).
Definition extend_actions (ls : list nat) : M unit :=
  modify (fun s => set_actions (actions s ++ ls) s).

(** [dict[key] = value] on [self._req_deletions]. *)
Fixpoint assoc_set (d : list (string * nat)) (k : string) (v : nat)
  : list (string * nat) :=
  match d with
  | [] => [(k, v)]
  | (k', v') :: d' =>
      if String.eqb k' k then (k, v) :: d' else (k', v') :: assoc_set d' k v
  end.
Definition assoc_get (d : list (string * nat)) (k : string) : option nat :=
  match find (fun kv => String.eqb (fst kv) k) d with
  | Some (_, v) => Some v
  | None => None
  end.

(* ------------------------------------------------------------------ *)
(** ** Finding objects (find.py) *)

(** The attribute read by [ElementList.by_<attr>]. *)
Definition attr_of (attr : string) (o : obj) : string :=
  if String.eqb attr "uuid" then o_uuid o
  else if String.eqb attr "long_name" then o_long_name o
  else o_identifier o.

(** capellambse's [ElementList.by_<attr>(value, single=True)]: the unique
    element whose attribute equals [value]; a [KeyError] when there is no
    such element and a [KeyError] ("Multiple matches for ...") when there
    are several. *)
Definition by_attr_single (objs : list obj) (attr value : string) : exn + obj :=
  match filter (fun o => String.eqb (attr_of attr o) value) objs with
  | [o] => inr o
  | [] => inl (KeyError (repr_str value))
  | _ => inl (KeyError ("Multiple matches for " ++ repr_str value))
  end.

(** [ReqFinder._get(value, *xtypes, attr=attr, below=below)]: the
    [KeyError] of the lookup is caught, logged at level INFO, and [None]
    is returned. *)
Definition ReqFinder_get (m : model_t) (value : string) (xtypes : list string)
    (attr : string) (below : option string) : exn + option obj :=
  let objs := search m xtypes below in
  match by_attr_single objs attr value with
  | inr o => inr (Some o)
  | inl (KeyError _) => inr None
  | inl e => inl e
  end.

(** Modelled from the spec: [find.find_by] and [find.find_by_identifier],
    which change.py calls but whose module in this repository is not among
    the sources (its find.py only has [ReqFinder]).  Following the spec's
    Object Finder: the unique object of one of the classes [xtypes] whose
    attribute [attr] equals [value], searched below [below] (the whole
    model for [None]); [None] when there is none, an error distinct from
    "not found" when there are several. *)
Definition find_by (m : model_t) (value : string) (xtypes : list string)
    (attr : string) (below : option string) : M (option obj) :=
  match filter (fun o => String.eqb (attr_of attr o) value) (search m xtypes below) with
  | [] => ret None
  | [o] => ret (Some o)
  | _ => raise (MultipleMatches value)
  end.

Definition find_by_identifier (m : model_t) (value : string) (xtype : string)
    (below : option string) : M (option obj) :=
  find_by m value [xtype] "identifier" below.

(* ------------------------------------------------------------------ *)
(** ** The snapshot (actiontypes.py) *)

(** [DataTypeValue] and [DataType]. *)
Record DataTypeValue : Type := mkDataTypeValue {
  dtv_id : string;
  dtv_long_name : string
}.
Record DataType : Type := mkDataType {
  dt_long_name : string;
  dt_values : list DataTypeValue
}.

(** [AttributeDefinition] / [EnumAttributeDefinition]; [ad_multi_values]
    is [None] when the key is absent. *)
Record AttrDef : Type := mkAttrDef {
  ad_long_name : string;
  ad_type : string;
  ad_multi_values : option bool
}.

(** [RequirementType]. *)
Record ReqType : Type := mkReqType {
  rt_long_name : string;
  rt_attributes : list (string * AttrDef)
}.

(** [WorkItem]: the optional keys are [option]s ([None] when absent);
    [wi_children] is [Some _] exactly when the key "children" is present. *)
Inductive WorkItem : Type := mkWorkItem {
  wi_id : string;
  wi_long_name : option string;
  wi_text : option string;
  wi_type : option string;
  wi_attributes : list (string * val);
  wi_children : option (list WorkItem)
}.

(** [TrackerSnapshot]: "id" and "long_name" may be missing. *)
Record Tracker : Type := mkTracker {
  tr_id : option string;
  tr_long_name : option string;
  tr_data_types : list (string * DataType);
  tr_requirement_types : list (string * ReqType);
  tr_items : list WorkItem
}.

(** [TrackerConfig]: "capella-uuid" may be missing. *)
Record TrackerConfig : Type := mkTrackerConfig {
  cfg_capella_uuid : option string
}.

Definition lookup {A} (d : list (string * A)) (k : string) : option A :=
  match find (fun kv => String.eqb (fst kv) k) d with
  | Some (_, v) => Some v
  | None => None
  end.

(* ------------------------------------------------------------------ *)
(** ** [TrackerChange] (change.py) *)

Definition REQ_TYPES_FOLDER_NAME : string := "Types".
Definition TYPES_FOLDER_IDENTIFIER : string := "-2".

(** [_ATTR_BLACKLIST = frozenset({("Type", "Folder")})]. *)
Definition in_ATTR_BLACKLIST (name : string) (value : val) : bool :=
  String.eqb name "Type" && py_eq value (VStr "Folder").

(** [_ATTR_VALUE_DEFAULT_MAP.get(deftype)] followed by [isinstance]:
    [None] for an unknown field type; [bool] is a subclass of [int]. *)
Definition default_type_check (deftype : string) : option (string * (val -> bool)) :=
  if String.eqb deftype "Boolean" then
    Some ("bool", fun v => match v with VBool _ => true | _ => false end)
  else if String.eqb deftype "Date" then
    Some ("datetime", fun v => match v with VDate _ => true | _ => false end)
  else if String.eqb deftype "Datetime" then
    Some ("datetime", fun v => match v with VDate _ => true | _ => false end)
  else if String.eqb deftype "Enum" then
    Some ("list", fun v => match v with VList _ => true | _ => false end)
  else if String.eqb deftype "Float" then
    Some ("float", fun v => match v with VFloat _ => true | _ => false end)
  else if String.eqb deftype "Integer" then
    Some ("int", fun v => match v with VInt _ | VBool _ => true | _ => false end)
  else if String.eqb deftype "String" then
    Some ("str", fun v => match v with VStr _ => true | _ => false end)
  else None.

(** [_blacklisted(name, value)]: lists (and dictionaries, by their keys)
    are blacklisted when all their members are. *)
Fixpoint _blacklisted (name : string) (value : val) : bool :=
  match value with
  | VNone => false
  | VList l => forallb (_blacklisted name) l
  | VDict d => forallb (fun kv => in_ATTR_BLACKLIST name (VStr (fst kv))) d
  | v => in_ATTR_BLACKLIST name v
  end.

(** [list.remove(x)]: [None] for the [ValueError] when [x] is absent. *)
Fixpoint list_remove (x : val) (l : list val) : option (list val) :=
  match l with
  | [] => None
  | y :: l' => if py_eq y x then Some l'
               else match list_remove x l' with
                    | Some r => Some (y :: r)
                    | None => None
                    end
  end.

(** [make_requirement_delete_actions(req, child_ids, key)]. *)
Definition make_requirement_delete_actions (m : model_t) (req : obj)
    (child_ids : list string) (key : string) : list val :=
  map (fun c => VRef (o_uuid c))
      (filter (fun c => negb (mem (o_identifier c) child_ids))
              (children_by_key m (o_uuid req) key)).

(** [str.lower()] on ASCII letters. *)
Fixpoint lower (s : string) : string :=
  match s with
  | EmptyString => EmptyString
  | String c s' =>
      let n := nat_of_ascii c in
      if Nat.leb 65 n && Nat.leb n 90 then String (ascii_of_nat (n + 32)) (lower s')
      else String c (lower s')
  end.

(** [str(v)] as used in f-strings: a string is itself, other values are
    shown by their [repr]. *)
Definition py_str (v : val) : string :=
  match v with VStr s => s | v => py_repr v end.

(** [_AttributeValueBuilder(deftype, key, value)]. *)
Record _AttributeValueBuilder : Type := mkBuilder {
  b_deftype : string;
  b_key : string;
  b_value : val
}.

Section TrackerChange.

Variable model : model_t.
(** [repr(self.model.info)], used in one message. *)
Variable model_info : string.
Variable tracker : Tracker.
Variable config : TrackerConfig.
Variable gather_logs : bool.
(** [capellambse.helpers.repair_html]. *)
Variable repair_html : string -> string.

(** [self.data_type_definitions], [self.requirement_types]. *)
Definition data_type_definitions : list (string * DataType) := tr_data_types tracker.
Definition requirement_types : list (string * ReqType) := tr_requirement_types tracker.

(** [_handle_user_error(message)]. *)
Definition _handle_user_error (message : string) : M unit :=
  if gather_logs then modify (fun s => set_errors (errors s ++ [message]) s)
  else match tr_id tracker with
       | Some tid =>
           modify (fun s => set_logs
             (logs s ++ ["Invalid module '" ++ tid ++ "'. " ++ message]) s)
       | None => raise (KeyError "'id'")
       end.

(** [check_requirements_module()]: the start of the action for the
    [CapellaModule]; sets [self.req_module]. *)
Definition check_requirements_module : M (list (string * val)) :=
  match cfg_capella_uuid config with
  | None => raise (InvalidTrackerConfig
      "The given module configuration is missing UUID of the target CapellaModule")
  | Some module_uuid =>
      rm <- find_by model module_uuid ["CapellaModule"] "uuid" None ;;
      match rm with
      | None => raise (MissingCapellaModule
          ("No CapellaModule with UUID " ++ repr_str module_uuid ++ " found in "
           ++ model_info))
      | Some req_module =>
          match tr_id tracker with
          | None => raise (InvalidSnapshotModule
              "In the snapshot the module is missing an id key")
          | Some identifier =>
              modify (set_req_module (Some (o_uuid req_module))) ;;;
              let base := [("parent", VRef (o_uuid req_module))] in
              let base := if String.eqb (o_identifier req_module) identifier then base
                          else dset base "modify" (VDict [("identifier", VStr identifier)]) in
              let long_name := match tr_long_name tracker with
                               | Some ln => ln
                               | None => o_long_name req_module
                               end in
              let base := if String.eqb (o_long_name req_module) long_name then base
                          else dset base "modify"
                                 (VDict (dset (dget_dict base "modify") "long_name"
                                              (VStr long_name))) in
              ret base
          end
      end
  end.

(** [invalidate_deletion(requirement)]. *)
Definition invalidate_deletion (requirement : obj) : M unit :=
  let key := if kind_eqb (o_kind requirement) KFolder then "folders"
             else "requirements" in
  let ref := VRef (o_uuid requirement) in
  rd <- gets req_deletions ;;
  match assoc_get rd (o_uuid requirement) with
  | None => ret tt
  | Some loc =>
      d <- gets (fun s => deref s loc) ;;
      match dget d "delete" with
      | None => ret tt
      | Some dels =>
          let deletions := as_dict dels in
          match dget deletions key with
          | None => ret tt
          | Some l =>
              match list_remove ref (as_list l) with
              | None => raise (ValueError "list.remove(x): x not in list")
              | Some l' =>
                  let deletions := if truthy (VList l') then dset deletions key (VList l')
                                   else ddel deletions key in
                  let d := if truthy (VDict deletions) then dset d "delete" (VDict deletions)
                           else ddel d "delete" in
                  store loc d
              end
          end
      end
  end.

(** [req_delete_actions(visited, attr_name)]. *)
Definition req_delete_actions (visited : list string) (attr_name : string)
  : M (list (string * val)) :=
  rm <- gets req_module ;;
  let mu := match rm with Some u => u | None => "" end in
  let parent_ref := VRef mu in
  let dels := map (fun r => VRef (o_uuid r))
                  (filter (fun r => negb (mem (o_identifier r) visited))
                          (children_by_key model mu attr_name)) in
  match dels with
  | [] => ret [("parent", parent_ref)]
  | _ => ret [("parent", parent_ref); ("delete", VDict [(attr_name, VList dels)])]
  end.

(** [_compare_simple_attributes(req, item, filter=("id", "type",
    "attributes", "children"))] on a work item: its remaining keys are
    "long_name" and "text"; text is compared after [repair_html]. *)
Definition compare_simple_workitem (req : obj) (item : WorkItem) : list (string * val) :=
  let mods := match wi_long_name item with
              | Some ln => if String.eqb (o_long_name req) ln then []
                           else [("long_name", VStr ln)]
              | None => []
              end in
  match wi_text item with
  | Some t => if String.eqb (o_text req) (repair_html t) then mods
              else mods ++ [("text", VStr t)]
  | None => mods
  end.

(** [data_type_create_action(data_type_id, data_type_definition)]. *)
Definition data_type_create_action (data_type_id : string) (ddef : DataType) : val :=
  let type := "EnumerationDataTypeDefinition" in
  let enum_values :=
    map (fun v => VDict [("identifier", VStr (dtv_id v));
                         ("long_name", VStr (dtv_long_name v));
                         ("promise_id", VStr ("EnumValue " ++ data_type_id ++ " " ++ dtv_id v))])
        (dt_values ddef) in
  VDict [("identifier", VStr data_type_id);
         ("long_name", VStr (dt_long_name ddef));
         ("values", VList enum_values);
         ("promise_id", VStr (type ++ " " ++ data_type_id));
         ("_type", VStr type)].

(** [yield_data_type_definition_create_actions()], as a list. *)
Definition yield_data_type_definition_create_actions : list val :=
  map (fun kv => data_type_create_action (fst kv) (snd kv)) data_type_definitions.

(** [attribute_definition_create_action(id, item, req_type_id)]. *)
Definition attribute_definition_create_action (id : string) (item : AttrDef)
    (req_type_id : string) : M val :=
  let identifier := id ++ " " ++ req_type_id in
  let base := [("identifier", VStr identifier); ("long_name", VStr (ad_long_name item))] in
  let finish (cls : string) (base : list (string * val)) :=
    let base := dset base "_type" (VStr cls) in
    ret (VDict (dset base "promise_id" (VStr (cls ++ " " ++ identifier)))) in
  if String.eqb (ad_type item) "Enum" then
    let cls := "AttributeDefinitionEnumeration" in
    rf <- gets reqt_folder ;;
    etdef <- find_by_identifier model id "EnumerationDataTypeDefinition" rf ;;
    ref <- match etdef with
           | None =>
               let promise_id := "EnumerationDataTypeDefinition " ++ id in
               match lookup data_type_definitions id with
               | None =>
                   modify (fun s => set_faulty
                     (set_add promise_id (faulty_attribute_definitions s)) s) ;;;
                   raise (InvalidAttributeDefinition
                     ("Invalid " ++ cls ++ " found: " ++ repr_str id
                      ++ ". Missing its datatype definition in `data_types`."))
               | Some _ => ret (VPromise promise_id)
               end
           | Some e => ret (VRef (o_uuid e))
           end ;;
    let base := dset base "data_type" ref in
    let base := dset base "multi_valued"
                  (VBool (match ad_multi_values item with Some _ => true | None => false end)) in
    finish cls base
  else finish "AttributeDefinition" base.

(** [requirement_type_create_action(identifier, req_type)]. *)
Definition requirement_type_create_action (identifier : string) (req_type : ReqType)
  : M val :=
  defs <- mapM (fun kv =>
            try_catch (d <- attribute_definition_create_action (fst kv) (snd kv) identifier ;;
                       ret [d])
              (fun e => match e with
                        | InvalidAttributeDefinition msg =>
                            _handle_user_error ("In RequirementType '" ++ rt_long_name req_type
                                                ++ "': " ++ msg) ;;; ret []
                        | e => raise e
                        end))
            (rt_attributes req_type) ;;
  ret (VDict [("identifier", VStr identifier);
              ("long_name", VStr (rt_long_name req_type));
              ("promise_id", VStr ("RequirementType " ++ identifier));
              ("attribute_definitions", VList (concat defs))]).

(** [yield_requirement_type_create_actions()], as a list. *)
Definition yield_requirement_type_create_actions : M (list val) :=
  mapM (fun kv => requirement_type_create_action (fst kv) (snd kv)) requirement_types.

(** [requirement_types_folder_create_action(base)]. *)
Definition requirement_types_folder_create_action (base : list (string * val))
  : M (list (string * val)) :=
  let data_type_defs := yield_data_type_definition_create_actions in
  req_types <- yield_requirement_type_create_actions ;;
  let reqt_folder := VDict [("long_name", VStr REQ_TYPES_FOLDER_NAME);
                            ("identifier", VStr TYPES_FOLDER_IDENTIFIER);
                            ("data_type_definitions", VList data_type_defs);
                            ("requirement_types", VList req_types)] in
  ret (dset base "extend" (VDict [("requirement_types_folders", VList [reqt_folder])])).

(** The identifiers of the values of a data type definition
    ([dtdef.values.by_identifier]). *)
Definition value_identifiers (dtdef : obj) : list string :=
  map o_identifier (enum_values_of model (o_uuid dtdef)).

(** [_populate_ev_deletions(refs)]. *)
Definition _populate_ev_deletions (refs : list string) : M unit :=
  modify (fun s => set_evdeletions
    (fold_left (fun acc u =>
       match by_uuid model u with
       | Some dtdef => fold_left (fun acc i => set_add i acc) (value_identifiers dtdef) acc
       | None => acc
       end) refs (evdeletions s)) s).

(** [data_type_mod_action(id, ddef)]: [None] when nothing changed, an
    action with a "parent" for a modification, a create-descriptor when
    the definition is not in the Types-Folder. *)
Definition data_type_mod_action (id : string) (ddef : DataType) : M (option val) :=
  rf <- gets reqt_folder ;;
  match rf with
  | None => raise AssertionError
  | Some rfu =>
  match by_attr_single (data_type_definitions_of model rfu) "identifier" id with
  | inl _ => ret (Some (data_type_create_action id ddef))
  | inr dtdef =>
      let base := [("parent", VRef (o_uuid dtdef))] in
      let mods := if String.eqb (o_long_name dtdef) (dt_long_name ddef) then []
                  else [("long_name", VStr (dt_long_name ddef))] in
      let base := match mods with [] => base | _ => dset base "modify" (VDict mods) end in
      let creations := filter (fun v => negb (mem (dtv_id v) (value_identifiers dtdef)))
                              (dt_values ddef) in
      let action := data_type_create_action id (mkDataType (dt_long_name ddef) creations) in
      let base := match creations with
                  | [] => base
                  | _ => dset base "extend"
                           (VDict [("values", match dget (as_dict action) "values" with
                                              | Some v => v | None => VNone end)])
                  end in
      let snap_ids := map dtv_id (dt_values ddef) in
      let evs := filter (fun ev => negb (mem (o_identifier ev) snap_ids))
                        (enum_values_of model (o_uuid dtdef)) in
      base <- (match evs with
       | [] => ret base
       | _ => modify (fun s => set_evdeletions
                (fold_left (fun acc ev => set_add (o_identifier ev) acc) evs (evdeletions s)) s) ;;;
              ret (dset base "delete" (VDict [("values", VList (map (fun ev => VRef (o_uuid ev)) evs))]))
       end) ;;
      if list_eq_dec string_dec (dkeys base) ["parent"] then ret None
      else ret (Some (VDict base))
  end
  end.

(** [data_type_definition_mod_actions()]: the action for the
    Types-Folder; modifications of single definitions go to
    [self.actions]. *)
Definition data_type_definition_mod_actions : M (list (string * val)) :=
  rf <- gets reqt_folder ;;
  match rf with
  | None => raise AssertionError
  | Some rfu =>
      let dt_defs_deletions :=
        map o_uuid (filter (fun d => match lookup data_type_definitions (o_identifier d) with
                                     | Some _ => false | None => true end)
                           (data_type_definitions_of model rfu)) in
      _populate_ev_deletions dt_defs_deletions ;;;
      results <- mapM (fun kv => data_type_mod_action (fst kv) (snd kv)) data_type_definitions ;;
      let acts := flat_map (fun r => match r with Some a => [a] | None => [] end) results in
      let is_mod a := match dget (as_dict a) "parent" with Some _ => true | None => false end in
      let dt_defs_modifications := filter is_mod acts in
      let dt_defs_creations := filter (fun a => negb (is_mod a)) acts in
      let base := [("parent", VRef rfu)] in
      let base := match dt_defs_creations with
                  | [] => base
                  | _ => dset base "extend" (VDict [("data_type_definitions", VList dt_defs_creations)])
                  end in
      let base := match dt_defs_deletions with
                  | [] => base
                  | _ => dset base "delete"
                           (VDict [("data_type_definitions", VList (map VRef dt_defs_deletions))])
                  end in
      locs <- mapM (fun a => alloc (as_dict a)) dt_defs_modifications ;;
      extend_actions locs ;;;
      ret base
  end.

(** [requirement_type_delete_actions()]. *)
Definition requirement_type_delete_actions : M (list val) :=
  rf <- gets reqt_folder ;;
  match rf with
  | None => raise AssertionError
  | Some rfu =>
      ret (map (fun r => VRef (o_uuid r))
               (filter (fun r => match lookup requirement_types (o_identifier r) with
                                 | Some _ => false | None => true end)
                       (requirement_types_of model rfu)))
  end.

(** [attribute_definition_mod_action(reqtype, identifier, data)]. *)
Definition attribute_definition_mod_action (reqtype : obj) (identifier : string)
    (data : AttrDef) : M (option val) :=
  let body : M (option val) :=
    attrdef <- lift (by_attr_single (attribute_definitions_of model (o_uuid reqtype))
                       "identifier" (identifier ++ " " ++ o_identifier reqtype)) ;;
    let mods := if String.eqb (o_long_name attrdef) (ad_long_name data) then []
                else [("long_name", VStr (ad_long_name data))] in
    mods <-
      (if String.eqb (ad_type data) "Enum" then
         let dtype := match o_data_type attrdef with
                      | Some u => by_uuid model u | None => None end in
         let mods := match dtype with
                     | Some d => if String.eqb (o_identifier d) identifier then mods
                                 else dset mods "data_type" (VStr identifier)
                     | None => dset mods "data_type" (VStr identifier)
                     end in
         let expected := match ad_multi_values data with Some b => b | None => false end in
         match o_kind attrdef with
         | KAttributeDefinitionEnumeration =>
             if Bool.eqb (o_multi_valued attrdef) expected then ret mods
             else match ad_multi_values data with
                  | Some b => ret (dset mods "multi_valued" (VBool b))
                  | None => raise (KeyError "'multi_values'")
                  end
         | _ => raise (AttributeError
                  "'AttributeDefinition' object has no attribute 'multi_valued'")
         end
       else ret mods) ;;
    match mods with
    | [] => ret None
    | _ => ret (Some (VDict [("parent", VRef (o_uuid attrdef)); ("modify", VDict mods)]))
    end in
  try_catch body
    (fun e => match e with
              | KeyError _ =>
                  try_catch
                    (a <- attribute_definition_create_action identifier data (o_identifier reqtype) ;;
                     ret (Some a))
                    (fun e => match e with
                              | InvalidAttributeDefinition msg =>
                                  _handle_user_error ("In RequirementType "
                                    ++ repr_str (o_long_name reqtype) ++ ": " ++ msg) ;;;
                                  ret None
                              | e => raise e
                              end)
              | e => raise e
              end).

(** [requirement_type_mod_action(identifier, item)]: modifications go to
    [self.actions]; the create-descriptor is returned when the type is
    not in the Types-Folder (or when a [KeyError] escapes the body). *)
Definition requirement_type_mod_action (identifier : string) (item : ReqType)
  : M (option val) :=
  rf <- gets reqt_folder ;;
  match rf with
  | None => raise AssertionError
  | Some rfu =>
  let body : M (option val) :=
    reqtype <- lift (by_attr_single (requirement_types_of model rfu) "identifier" identifier) ;;
    let mods := if String.eqb (o_long_name reqtype) (rt_long_name item) then []
                else [("long_name", VStr (rt_long_name item))] in
    let attribute_definition_ids :=
      map (fun kv => fst kv ++ " " ++ o_identifier reqtype) (rt_attributes item) in
    let attr_defs_deletions :=
      map (fun a => VRef (o_uuid a))
          (filter (fun a => negb (mem (o_identifier a) attribute_definition_ids))
                  (attribute_definitions_of model (o_uuid reqtype))) in
    results <- mapM (fun kv => attribute_definition_mod_action reqtype (fst kv) (snd kv))
                    (rt_attributes item) ;;
    let acts := flat_map (fun r => match r with Some a => [a] | None => [] end) results in
    let is_mod a := match dget (as_dict a) "parent" with Some _ => true | None => false end in
    let attr_defs_modifications := filter is_mod acts in
    let attr_defs_creations := filter (fun a => negb (is_mod a)) acts in
    let base := [("parent", VRef (o_uuid reqtype))] in
    let base := match mods with [] => base | _ => dset base "modify" (VDict mods) end in
    let base := match attr_defs_creations with
                | [] => base
                | _ => dset base "extend" (VDict [("attribute_definitions", VList attr_defs_creations)])
                end in
    let base := match attr_defs_deletions with
                | [] => base
                | _ => dset base "delete" (VDict [("attribute_definitions", VList attr_defs_deletions)])
                end in
    (if list_eq_dec string_dec (dkeys base) ["parent"] then ret tt
     else l <- alloc base ;; append_action l) ;;;
    locs <- mapM (fun a => alloc (as_dict a)) attr_defs_modifications ;;
    extend_actions locs ;;;
    ret None in
  try_catch body
    (fun e => match e with
              | KeyError _ => a <- requirement_type_create_action identifier item ;; ret (Some a)
              | e => raise e
              end)
  end.

(** [check_attribute_value_is_valid(id, value, req_type_id)]. *)
Definition check_attribute_value_is_valid (id : string) (value : val) (req_type_id : string)
  : M _AttributeValueBuilder :=
  match lookup requirement_types req_type_id with
  | None => raise (KeyError (repr_str req_type_id))
  | Some rt =>
      match lookup (rt_attributes rt) id with
      | None => raise (KeyError (repr_str id))
      | Some adef =>
          let deftype := ad_type adef in
          (match default_type_check deftype with
           | Some (tname, isinst) =>
               if isinst value then ret tt
               else raise (InvalidFieldValue
                      ("Invalid field found: " ++ repr_str id
                       ++ ". Not matching expected types: " ++ py_repr value
                       ++ " should be of type " ++ repr_str tname))
           | None =>
               modify (fun s => set_logs (logs s ++
                 ["Unknown field type '" ++ deftype ++ "' for " ++ id ++ ": " ++ py_repr value]) s)
           end) ;;;
          if String.eqb deftype "Enum" then
            match lookup data_type_definitions id with
            | None => raise (InvalidFieldValue
                        ("Invalid field found: " ++ repr_str id
                         ++ ". Missing its datatype definition in `data_types`."))
            | Some datatype =>
                let options := map dtv_id (dt_values datatype) in
                let key := "values" in
                if existsb (fun v => match v with VStr x => mem x options | _ => false end)
                           (as_list value)
                then ret (mkBuilder deftype key value)
                else raise (InvalidFieldValue
                       ("Invalid field found: " ++ key ++ " " ++ py_repr value
                        ++ " for " ++ repr_str id))
            end
          else ret (mkBuilder deftype "value" value)
      end
  end.

(** [attribute_value_create_action(id, value, req_type_id)]. *)
Definition attribute_value_create_action (id : string) (value : val) (req_type_id : string)
  : M val :=
  builder <- check_attribute_value_is_valid id value req_type_id ;;
  rf <- gets reqt_folder ;;
  let is_enum := String.eqb (b_deftype builder) "Enum" in
  let deftype := if is_enum then "AttributeDefinitionEnumeration" else "AttributeDefinition" in
  values <-
    (if is_enum then
       edtdef <- find_by_identifier model id "EnumerationDataTypeDefinition" rf ;;
       let below := match edtdef with Some e => Some (o_uuid e) | None => rf end in
       mapM (fun evid =>
               let eid := match evid with
                          | VRef u => u | VPromise i => i | v => py_str v end in
               enumvalue <- find_by_identifier model eid "EnumValue" below ;;
               evd <- gets evdeletions ;;
               let deleted := match evid with VStr x => mem x evd | _ => false end in
               match enumvalue with
               | Some ev => if deleted then ret (VPromise ("EnumValue " ++ id ++ " " ++ py_str evid))
                            else ret (VRef (o_uuid ev))
               | None => ret (VPromise ("EnumValue " ++ id ++ " " ++ py_str evid))
               end)
            (as_list (b_value builder))
     else ret []) ;;
  let attr_def_id := id ++ " " ++ req_type_id in
  definition <- find_by_identifier model attr_def_id deftype rf ;;
  definition_ref <-
    (match definition with
     | None =>
         let promise_id := deftype ++ " " ++ attr_def_id in
         fa <- gets faulty_attribute_definitions ;;
         if mem promise_id fa
         then raise (InvalidFieldValue ("Invalid field found: No AttributeDefinition "
                                        ++ repr_str id ++ " promised."))
         else ret (VPromise promise_id)
     | Some d => ret (VRef (o_uuid d))
     end) ;;
  ret (VDict [("_type", VStr (lower (b_deftype builder)));
              ("definition", definition_ref);
              (b_key builder, match values with [] => b_value builder | _ => VList values end)]).

(** [_check_attribute((id, value), (req_type_id, iitem_id))]:
    [Some "break"], [Some "continue"] or [None]. *)
Definition _check_attribute (id : string) (value : val) (req_type_id iitem_id : string)
  : M (option string) :=
  if String.eqb req_type_id "" then
    _handle_user_error ("Invalid workitem '" ++ iitem_id ++ "'. "
                        ++ "Missing type but attributes found") ;;;
    ret (Some "break")
  else if _blacklisted id value then ret (Some "continue")
  else match lookup requirement_types req_type_id with
       | Some rt =>
           match lookup (rt_attributes rt) id with
           | None =>
               _handle_user_error ("Invalid workitem '" ++ iitem_id ++ "'. "
                 ++ "Invalid field found: field identifier '" ++ id
                 ++ "' not defined in attributes of requirement type '"
                 ++ req_type_id ++ "'") ;;;
               ret (Some "continue")
           | Some _ => ret None
           end
       | None => ret None
       end.

(** [_try_create_attribute_value((id, value), (req_type_id, iitem_id),
    actions)]: the action appended to [actions], if any. *)
Definition _try_create_attribute_value (id : string) (value : val)
    (req_type_id iitem_id : string) : M (list val) :=
  try_catch (a <- attribute_value_create_action id value req_type_id ;; ret [a])
    (fun e => match e with
              | InvalidFieldValue msg =>
                  _handle_user_error ("Invalid workitem '" ++ iitem_id ++ "'. " ++ msg) ;;;
                  ret []
              | e => raise e
              end).

(** The attribute loop of the create and of the modify branch:
    [_check_attribute] and then [step] for each attribute, stopping at
    "break". *)
Fixpoint attribute_loop (req_type_id iid : string) (step : string -> val -> M (list val))
    (attrs : list (string * val)) : M (list val) :=
  match attrs with
  | [] => ret []
  | (id, value) :: rest =>
      check <- _check_attribute id value req_type_id iid ;;
      match check with
      | Some c =>
          if String.eqb c "break" then ret []
          else attribute_loop req_type_id iid step rest
      | None =>
          a <- step id value ;;
          more <- attribute_loop req_type_id iid step rest ;;
          ret (app a more)
      end
  end.

(** The identifiers of the EnumValues an enumeration attribute value
    refers to ([attr.values.by_identifier]). *)
Definition referenced_value_identifiers (attr : obj) : list string :=
  flat_map (fun u => match by_uuid model u with
                     | Some ev => [o_identifier ev] | None => [] end) (o_values attr).

Definition dedup (l : list string) : list string :=
  fold_left (fun acc x => set_add x acc) l [].

(** [attribute_value_mod_action(req, id, valueid, req_type_id)].  The
    new value list is [create | (actual - delete)], a Python set; it is
    listed here as [create] followed by the kept values. *)
Definition attribute_value_mod_action (req : obj) (id : string) (valueid : val)
    (req_type_id : string) : M (option val) :=
  builder <- check_attribute_value_is_valid id valueid req_type_id ;;
  let deftype := if String.eqb (b_deftype builder) "Enum"
                 then "AttributeDefinitionEnumeration" else "AttributeDefinition" in
  rf <- gets reqt_folder ;;
  attrdef <- find_by_identifier model (id ++ " " ++ req_type_id) deftype rf ;;
  let defu := match attrdef with Some d => Some (o_uuid d) | None => None end in
  let matching := filter (fun a => match o_definition a, defu with
                                   | Some x, Some y => String.eqb x y
                                   | None, None => true
                                   | _, _ => false
                                   end) (attributes_of model (o_uuid req)) in
  match matching with
  | [attr] =>
      match attrdef with
      | None => raise AssertionError
      | Some ad =>
          r <-
            (if kind_eqb (o_kind attr) (KAttributeValue "EnumerationValueAttribute") then
               let actual := dedup (referenced_value_identifiers attr) in
               let snap := dedup (flat_map (fun v => match v with VStr x => [x] | _ => [] end)
                                           (as_list valueid)) in
               let delete := filter (fun x => negb (mem x snap)) actual in
               let create := filter (fun x => negb (mem x actual)) snap in
               let differ := negb (Nat.eqb (length create) 0) || negb (Nat.eqb (length delete) 0) in
               match o_data_type ad with
               | None => raise (AttributeError "'NoneType' object has no attribute 'values'")
               | Some dtu =>
                   let options := enum_values_of model dtu in
                   new <- mapM (fun v =>
                            match filter (fun o => String.eqb (o_identifier o) v) options with
                            | [] => ret (VPromise ("EnumValue " ++ id ++ " " ++ v))
                            | [o] => ret (VRef (o_uuid o))
                            | _ => raise (KeyError ("Multiple matches for " ++ repr_str v))
                            end)
                          (app create (filter (fun x => negb (mem x delete)) actual)) ;;
                   ret (differ, ("values", VList new))
               end
             else ret (negb (py_eq (o_value attr) valueid), ("value", valueid))) ;;
          let '(differ, (key, v)) := r in
          if differ
          then ret (Some (VDict [("parent", VRef (o_uuid attr)); ("modify", VDict [(key, v)])]))
          else ret None
      end
  | _ => raise (KeyError "by_definition")
  end.

(** [req.type.identifier]. *)
Definition type_identifier (req : obj) : M string :=
  match o_type req with
  | None => raise (AttributeError "'NoneType' object has no attribute 'identifier'")
  | Some u => match by_uuid model u with
              | Some t => ret (o_identifier t)
              | None => raise (AttributeError "'NoneType' object has no attribute 'identifier'")
              end
  end.

(** [attr.definition.identifier]. *)
Definition definition_identifier (attr : obj) : M string :=
  match o_definition attr with
  | None => raise (AttributeError "'NoneType' object has no attribute 'identifier'")
  | Some u => match by_uuid model u with
              | Some d => ret (o_identifier d)
              | None => raise (AttributeError "'NoneType' object has no attribute 'identifier'")
              end
  end.

(** The [parent] argument of [yield_requirements_mod_actions]: the
    default ([None], i.e. [self.req_module]), a model object, or a
    [decl.Promise]. *)
Inductive parent_arg : Type :=
| PDefault
| PObj (uuid : string)
| PPromise (identifier : string).

(** [req.parent != parent]. *)
Definition parent_differs (req : obj) (parent : parent_arg) : M bool :=
  match parent with
  | PDefault => rm <- gets req_module ;;
                ret (negb (match rm with Some u => String.eqb (o_parent req) u
                                         | None => false end))
  | PObj u => ret (negb (String.eqb (o_parent req) u))
  | PPromise _ => ret true
  end.

Definition is_folder_item (item : WorkItem) : bool :=
  match wi_children item with Some _ => true | None => false end.

Definition item_children (item : WorkItem) : list WorkItem :=
  match wi_children item with Some cs => cs | None => [] end.

(** The attribute part of the create branch. *)
Definition create_attributes (item : WorkItem) : M (list val) :=
  let iid := wi_id item in
  let req_type_id := match wi_type item with Some t => t | None => "" end in
  attribute_loop req_type_id iid
    (fun id value => _try_create_attribute_value id value req_type_id iid)
    (wi_attributes item).

(** The attribute part of the modify branch, for an unchanged type. *)
Definition modify_attribute_step (req : obj) (req_type_id iid : string)
    (id : string) (value : val) : M (list val * list val) :=
  try_catch
    (a <- attribute_value_mod_action req id value req_type_id ;;
     match a with
     | None => ret ([], [])
     | Some a => ret ([], [a])
     end)
    (fun e => match e with
              | KeyError _ =>
                  c <- _try_create_attribute_value id value req_type_id iid ;;
                  ret (c, [])
              | InvalidFieldValue msg =>
                  _handle_user_error ("Invalid workitem '" ++ iid ++ "'. " ++ msg) ;;;
                  ret ([], [])
              | e => raise e
              end).

(** The attribute loop of the modify branch: the creations and the
    modifications.  With a changed type ([type_changed]) every attribute
    is created. *)
Fixpoint modify_attribute_loop (req : obj) (req_type_id iid : string) (type_changed : bool)
    (attrs : list (string * val)) : M (list val * list val) :=
  match attrs with
  | [] => ret ([], [])
  | (id, value) :: rest =>
      check <- _check_attribute id value req_type_id iid ;;
      match check with
      | Some c =>
          if String.eqb c "break" then ret ([], [])
          else modify_attribute_loop req req_type_id iid type_changed rest
      | None =>
          r <- (if type_changed
                then c <- _try_create_attribute_value id value req_type_id iid ;; ret (c, [])
                else modify_attribute_step req req_type_id iid id value) ;;
          more <- modify_attribute_loop req req_type_id iid type_changed rest ;;
          ret (app (fst r) (fst more), app (snd r) (snd more))
      end
  end.

(** Attribute values whose definition is not among [ids]. *)
Fixpoint attribute_deletions_by_definition (ids : list string) (attrs : list obj)
  : M (list val) :=
  match attrs with
  | [] => ret []
  | a :: rest =>
      did <- definition_identifier a ;;
      more <- attribute_deletions_by_definition ids rest ;;
      if mem did ids then ret more else ret (VRef (o_uuid a) :: more)
  end.

(** The result of the children loop of the modify branch. *)
Record child_loop : Type := mkChildLoop {
  cr_creations : list val;
  cf_creations : list val;
  child_req_ids : list string;
  child_folder_ids : list string;
  child_mods : list nat
}.

Definition truthy_key (d : list (string * val)) (k : string) : bool :=
  match dget d k with Some v => truthy v | None => false end.

(** [yield_requirements_create_actions(item)] and
    [yield_requirements_mod_actions(req, item, parent)].  Both are Python
    generators: the create generator runs its whole body at its first
    [next()] and then only re-yields [child_mods]; the modify generator
    runs its body when it is first iterated, i.e. at
    [self.actions.extend(...)] or [child_mods.extend(...)].  The [try]
    blocks around the creation of a modify generator therefore never see
    the [InvalidWorkItemType] its body raises: it propagates from the
    [extend].  The create branch returns its create-descriptor and the
    locations of the actions yielded after it; the modify branch returns
    the locations of all its yielded actions. *)
Fixpoint yield_requirements_create_actions (item : WorkItem) {struct item}
  : M (val * list nat) :=
  match item with
  | mkWorkItem iid ln txt ty attrs children =>
      attributes <- create_attributes item ;;
      let identifier := iid in
      match ln with
      | None => raise (KeyError "'long_name'")
      | Some long_name =>
          let base := [("long_name", VStr long_name); ("identifier", VStr identifier)] in
          let base := match txt with
                      | Some t => if truthy (VStr t) then dset base "text" (VStr t) else base
                      | None => base
                      end in
          let base := match attributes with
                      | [] => base
                      | _ => dset base "attributes" (VList attributes)
                      end in
          let req_type_id := match ty with Some t => t | None => "" end in
          base <- (if String.eqb req_type_id "" then ret base
                   else rf <- gets reqt_folder ;;
                        rt <- find_by_identifier model req_type_id "RequirementType" rf ;;
                        ret (dset base "type"
                               (match rt with
                                | None => VPromise ("RequirementType " ++ req_type_id)
                                | Some r => VRef (o_uuid r)
                                end))) ;;
          match children with
          | None => ret (VDict base, [])
          | Some cs =>
              r <- (fix loop (cs : list WorkItem) : M (list val * list val * list nat) :=
                      match cs with
                      | [] => ret ([], [], [])
                      | child :: cs' =>
                          let is_f := is_folder_item child in
                          creq <- find_by_identifier model (wi_id child)
                                    (if is_f then "Folder" else "Requirement") None ;;
                          ca <- (match creq with
                                 | None => yield_requirements_create_actions child
                                 | Some c =>
                                     ms <- yield_requirements_mod_actions c child
                                             (PPromise identifier) ;;
                                     ret (VRef (o_uuid c), ms)
                                 end) ;;
                          rest <- loop cs' ;;
                          let '(rs, fs, ms) := rest in
                          if is_f then ret (rs, fst ca :: fs, app (snd ca) ms)
                          else ret (fst ca :: rs, fs, app (snd ca) ms)
                      end) cs ;;
              let '(rs, fs, ms) := r in
              let base := match rs with [] => base | _ => dset base "requirements" (VList rs) end in
              let base := match fs with [] => base | _ => dset base "folders" (VList fs) end in
              ret (VDict base, ms)
          end
      end
  end

with yield_requirements_mod_actions (req : obj) (item : WorkItem) (parent : parent_arg)
  {struct item} : M (list nat) :=
  match item with
  | mkWorkItem iid ln txt ty attrs children =>
      let mods := compare_simple_workitem req item in
      let req_type_id := match ty with Some t => t | None => "" end in
      cur <- type_identifier req ;;
      r <- (if String.eqb req_type_id cur then ret (mods, [])
            else if negb (String.eqb req_type_id "")
                    && match lookup requirement_types req_type_id with
                       | Some _ => false | None => true end
            then raise (InvalidWorkItemType ("Faulty workitem in snapshot: "
                          ++ "Unknown workitem-type " ++ repr_str req_type_id))
            else rf <- gets reqt_folder ;;
                 rt <- find_by_identifier model req_type_id "RequirementType" rf ;;
                 let mods := dset mods "type" (match rt with
                                               | None => VPromise req_type_id
                                               | Some t => VRef (o_uuid t)
                                               end) in
                 ret (mods, map (fun a => VRef (o_uuid a)) (attributes_of model (o_uuid req)))) ;;
      let '(mods, attributes_deletions) := r in
      let type_changed := truthy_key mods "type" in
      cm <- modify_attribute_loop req req_type_id iid type_changed attrs ;;
      let '(attributes_creations, attributes_modifications) := cm in
      let attribute_definition_ids := map (fun kv => fst kv ++ " " ++ req_type_id) attrs in
      attributes_deletions <-
        (match attributes_deletions with
         | [] => attribute_deletions_by_definition attribute_definition_ids
                   (attributes_of model (o_uuid req))
         | l => ret l
         end) ;;
      let base := [("parent", VRef (o_uuid req))] in
      let base := match mods with [] => base | _ => dset base "modify" (VDict mods) end in
      let base := match attributes_creations with
                  | [] => base
                  | _ => dset base "extend" (VDict [("attributes", VList attributes_creations)])
                  end in
      let base := match attributes_deletions with
                  | [] => base
                  | _ => dset base "delete" (VDict [("attributes", VList attributes_deletions)])
                  end in
      differs <- parent_differs req parent ;;
      (if differs
       then modify (fun s => set_location_changed
                      (set_add (o_identifier req) (location_changed s)) s) ;;;
            invalidate_deletion req
       else ret tt) ;;;
      r <- (if kind_eqb (o_kind req) KFolder then
              let children_loop := fix loop (cs : list WorkItem) (acc : child_loop) : M child_loop :=
                       match cs with
                       | [] => ret acc
                       | child :: cs' =>
                           let cid := wi_id child in
                           let is_f := is_folder_item child in
                           let acc := if is_f
                                      then mkChildLoop (cr_creations acc) (cf_creations acc)
                                             (child_req_ids acc) (set_add cid (child_folder_ids acc))
                                             (child_mods acc)
                                      else mkChildLoop (cr_creations acc) (cf_creations acc)
                                             (set_add cid (child_req_ids acc)) (child_folder_ids acc)
                                             (child_mods acc) in
                           creq <- find_by_identifier model cid
                                     (if is_f then "Folder" else "Requirement") None ;;
                           ca <- (match creq with
                                  | None =>
                                      p <- yield_requirements_create_actions child ;;
                                      ret ([fst p], snd p)
                                  | Some c =>
                                      ms <- yield_requirements_mod_actions c child (PObj (o_uuid req)) ;;
                                      if String.eqb (o_parent c) (o_uuid req) then ret ([], ms)
                                      else ret ([VRef (o_uuid c)], ms)
                                  end) ;;
                           let acc := if is_f
                                      then mkChildLoop (cr_creations acc) (app (cf_creations acc) (fst ca))
                                             (child_req_ids acc) (child_folder_ids acc)
                                             (app (child_mods acc) (snd ca))
                                      else mkChildLoop (app (cr_creations acc) (fst ca)) (cf_creations acc)
                                             (child_req_ids acc) (child_folder_ids acc)
                                             (app (child_mods acc) (snd ca)) in
                           loop cs' acc
                       end in
              cl <- (match children with
                     | Some cs => children_loop cs (mkChildLoop [] [] [] [] [])
                     | None => ret (mkChildLoop [] [] [] [] [])
                     end) ;;
              let creations := match cr_creations cl with
                               | [] => [] | l => [("requirements", VList l)] end in
              let creations := match cf_creations cl with
                               | [] => creations | l => app creations [("folders", VList l)] end in
              let base := match creations with
                          | [] => base
                          | _ => _deep_update base [("extend", VDict creations)]
                          end in
              lc <- gets location_changed ;;
              let fold_dels := make_requirement_delete_actions model req
                                 (app (child_folder_ids cl) lc) "folders" in
              let req_dels := make_requirement_delete_actions model req
                                (app (child_req_ids cl) lc) "requirements" in
              let children_deletions := match fold_dels with
                                        | [] => [] | l => [("folders", VList l)] end in
              let children_deletions := match req_dels with
                                        | [] => children_deletions
                                        | l => app children_deletions [("requirements", VList l)]
                                        end in
              let base := match children_deletions with
                          | [] => base
                          | _ => _deep_update base [("delete", VDict children_deletions)]
                          end in
              loc <- alloc base ;;
              modify (fun s => set_req_deletions
                 (fold_left (fun acc r => match r with
                                          | VRef u => assoc_set acc u loc
                                          | _ => acc
                                          end) (app req_dels fold_dels) (req_deletions s)) s) ;;;
              ret (loc, child_mods cl)
            else loc <- alloc base ;; ret (loc, [])) ;;
      let '(loc, cmods) := r in
      d <- gets (fun s => deref s loc) ;;
      let yielded := truthy_key d "extend" || truthy_key d "modify" || truthy_key d "delete" in
      attr_locs <- mapM (fun a => alloc (as_dict a)) attributes_modifications ;;
      ret (app (if yielded then [loc] else []) (app attr_locs cmods))
  end.

(** The action for the Types-Folder when it exists (the [else] branch of
    [calculate_change]); it is appended to [self.actions] unless it only
    has its "parent". *)
Definition reqt_folder_mod_actions : M unit :=
  reqt_folder_action <- data_type_definition_mod_actions ;;
  reqtype_deletions <- requirement_type_delete_actions ;;
  let reqt_folder_action :=
    match reqtype_deletions with
    | [] => reqt_folder_action
    | _ => _deep_update reqt_folder_action
             [("delete", VDict [("requirement_types", VList reqtype_deletions)])]
    end in
  results <- mapM (fun kv => requirement_type_mod_action (fst kv) (snd kv)) requirement_types ;;
  let reqtype_creations := flat_map (fun r => match r with
                                              | Some a => if truthy a then [a] else []
                                              | None => [] end) results in
  let reqt_folder_action :=
    match reqtype_creations with
    | [] => reqt_folder_action
    | _ => _deep_update reqt_folder_action
             [("extend", VDict [("requirement_types", VList reqtype_creations)])]
    end in
  if list_eq_dec string_dec (dkeys reqt_folder_action) ["parent"] then ret tt
  else l <- alloc reqt_folder_action ;; append_action l.

(** The loop over [self.tracker["items"]] of [calculate_change]: the
    module action [base] and the set [visited]. *)
Fixpoint items_loop (items : list WorkItem) (base : list (string * val))
    (visited : list string) : M (list (string * val) * list string) :=
  match items with
  | [] => ret (base, visited)
  | item :: rest =>
      let is_f := is_folder_item item in
      let second_key := if is_f then "folders" else "requirements" in
      req <- find_by_identifier model (wi_id item)
               (if is_f then "Folder" else "Requirement") None ;;
      match req with
      | None =>
          p <- yield_requirements_create_actions item ;;
          let base := _add_action_safely base "extend" second_key (fst p) in
          extend_actions (snd p) ;;;
          items_loop rest base visited
      | Some req =>
          let visited := set_add (o_identifier req) visited in
          rm <- gets req_module ;;
          base <- (if match rm with Some u => String.eqb (o_parent req) u | None => false end
                   then ret base
                   else let base := _add_action_safely base "extend" second_key
                                      (VRef (o_uuid req)) in
                        modify (fun s => set_location_changed
                                  (set_add (o_identifier req) (location_changed s)) s) ;;;
                        invalidate_deletion req ;;;
                        ret base) ;;
          req_actions <- yield_requirements_mod_actions req item PDefault ;;
          extend_actions req_actions ;;;
          items_loop rest base visited
      end
  end.

(** [list.remove(x)] on [self.actions], comparing the dictionaries by
    value; [None] is the [ValueError]. *)
Fixpoint remove_action (s : st) (x : list (string * val)) (l : list nat) : option (list nat) :=
  match l with
  | [] => None
  | y :: l' => if py_eq (VDict (deref s y)) (VDict x) then Some l'
               else option_map (cons y) (remove_action s x l')
  end.

(** [for action in self._req_deletions.values(): if set(action) ==
    {"parent"}: self.actions.remove(action)]. *)
Fixpoint remove_parent_only (locs : list nat) : M unit :=
  match locs with
  | [] => ret tt
  | loc :: rest =>
      s <- gets (fun s => s) ;;
      let action := deref s loc in
      (if list_eq_dec string_dec (dkeys action) ["parent"] then
         match remove_action s action (actions s) with
         | None => raise (ValueError "list.remove(x): x not in list")
         | Some l => modify (set_actions l)
         end
       else ret tt) ;;;
      remove_parent_only rest
  end.

(** [calculate_change()]. *)
Definition calculate_change : M unit :=
  base <- check_requirements_module ;;
  rm <- gets req_module ;;
  rf <- find_by_identifier model TYPES_FOLDER_IDENTIFIER "CapellaTypesFolder" rm ;;
  modify (set_reqt_folder (option_map o_uuid rf)) ;;;
  base <- (match rf with
           | None => requirement_types_folder_create_action base
           | Some _ => reqt_folder_mod_actions ;;; ret base
           end) ;;
  r <- items_loop (tr_items tracker) base [] ;;
  let '(base, visited) := r in
  rd <- gets req_deletions ;;
  remove_parent_only (map snd rd) ;;;
  d1 <- req_delete_actions visited "requirements" ;;
  let base := _deep_update base d1 in
  d2 <- req_delete_actions visited "folders" ;;
  let base := _deep_update base d2 in
  if list_eq_dec string_dec (dkeys base) ["parent"] then ret tt
  else l <- alloc base ;; append_action l.

End TrackerChange.

(** The attributes of a fresh [TrackerChange] before [calculate_change]. *)
Definition init_st : st := mkSt [] [] [] [] [] [] [] [] None None.

(** [TrackerChange(tracker, model, config, gather_logs)]: the final state
    (or the exception escaping the constructor). *)
Definition TrackerChange (model : model_t) (model_info : string) (repair_html : string -> string)
    (tracker : Tracker) (config : TrackerConfig) (gather_logs : bool) : (exn + unit) * st :=
  calculate_change model model_info tracker config gather_logs repair_html init_st.

(** [tchange.actions], the dictionaries. *)
Definition tc_actions (s : st) : list (list (string * val)) :=
  map (deref s) (actions s).

Definition ERROR_MESSAGE_PREFIX (module_id : string) : string :=
  "Skipping module: " ++ module_id.

Fixpoint repeat_char (n : nat) (c : ascii) : string :=
  match n with 0 => EmptyString | S n => String c (repeat_char n c) end.

Definition newline : string := String (ascii_of_nat 10) EmptyString.

(** [_wrap_errors(module_id, errors, include_start)]. *)
Definition _wrap_errors (module_id : string) (errs : list string) (include_start : bool)
  : string :=
  let start := if include_start then ERROR_MESSAGE_PREFIX module_id
               else "Encountered error(s) in " ++ repr_str module_id in
  let first_sep := repeat_char (String.length start) "=" in
  let last_sep := repeat_char (String.length (last errs "")) "=" in
  join newline (start :: first_sep :: app errs [last_sep]).

(** The result of [calculate_change_set]: the change set, the errors and
    the messages sent to [LOGGER.error] on the way. *)
Record ChangeSet : Type := mkChangeSet {
  cs_actions : list (list (string * val));
  cs_errors : list string;
  cs_logs : list string
}.

Fixpoint py_in (x : list (string * val)) (l : list (list (string * val))) : bool :=
  match l with
  | [] => false
  | y :: l' => py_eq (VDict y) (VDict x) || py_in x l'
  end.

(** [calculate_change_set(model, config, snapshot, force, safe_mode,
    gather_logs)]; [inl] is an exception escaping it. *)
Definition calculate_change_set (model : model_t) (model_info : string)
    (repair_html : string -> string) (config : TrackerConfig) (snapshot : Tracker)
    (force safe_mode gather_logs : bool) : exn + ChangeSet :=
  let module_id := match tr_id snapshot with Some i => i | None => "MISSING ID" end in
  let r : exn + ChangeSet :=
    match TrackerChange model model_info repair_html snapshot config gather_logs with
    | (inr tt, s) =>
        let errs := match errors s with
                    | [] => []
                    | es => [_wrap_errors module_id es (negb force)]
                    end in
        let acts := match errors s with [] => tc_actions s | _ => [] end in
        let acts := if force && negb (match tc_actions s with [] => true | _ => false end)
                    then fold_left (fun acc a => if py_in a acc then acc else app acc [a])
                                   (tc_actions s) acts
                    else acts in
        inr (mkChangeSet acts errs (logs s))
    | (inl e, s) =>
        let fatal := match e with
                     | InvalidTrackerConfig m => Some m
                     | InvalidSnapshotModule m => Some m
                     | MissingCapellaModule m => Some m
                     | _ => None
                     end in
        match fatal with
        | None => inl e
        | Some m =>
            if gather_logs then inr (mkChangeSet [] [_wrap_errors module_id [m] true] (logs s))
            else inr (mkChangeSet [] [] (app (logs s) [ERROR_MESSAGE_PREFIX module_id ++ ". " ++ m]))
        end
    end in
  match r with
  | inl e => inl e
  | inr cs =>
      let safe_mode := if force then false else safe_mode in
      if safe_mode && existsb (fun e => negb (String.eqb e "")) (cs_errors cs)
      then inr (mkChangeSet [] (cs_errors cs) (cs_logs cs))
      else inr cs
  end.

(* ------------------------------------------------------------------ *)
(** ** Reading a change set *)

(** The operation groups of an action. *)
Definition has_operation (d : list (string * val)) : bool :=
  truthy_key d "extend" || truthy_key d "modify" || truthy_key d "delete".

(** [action[first][second]], as a list. *)
Definition group_list (d : list (string * val)) (first second : string) : list val :=
  match dget (dget_dict d first) second with Some v => as_list v | None => [] end.

(** The identifiers of the requirements an action creates. *)
Definition created_requirement_ids (d : list (string * val)) : list string :=
  flat_map (fun c => match dget (as_dict c) "identifier" with
                     | Some (VStr i) => [i]
                     | _ => []
                     end) (group_list d "extend" "requirements").

(** The attribute list of the group [g] ("extend", "delete") of an
    action: [d.get(g, {}).get("attributes", [])]. *)
Definition group_attributes (d : list (string * val)) (g : string) : list val :=
  match dget (dget_dict d g) "attributes" with Some (VList l) => l | _ => [] end.

(** An action of the modify branch for a changed type: its attribute
    deletions are [dl], its attribute creations [cr], and it modifies. *)
Definition type_change_action (dl cr : list val) (b : list (string * val)) : Prop :=
  group_attributes b "delete" = dl /\ group_attributes b "extend" = cr
  /\ truthy_key b "modify" = true.

(* ------------------------------------------------------------------ *)
(** ** Concrete models and snapshots *)

(** An object with only the fields the change calculation reads for
    modules, folders, requirements and types. *)
Definition plain_obj (u : string) (k : kind) (i p : string) (t : option string) : obj :=
  mkObj u k i i "" p t None VNone [] None false.

(** [helpers.repair_html] on texts that need no repair. *)
Definition identity_html (s : string) : string := s.

Definition config_m : TrackerConfig := mkTrackerConfig (Some "m").

(** A work item whose long name is its id. *)
Definition work_item (i : string) (ty : option string) (attrs : list (string * val))
    (ch : option (list WorkItem)) : WorkItem :=
  mkWorkItem i (Some i) None ty attrs ch.

(** Module "m" holds requirement "R" and the empty folder "B"; the
    snapshot moves "R" into "B". *)
Definition model_move : model_t :=
  [plain_obj "m" KCapellaModule "MOD" "" None;
   plain_obj "tf" KCapellaTypesFolder "-2" "m" None;
   plain_obj "rt" KRequirementType "T" "tf" None;
   plain_obj "r" KRequirement "R" "m" (Some "rt");
   plain_obj "b" KFolder "B" "m" (Some "rt")].

Definition snapshot_move : Tracker :=
  mkTracker (Some "MOD") None [] [("T", mkReqType "T" [])]
    [work_item "B" (Some "T") [] (Some [work_item "R" (Some "T") [] None])].

(** A model with only the module "m". *)
Definition model_empty : model_t := [plain_obj "m" KCapellaModule "MOD" "" None].

Definition data_types_priority : list (string * DataType) :=
  [("Priority", mkDataType "Priority" [mkDataTypeValue "Low" "Low";
                                       mkDataTypeValue "High" "High"])].

Definition requirement_types_t1 : list (string * ReqType) :=
  [("T1", mkReqType "Type1" [("Priority", mkAttrDef "Priority" "Enum" (Some false))])].

(** REQ-1 has the Priority ['Unknown'], REQ-2 the valid ['Low']. *)
Definition snapshot_invalid_enum : Tracker :=
  mkTracker (Some "MOD") None data_types_priority requirement_types_t1
    [mkWorkItem "REQ-1" (Some "R1") None (Some "T1") [("Priority", VList [VStr "Unknown"])] None;
     mkWorkItem "REQ-2" (Some "R2") None (Some "T1") [("Priority", VList [VStr "Low"])] None].

(** Requirement "REQ-1" of type "T1"; the snapshot gives it the new
    type "T2". *)
Definition model_retype : model_t :=
  [plain_obj "m" KCapellaModule "MOD" "" None;
   plain_obj "tf" KCapellaTypesFolder "-2" "m" None;
   plain_obj "t1" KRequirementType "T1" "tf" None;
   plain_obj "r" KRequirement "REQ-1" "m" (Some "t1")].

Definition snapshot_retype : Tracker :=
  mkTracker (Some "MOD") None [] [("T1", mkReqType "T1" []); ("T2", mkReqType "T2" [])]
    [work_item "REQ-1" (Some "T2") [] None].

(** An enumeration attribute declared with "multi_values": false. *)
Definition snapshot_single_valued : Tracker :=
  mkTracker (Some "MOD") None data_types_priority requirement_types_t1
    [mkWorkItem "REQ-2" (Some "R2") None (Some "T1") [("Priority", VList [VStr "Low"])] None].

(** [model_empty] after applying the change set computed for
    [snapshot_single_valued]: each create-descriptor became an object
    with the descriptor's fields (the Types folder, the data type and its
    values, the requirement type, the attribute definition with
    "multi_valued" true, the requirement and its attribute value). *)
Definition model_applied : model_t :=
  [plain_obj "m" KCapellaModule "MOD" "" None;
   plain_obj "tf" KCapellaTypesFolder "-2" "m" None;
   mkObj "dt" KEnumerationDataTypeDefinition "Priority" "Priority" "" "tf" None None VNone [] None false;
   mkObj "ev1" KEnumValue "Low" "Low" "" "dt" None None VNone [] None false;
   mkObj "ev2" KEnumValue "High" "High" "" "dt" None None VNone [] None false;
   mkObj "t1" KRequirementType "T1" "Type1" "" "tf" None None VNone [] None false;
   mkObj "ad" KAttributeDefinitionEnumeration "Priority T1" "Priority" "" "t1" None None VNone []
         (Some "dt") true;
   mkObj "r2" KRequirement "REQ-2" "R2" "" "m" (Some "t1") None VNone [] None false;
   mkObj "av" (KAttributeValue "EnumerationValueAttribute") "" "" "" "r2" None (Some "ad") VNone
         ["ev1"] None false].

(** Two folders with the identifier "F". *)
Definition model_twin_folders : model_t :=
  [plain_obj "m" KCapellaModule "MOD" "" None;
   plain_obj "f1" KFolder "F" "m" None;
   plain_obj "f2" KFolder "F" "m" None].

Definition config_no_uuid : TrackerConfig := mkTrackerConfig None.

(** The requirement types T1 (with the Enum attribute Priority) and T2
    (with the String attribute Note). *)
Definition requirement_types_t1_t2 : list (string * ReqType) :=
  app requirement_types_t1 [("T2", mkReqType "Type2" [("Note", mkAttrDef "Note" "String" None)])].

(** REQ-2 of [model_applied] (of type T1, with one attribute value)
    retyped to T2 with the Note "hello". *)
Definition snapshot_retype_attrs : Tracker :=
  mkTracker (Some "MOD") None data_types_priority requirement_types_t1_t2
    [mkWorkItem "REQ-2" (Some "R2") None (Some "T2") [("Note", VStr "hello")] None].

Definition obj_r2 : obj :=
  mkObj "r2" KRequirement "REQ-2" "R2" "" "m" (Some "t1") None VNone [] None false.

(** The state in which [calculate_change] walks the items of a module
    "m" with the Types-Folder "tf". *)
Definition st_module_m : st := set_reqt_folder (Some "tf") (set_req_module (Some "m") init_st).

(* ------------------------------------------------------------------ *)
(** ** The lookup methods of [ReqFinder] (find.py) *)

(** [ReqFinder.reqmodule(uuid)]. *)
Definition reqmodule (m : model_t) (uuid : string) : exn + option obj :=
  ReqFinder_get m uuid ["CapellaModule"] "uuid" None.

(** [ReqFinder.reqtypesfolder_by_identifier(identifier, below)]:
    [str(identifier)]. *)
Definition reqtypesfolder_by_identifier (m : model_t) (identifier : val) (below : option string)
  : exn + option obj :=
  ReqFinder_get m (py_str identifier) ["CapellaTypesFolder"] "identifier" below.

(** [ReqFinder.reqtype_by_identifier(identifier, below)]. *)
Definition reqtype_by_identifier (m : model_t) (identifier : val) (below : option string)
  : exn + option obj :=
  ReqFinder_get m (py_str identifier) ["RequirementType"] "identifier" below.

(** [ReqFinder.attribute_definition_by_identifier(xtype, identifier, below)]. *)
Definition attribute_definition_by_identifier (m : model_t) (xtype identifier : string)
    (below : option string) : exn + option obj :=
  ReqFinder_get m identifier [xtype] "identifier" below.

(** [ReqFinder.folder_by_identifier(identifier, below)]. *)
Definition folder_by_identifier (m : model_t) (identifier : val) (below : option string)
  : exn + option obj :=
  ReqFinder_get m (py_str identifier) ["Folder"] "identifier" below.

(** [ReqFinder.requirement_by_identifier(identifier, below)]. *)
Definition requirement_by_identifier (m : model_t) (identifier : val) (below : option string)
  : exn + option obj :=
  ReqFinder_get m (py_str identifier) ["Requirement"] "identifier" below.

(** [ReqFinder.enum_data_type_definition_by_long_name(long_name, below)]. *)
Definition enum_data_type_definition_by_long_name (m : model_t) (long_name : string)
    (below : option string) : exn + option obj :=
  ReqFinder_get m long_name ["EnumerationDataTypeDefinition"] "long_name" below.

(** [ReqFinder.enum_value_by_long_name(long_name, below)]. *)
Definition enum_value_by_long_name (m : model_t) (long_name : string) (below : option string)
  : exn + option obj :=
  ReqFinder_get m long_name ["EnumValue"] "long_name" below.

(* ------------------------------------------------------------------ *)
(** ** Auxiliary notions *)

(** The key of the delete group of [invalidate_deletion] for [req]. *)
Definition deletion_key (req : obj) : string :=
  if kind_eqb (o_kind req) KFolder then "folders" else "requirements".

(** An attribute of a work item that [_check_attribute] does not skip as
    blacklisted. *)
Definition not_blacklisted (kv : string * val) : bool := negb (_blacklisted (fst kv) (snd kv)).

(** The CapellaModules of the model with the UUID [u]. *)
Definition module_matches (model : model_t) (u : string) : list obj :=
  filter (fun o => String.eqb (attr_of "uuid" o) u) (search model ["CapellaModule"] None).

(** A computation that leaves [self.errors] alone, whatever its outcome. *)
Definition ErrKeep {A} (c : M A) : Prop := forall s, errors (snd (c s)) = errors s.

(** Both generators of a work item, with [gather_logs=False], leave
    [self.errors] alone. *)
Definition EKGen (model : model_t) (tracker : Tracker) (rh : string -> string)
    (item : WorkItem) : Prop :=
  ErrKeep (yield_requirements_create_actions model tracker false rh item)
  /\ forall req parent, ErrKeep (yield_requirements_mod_actions model tracker false rh req item parent).

(** A computation that only appends to [self.errors]: what it appends
    does not depend on the errors already collected, and its outcome
    and the rest of its state do not depend on them either. *)
Definition ErrOb {A} (c : M A) : Prop :=
  forall s, exists new, errors (snd (c s)) = app (errors s) new
    /\ forall e, c (set_errors e s) = (fst (c s), set_errors (app e new) (snd (c s))).

(** Both generators of a work item only append to [self.errors]. *)
Definition OBGen (model : model_t) (tracker : Tracker) (g : bool) (rh : string -> string)
    (item : WorkItem) : Prop :=
  ErrOb (yield_requirements_create_actions model tracker g rh item)
  /\ forall req parent, ErrOb (yield_requirements_mod_actions model tracker g rh req item parent).




(** Requirement "r1" in folder "f". *)
Definition obj_r1 : obj := plain_obj "r1" KRequirement "R1" "f" None.

(** A state whose only action (at location 0) deletes the requirements
    [xs] of "f"; it is registered as the deletion action of "r1". *)
Definition st_pending_deletion (xs : list val) : st :=
  mkSt [0] [[("parent", VRef "f"); ("delete", VDict [("requirements", VList xs)])]]
       [] [("r1", 0)] [] [] [] [] None (Some "m").

(** The requirement type T1 with the Enum attribute "Bad", whose data type
    the snapshot lacks. *)
Definition reqtype_t1_bad : ReqType :=
  mkReqType "Type1" [("Priority", mkAttrDef "Priority" "Enum" (Some false));
                     ("Bad", mkAttrDef "Bad" "Enum" None)].

(** The requirement type, the multi-valued attribute definition and the
    data type definition of [model_applied]. *)
Definition obj_t1 : obj :=
  mkObj "t1" KRequirementType "T1" "Type1" "" "tf" None None VNone [] None false.
Definition obj_ad : obj :=
  mkObj "ad" KAttributeDefinitionEnumeration "Priority T1" "Priority" "" "t1" None None VNone []
        (Some "dt") true.
Definition obj_dt : obj :=
  mkObj "dt" KEnumerationDataTypeDefinition "Priority" "Priority" "" "tf" None None VNone [] None false.

(* ------------------------------------------------------------------ *)
(** ** Invariants of the action list *)

(** Two states with the same heap, registered deletions, moved identifiers and action list. *)
Definition same_core (s s' : st) : Prop :=
  heap s' = heap s /\ req_deletions s' = req_deletions s
  /\ location_changed s' = location_changed s /\ actions s' = actions s.

(** A computation that leaves the heap, the registered deletions, the moved identifiers and the action list alone, whatever its outcome. *)
Definition Frame {A} (c : M A) : Prop := forall s, same_core s (snd (c s)).

(** The operation groups of an action. *)
Definition is_op_key (k : string) : Prop := k = "extend" \/ k = "modify" \/ k = "delete".

(** The shape of an action built by the generators: unique keys, a "parent", and otherwise only non-empty operation groups. *)
Definition shape (d : list (string * val)) : Prop :=
  NoDup (dkeys d) /\ dget d "parent" <> None
  /\ forall k v, In (k, v) d -> k = "parent" \/ (is_op_key k /\ truthy v = true).

(** An override that keeps that shape under [_deep_update]. *)
Definition ov_ok (kv : string * val) : Prop :=
  fst kv = "parent" \/ (is_op_key (fst kv) /\ truthy (snd kv) = true).

(** A location of [self._req_deletions]. *)
Definition registered (s : st) (l : nat) : Prop := In l (map snd (req_deletions s)).

(** A location that may stand in [self.actions]: an action with a "parent" that has an operation or is registered for [remove_parent_only]. *)
Definition good (s : st) (l : nat) : Prop :=
  l < length (heap s) /\ dget (deref s l) "parent" <> None
  /\ (has_operation (deref s l) = true \/ registered s l).

(** The object [u] has been moved ([self._location_changed]). *)
Definition moved (model : model_t) (s : st) (u : string) : Prop :=
  exists o, In o model /\ o_uuid o = u /\ In (o_identifier o) (location_changed s).

(** [r] is listed in one of the "delete" groups of [d]. *)
Definition in_deletes (r : val) (d : list (string * val)) : Prop :=
  exists dels k w, dget d "delete" = Some dels /\ dget (as_dict dels) k = Some w
                   /\ In r (as_list w).

(** [self._req_deletions]: unique keys; each entry points to an action that has the right shape and lists its key as a deletion unless the object was moved. *)
Definition RdOK (model : model_t) (s : st) (rd : list (string * nat)) : Prop :=
  NoDup (map fst rd)
  /\ forall u l, In (u, l) rd -> l < length (heap s) /\ shape (deref s l)
                               /\ (in_deletes (VRef u) (deref s l) \/ moved model s u).

(** The invariant on [self._req_deletions]. *)
Definition Inv (model : model_t) (s : st) : Prop := RdOK model s (req_deletions s).

(** The heap only grows, and good locations stay good. *)
Definition Mono (s s' : st) : Prop :=
  length (heap s) <= length (heap s') /\ forall l, good s l -> good s' l.

(** The contract of the generators: they keep the invariant and [self.actions], and the locations they yield are new, distinct and good. *)
Definition GenOK (model : model_t) (s s' : st) (locs : list nat) : Prop :=
  Inv model s' /\ Mono s s' /\ actions s' = actions s /\ NoDup locs
  /\ forall l, In l locs -> length (heap s) <= l /\ good s' l.

(** A step that keeps the invariant and [self.actions]. *)
Definition InvStep (model : model_t) (s s' : st) : Prop :=
  Inv model s' /\ Mono s s' /\ actions s' = actions s.

(** A deletion entry that may be registered for the action at [loc]. *)
Definition register_ok (model : model_t) (s : st) (loc : nat) (r : val) : Prop :=
  match r with
  | VRef u => in_deletes (VRef u) (deref s loc) /\ ~ moved model s u
  | _ => True
  end.

(** A property of the result of a computation that returns normally. *)
Definition Post {A} (c : M A) (P : A -> Prop) : Prop :=
  forall s a s', c s = (inr a, s') -> P a.

(** A modification action: it has an operation and a "parent". *)
Definition mod_ok (a : val) : Prop :=
  has_operation (as_dict a) = true /\ dget (as_dict a) "parent" <> None.

(** [P] on every child of an optional list of work items. *)
Definition ForallOpt (P : WorkItem -> Prop) (cs : option (list WorkItem)) : Prop :=
  match cs with Some l => Forall P l | None => True end.

(** Induction over work items through their children. *)
Fixpoint WorkItem_rect' (P : WorkItem -> Prop)
    (H : forall iid ln txt ty attrs cs, ForallOpt P cs -> P (mkWorkItem iid ln txt ty attrs cs))
    (w : WorkItem) : P w :=
  match w with
  | mkWorkItem iid ln txt ty attrs cs =>
      H iid ln txt ty attrs cs
        (match cs as c return ForallOpt P c with
         | None => I
         | Some l => (fix go (l : list WorkItem) : Forall P l :=
                        match l with
                        | [] => Forall_nil P
                        | x :: xs => Forall_cons x (WorkItem_rect' P H x) (go xs)
                        end) l
         end)
  end.

(** The contract of [yield_requirements_create_actions]. *)
Definition CreateSpec (model : model_t) (tracker : Tracker) (g : bool)
    (rh : string -> string) (item : WorkItem) : Prop :=
  forall s v locs s', Inv model s ->
  yield_requirements_create_actions model tracker g rh item s = (inr (v, locs), s') ->
  GenOK model s s' locs.

(** The contract of [yield_requirements_mod_actions]. *)
Definition ModSpec (model : model_t) (tracker : Tracker) (g : bool)
    (rh : string -> string) (item : WorkItem) : Prop :=
  forall req parent s locs s', In req model -> Inv model s ->
  yield_requirements_mod_actions model tracker g rh req item parent s = (inr locs, s') ->
  GenOK model s s' locs.

(** The invariant, and [self.actions] is a list of distinct good locations. *)
Definition AOK (model : model_t) (s : st) : Prop :=
  Inv model s /\ NoDup (actions s) /\ forall l, In l (actions s) -> good s l.

(** The action at [l] has only its "parent". *)
Definition po (h : list (list (string * val))) (l : nat) : bool :=
  if list_eq_dec string_dec (dkeys (nth l h [])) ["parent"] then true else false.

(** Every action of [self.actions] has an operation and a "parent". *)
Definition FinalOK (s : st) : Prop :=
  forall l, In l (actions s) ->
    l < length (heap s) /\ has_operation (deref s l) = true /\ dget (deref s l) "parent" <> None.

(** A result that is a modification action when it has a "parent". *)
Definition mod_or_create (r : option val) : Prop :=
  forall a, r = Some a -> dget (as_dict a) "parent" <> None -> mod_ok a.

(** A computation that never raises. *)
Definition NoFail {A} (c : M A) : Prop := forall s, exists a s', c s = (inr a, s').

(** A computation that changes nothing of [same_core] when it raises. *)
Definition ErrFrame {A} (c : M A) : Prop := forall s e s', c s = (inl e, s') -> same_core s s'.

(* ================================================================== *)
(** * Properties *)

(** ** Stepping through computations *)


Lemma bind_inl {A B} (c : M A) (f : A -> M B) s e s1 :
  c s = (inl e, s1) -> bind c f s = (inl e, s1).
Proof. intros H. unfold bind. rewrite H. reflexivity. Qed.


Lemma filter_none {A} (f : A -> bool) l :
  (forall x, In x l -> f x = false) -> filter f l = [].
Proof.
  induction l as [|x l IH]; intros H; simpl; [reflexivity|].
  rewrite (H x (or_introl eq_refl)). apply IH. intros y Hy. apply H. right. exact Hy.
Qed.

Lemma repr_unknown : py_repr (VList [VStr "Unknown"]) = "['Unknown']".
Proof. reflexivity. Qed.

Lemma repr_int : py_repr (VInt (-120)) = "-120".
Proof. reflexivity. Qed.

Lemma wrap_errors_not_empty module_id errs include_start :
  _wrap_errors module_id errs include_start <> "".
Proof. unfold _wrap_errors. destruct include_start; simpl; discriminate. Qed.

(** ** C1 *)

(** C1 (moves are not deletions) fails when a requirement moves from the
    module into a folder: the folder's action adds a reference to "R",
    and the module's action still deletes "R", because the deletions
    directly below the module are filtered against the visited
    top-level items only, not against the location-changed set. *)
Theorem move_into_folder_keeps_module_deletion :
  calculate_change_set model_move "info" identity_html config_m snapshot_move false true true
  = inr (mkChangeSet
           [[("parent", VRef "b"); ("extend", VDict [("requirements", VList [VRef "r"])])];
            [("parent", VRef "m"); ("delete", VDict [("requirements", VList [VRef "r"])])]]
           [] []).
Proof. vm_compute. reflexivity. Qed.

(** ** C7 *)

(** C7 (one promise token per new RequirementType) fails: when the type
    of "REQ-1" changes to the new type "T2", the Types folder's action
    creates "T2" with the promise_id "RequirementType T2", while the
    modify action of "REQ-1" refers to it by the promise "T2". *)
Theorem retype_promise_token_mismatch :
  calculate_change_set model_retype "info" identity_html config_m snapshot_retype false true true
  = inr (mkChangeSet
           [[("parent", VRef "tf");
             ("extend", VDict [("requirement_types",
                VList [VDict [("identifier", VStr "T2"); ("long_name", VStr "T2");
                              ("promise_id", VStr "RequirementType T2");
                              ("attribute_definitions", VList [])]])])];
            [("parent", VRef "r"); ("modify", VDict [("type", VPromise "T2")])]]
           [] []).
Proof. vm_compute. reflexivity. Qed.

(** ** C8 *)

(** C8 (a second run after applying the first is empty) fails for an
    enumeration attribute declared with "multi_values": false: the first
    run creates its definition with "multi_valued" true, and a second run
    against the model with that change set applied emits a modification
    of "multi_valued" back to false. *)
Theorem single_valued_enum_not_idempotent :
  (exists cs,
     calculate_change_set model_empty "info" identity_html config_m snapshot_single_valued
       false true true = inr cs
     /\ cs_errors cs = []
     /\ In (VDict [("identifier", VStr "Priority T1"); ("long_name", VStr "Priority");
                   ("data_type", VPromise "EnumerationDataTypeDefinition Priority");
                   ("multi_valued", VBool true);
                   ("_type", VStr "AttributeDefinitionEnumeration");
                   ("promise_id", VStr "AttributeDefinitionEnumeration Priority T1")])
           (flat_map (fun a => flat_map (fun f =>
               flat_map (fun r => match dget (as_dict r) "attribute_definitions" with
                                  | Some v => as_list v | None => [] end)
                 (match dget (as_dict f) "requirement_types" with
                  | Some v => as_list v | None => [] end))
              (group_list a "extend" "requirement_types_folders")) (cs_actions cs)))
  /\ calculate_change_set model_applied "info" identity_html config_m snapshot_single_valued
       false true true
     = inr (mkChangeSet [[("parent", VRef "ad");
                          ("modify", VDict [("multi_valued", VBool false)])]] [] []).
Proof.
  split.
  - eexists. split; [vm_compute; reflexivity|]. split; [reflexivity|].
    vm_compute. left. reflexivity.
  - vm_compute. reflexivity.
Qed.

(** ** C9 *)

(** C9 (amended): [ReqFinder._get] never raises on a lookup: it returns
    the element when exactly one element matches, and [None] both when
    none matches and when several match (capellambse raises a [KeyError]
    in both cases, and [_get] catches it). *)
Theorem ReqFinder_get_never_raises m value xtypes attr below :
  let matches := filter (fun o => String.eqb (attr_of attr o) value) (search m xtypes below) in
  (matches = [] -> ReqFinder_get m value xtypes attr below = inr None)
  /\ (forall o, matches = [o] -> ReqFinder_get m value xtypes attr below = inr (Some o))
  /\ (2 <= length matches -> ReqFinder_get m value xtypes attr below = inr None).
Proof.
  intros matches. unfold ReqFinder_get, by_attr_single. fold matches.
  split; [|split].
  - intros H. rewrite H. reflexivity.
  - intros o H. rewrite H. reflexivity.
  - intros H. destruct matches as [|o [|o' rest]]; simpl in H; try lia. reflexivity.
Qed.

(** C9 fails for two folders that share the identifier "F": the lookup
    returns [None], the same answer as for no match. *)
Lemma ReqFinder_get_twin_folders_none :
  ReqFinder_get model_twin_folders "F" ["Folder"] "identifier" None = inr None
  /\ ReqFinder_get model_twin_folders "G" ["Folder"] "identifier" None = inr None.
Proof. split; vm_compute; reflexivity. Qed.

(** ** C10 *)

Lemma calculate_change_check_raises model info tracker config g rh s e s1 :
  check_requirements_module model info tracker config s = (inl e, s1) ->
  calculate_change model info tracker config g rh s = (inl e, s1).
Proof. intros H. unfold calculate_change. apply bind_inl. exact H. Qed.

Lemma calculate_change_set_fatal model info rh config snapshot force safe_mode e msg :
  fst (TrackerChange model info rh snapshot config true) = inl e ->
  fst (TrackerChange model info rh snapshot config false) = inl e ->
  logs (snd (TrackerChange model info rh snapshot config true)) = [] ->
  logs (snd (TrackerChange model info rh snapshot config false)) = [] ->
  (e = InvalidTrackerConfig msg \/ e = InvalidSnapshotModule msg \/ e = MissingCapellaModule msg) ->
  let module_id := match tr_id snapshot with Some i => i | None => "MISSING ID" end in
  calculate_change_set model info rh config snapshot force safe_mode true
    = inr (mkChangeSet [] [_wrap_errors module_id [msg] true] [])
  /\ calculate_change_set model info rh config snapshot force safe_mode false
    = inr (mkChangeSet [] [] [ERROR_MESSAGE_PREFIX module_id ++ ". " ++ msg]).
Proof.
  intros Ht Hf Lt Lf He module_id. unfold calculate_change_set. fold module_id.
  destruct (TrackerChange model info rh snapshot config true) as [rt st_t].
  destruct (TrackerChange model info rh snapshot config false) as [rf st_f].
  simpl in Ht, Hf, Lt, Lf. subst rt rf. rewrite Lt, Lf.
  destruct He as [-> | [-> | ->]]; cbn -[_wrap_errors ERROR_MESSAGE_PREFIX];
    split; destruct (_ && _); reflexivity.
Qed.

(** C10 (amended): a tracker configuration without "capella-uuid" makes
    [TrackerChange] raise [InvalidTrackerConfig]; a configured UUID that
    no [CapellaModule] of the model has makes it raise
    [MissingCapellaModule]; with the module found, a snapshot without "id"
    makes it raise [InvalidSnapshotModule].  [calculate_change_set] catches
    each of them and returns no action; with [gather_logs] (the default)
    its errors are the one message wrapped by [_wrap_errors], without
    [gather_logs] the errors stay empty and the message goes to
    [LOGGER.error] instead. *)
Theorem fatal_module_errors_skip_tracker model info rh config snapshot force safe_mode e :
  (cfg_capella_uuid config = None
   /\ e = InvalidTrackerConfig
            "The given module configuration is missing UUID of the target CapellaModule")
  \/ (exists u, cfg_capella_uuid config = Some u
      /\ (forall o, In o model -> kind_name (o_kind o) = "CapellaModule" -> o_uuid o <> u)
      /\ e = MissingCapellaModule ("No CapellaModule with UUID " ++ repr_str u ++ " found in " ++ info))
  \/ (exists u o, cfg_capella_uuid config = Some u
      /\ filter (fun o => String.eqb (o_uuid o) u) (search model ["CapellaModule"] None) = [o]
      /\ tr_id snapshot = None
      /\ e = InvalidSnapshotModule "In the snapshot the module is missing an id key") ->
  let module_id := match tr_id snapshot with Some i => i | None => "MISSING ID" end in
  let msg := match e with
             | InvalidTrackerConfig m | InvalidSnapshotModule m | MissingCapellaModule m => m
             | _ => "" end in
  (forall g, fst (TrackerChange model info rh snapshot config g) = inl e)
  /\ calculate_change_set model info rh config snapshot force safe_mode true
     = inr (mkChangeSet [] [_wrap_errors module_id [msg] true] [])
  /\ calculate_change_set model info rh config snapshot force safe_mode false
     = inr (mkChangeSet [] [] [ERROR_MESSAGE_PREFIX module_id ++ ". " ++ msg]).
Proof.
  intros Hcase module_id msg.
  assert (Hcheck : check_requirements_module model info snapshot config init_st = (inl e, init_st)).
  { unfold check_requirements_module.
    destruct Hcase as [[Hc ->] | [[u [Hc [Hno ->]]] | [u [o [Hc [Hone [Hid ->]]]]]]];
      rewrite Hc; [reflexivity | |].
    - unfold find_by.
      replace (filter (fun o => String.eqb (attr_of "uuid" o) u) (search model ["CapellaModule"] None))
        with (@nil obj).
      + reflexivity.
      + symmetry. apply filter_none. intros o Ho. unfold search in Ho.
        apply filter_In in Ho as [Hin Hk']. simpl in Hk'.
        rewrite Bool.andb_true_r, Bool.orb_false_r in Hk'.
        apply String.eqb_eq in Hk'. apply String.eqb_neq. apply (Hno o Hin Hk').
    - unfold find_by.
      replace (filter (fun o => String.eqb (attr_of "uuid" o) u) (search model ["CapellaModule"] None))
        with [o] by (rewrite <- Hone; reflexivity).
      unfold bind, ret. rewrite Hid. reflexivity. }
  assert (HT : forall g, TrackerChange model info rh snapshot config g = (inl e, init_st)).
  { intros g. unfold TrackerChange. apply calculate_change_check_raises. exact Hcheck. }
  split; [intros g; rewrite HT; reflexivity|].
  apply calculate_change_set_fatal with (e := e);
    try (rewrite HT; reflexivity).
  destruct Hcase as [[_ ->] | [[u [_ [_ ->]]] | [u [o [_ [_ [_ ->]]]]]]]; auto.
Qed.

(** [fatal_module_errors_skip_tracker] for a configuration without
    "capella-uuid". *)
Lemma fatal_module_errors_skip_tracker_witness :
  (cfg_capella_uuid config_no_uuid = None
   /\ InvalidTrackerConfig
        "The given module configuration is missing UUID of the target CapellaModule"
      = InvalidTrackerConfig
          "The given module configuration is missing UUID of the target CapellaModule")
  /\ calculate_change_set model_empty "info" identity_html config_no_uuid snapshot_invalid_enum
       false true true
     = inr (mkChangeSet [] [_wrap_errors "MOD"
         ["The given module configuration is missing UUID of the target CapellaModule"] true] []).
Proof.
  split; [split; reflexivity|].
  apply (fatal_module_errors_skip_tracker model_empty "info" identity_html config_no_uuid
           snapshot_invalid_enum false true
           (InvalidTrackerConfig
              "The given module configuration is missing UUID of the target CapellaModule")).
  left. split; reflexivity.
Defined.

(** C10 fails without [gather_logs]: the error list stays empty. *)
Lemma fatal_error_not_gathered_without_gather_logs :
  calculate_change_set model_empty "info" identity_html config_no_uuid snapshot_invalid_enum
    false true false
  = inr (mkChangeSet [] []
      ["Skipping module: MOD. The given module configuration is missing UUID of the target CapellaModule"]).
Proof. vm_compute. reflexivity. Qed.

(** ** C2 *)

Lemma py_in_app_l x l l' : py_in x l = true -> py_in x (app l l') = true.
Proof.
  induction l as [|y l IH]; simpl; [discriminate|].
  intros H. apply Bool.orb_true_iff in H as [H|H].
  - rewrite H. reflexivity.
  - rewrite IH by exact H. apply Bool.orb_true_r.
Qed.

Lemma py_in_incl x l l' : py_in x l = true -> incl l l' -> py_in x l' = true.
Proof.
  assert (E : forall l, py_in x l = existsb (fun y => py_eq (VDict y) (VDict x)) l)
    by (induction l0 as [|y l0 IH]; simpl; [reflexivity|rewrite IH; reflexivity]).
  rewrite !E. intros H Hi. apply existsb_exists in H as [y [Hy Hq]].
  apply existsb_exists. exists y. split; [apply Hi, Hy|exact Hq].
Qed.

(** The [if action not in actions: actions.append(action)] loop. *)
Lemma append_new_spec (l acc : list (list (string * val))) :
  let r := fold_left (fun acc a => if py_in a acc then acc else app acc [a]) l acc in
  incl r (app acc l)
  /\ incl acc r
  /\ (forall a, In a acc -> py_in a acc = true -> py_in a r = true)
  /\ (forall a, In a l -> In a r \/ py_in a r = true).
Proof.
  revert acc. induction l as [|x l IH]; intros acc; simpl.
  - rewrite app_nil_r. split; [apply incl_refl|]. split; [apply incl_refl|].
    split; [auto|]. intros a [].
  - destruct (py_in x acc) eqn:Hx.
    + destruct (IH acc) as [H1 [H2 [H3 H4]]].
      split; [intros y Hy; apply H1 in Hy; apply in_app_or in Hy as [Hy|Hy];
              apply in_or_app; simpl; tauto|].
      split; [exact H2|]. split; [exact H3|].
      intros a [<-|Ha]; [|apply H4, Ha].
      right. apply (py_in_incl _ _ _ Hx H2).
    + destruct (IH (app acc [x])) as [H1 [H2 [H3 H4]]].
      split; [rewrite <- app_assoc in H1; exact H1|].
      split; [intros y Hy; apply H2, in_or_app; left; exact Hy|].
      split; [intros a Ha Hpa; apply H3; [apply in_or_app; left; exact Ha|apply py_in_app_l, Hpa]|].
      intros a [<-|Ha]; [|apply H4, Ha].
      left. apply H2. apply in_or_app. right. left. reflexivity.
Qed.

(** C2 fails with [force=True]: the erroring item REQ-1 (its Priority
    ['Unknown'] is not an option of the data type) is still created. *)
Lemma force_keeps_erroring_item_action :
  exists cs,
    calculate_change_set model_empty "info" identity_html config_m snapshot_invalid_enum
      true true true = inr cs
    /\ cs_errors cs <> []
    /\ In "REQ-1" (flat_map created_requirement_ids (cs_actions cs)).
Proof.
  eexists. split; [vm_compute; reflexivity|].
  split; [discriminate|]. vm_compute. left. reflexivity.
Qed.

(** C2 (amended): when [TrackerChange] completes and has gathered an
    error, [calculate_change_set] with the default parameters returns no
    action and the wrapped errors; with [force=True] (whatever
    [safe_mode]) it returns the actions of [TrackerChange], equal
    actions merged: every action of [TrackerChange] is in the result or
    equal to one in it, and every action of the result is one of
    [TrackerChange]'s, including the action of an erroring item, which
    only lacks the faulty part. *)
Theorem safe_mode_discards_force_keeps_all model info rh config snapshot s :
  TrackerChange model info rh snapshot config true = (inr tt, s) ->
  errors s <> [] ->
  let module_id := match tr_id snapshot with Some i => i | None => "MISSING ID" end in
  calculate_change_set model info rh config snapshot false true true
    = inr (mkChangeSet [] [_wrap_errors module_id (errors s) true] (logs s))
  /\ forall safe_mode, exists cs,
       calculate_change_set model info rh config snapshot true safe_mode true = inr cs
       /\ cs_errors cs = [_wrap_errors module_id (errors s) false]
       /\ incl (cs_actions cs) (tc_actions s)
       /\ (forall a, In a (tc_actions s) -> In a (cs_actions cs) \/ py_in a (cs_actions cs) = true).
Proof.
  intros HT He module_id. unfold calculate_change_set. fold module_id. rewrite HT.
  destruct (errors s) as [|e es] eqn:Hes; [contradiction|].
  split.
  - cbn -[_wrap_errors]. 
    destruct (negb (String.eqb (_wrap_errors module_id (e :: es) true) "")) eqn:Hw.
    + reflexivity.
    + apply Bool.negb_false_iff, String.eqb_eq in Hw. exfalso. exact (wrap_errors_not_empty _ _ _ Hw).
  - intros safe_mode. cbn -[_wrap_errors].
    destruct (tc_actions s) as [|a0 l] eqn:Ha; simpl.
    + eexists. split; [reflexivity|]. simpl. split; [reflexivity|].
      split; [intros x []|intros x []].
    + eexists. split; [reflexivity|]. simpl. split; [reflexivity|].
      destruct (append_new_spec (a0 :: l) []) as [H1 [_ [_ H4]]].
      simpl in H1. split; [exact H1|exact H4].
Qed.

(** [safe_mode_discards_force_keeps_all] on the snapshot with REQ-1's
    invalid Priority. *)
Lemma safe_mode_discards_force_keeps_all_witness :
  TrackerChange model_empty "info" identity_html snapshot_invalid_enum config_m true
    = (inr tt, snd (TrackerChange model_empty "info" identity_html snapshot_invalid_enum config_m true))
  /\ errors (snd (TrackerChange model_empty "info" identity_html snapshot_invalid_enum config_m true)) <> []
  /\ calculate_change_set model_empty "info" identity_html config_m snapshot_invalid_enum false true true
     = inr (mkChangeSet []
         [_wrap_errors "MOD" (errors (snd (TrackerChange model_empty "info" identity_html
                                              snapshot_invalid_enum config_m true))) true]
         (logs (snd (TrackerChange model_empty "info" identity_html snapshot_invalid_enum config_m true)))).
Proof.
  assert (HT : TrackerChange model_empty "info" identity_html snapshot_invalid_enum config_m true
    = (inr tt, snd (TrackerChange model_empty "info" identity_html snapshot_invalid_enum config_m true)))
    by (vm_compute; reflexivity).
  assert (He : errors (snd (TrackerChange model_empty "info" identity_html snapshot_invalid_enum
                              config_m true)) <> [])
    by (vm_compute; discriminate).
  split; [exact HT|]. split; [exact He|].
  exact (proj1 (safe_mode_discards_force_keeps_all model_empty "info" identity_html config_m
                  snapshot_invalid_enum _ HT He)).
Defined.



Lemma find_by_state m v xs a b s : snd (find_by m v xs a b s) = s.
Proof.
  unfold find_by. destruct (filter _ _) as [|o [|o' l]]; reflexivity.
Qed.



Lemma dget_dset d k v : dget (dset d k v) k = Some v.
Proof.
  induction d as [|[k' v'] d IH]; simpl.
  - unfold dget. simpl. rewrite String.eqb_refl. reflexivity.
  - destruct (String.eqb k' k) eqn:E.
    + unfold dget. simpl. rewrite String.eqb_refl. reflexivity.
    + unfold dget in *. simpl. rewrite E. exact IH.
Qed.

Lemma mapM_inr_in {A B} (f : A -> M B) xs : forall s ys s',
  mapM f xs s = (inr ys, s') ->
  forall x, In x xs -> exists y s1 s2, In y ys /\ f x s1 = (inr y, s2).
Proof.
  induction xs as [|x0 xs IH]; intros s ys s' H x Hx; [destruct Hx|].
  simpl in H. unfold bind at 1 in H.
  destruct (f x0 s) as [[e|y0] s1] eqn:E0; [discriminate|].
  unfold bind at 1 in H.
  destruct (mapM f xs s1) as [[e|ys0] s2] eqn:E1; [discriminate|].
  unfold ret in H. injection H as <- <-.
  destruct Hx as [<-|Hx].
  - exists y0, s, s1. split; [left; reflexivity|exact E0].
  - destruct (IH _ _ _ E1 x Hx) as [y [t1 [t2 [Hy Hf]]]].
    exists y, t1, t2. split; [right; exact Hy|exact Hf].
Qed.

Lemma search_no_class m xtype below :
  (forall o, In o m -> kind_name (o_kind o) <> xtype) ->
  search m [xtype] below = [].
Proof.
  intros H. unfold search. apply filter_none. intros o Ho.
  simpl. destruct (String.eqb (kind_name (o_kind o)) xtype) eqn:E; [|reflexivity].
  apply String.eqb_eq in E. exfalso. exact (H o Ho E).
Qed.

Lemma attribute_definition_enum_promise model tracker id ad rtid dt s :
  (forall o, In o model -> kind_name (o_kind o) <> "EnumerationDataTypeDefinition") ->
  ad_type ad = "Enum" ->
  lookup (data_type_definitions tracker) id = Some dt ->
  attribute_definition_create_action model tracker id ad rtid s
  = (inr (VDict [("identifier", VStr (id ++ " " ++ rtid));
                 ("long_name", VStr (ad_long_name ad));
                 ("data_type", VPromise ("EnumerationDataTypeDefinition " ++ id));
                 ("multi_valued", VBool (match ad_multi_values ad with Some _ => true | None => false end));
                 ("_type", VStr "AttributeDefinitionEnumeration");
                 ("promise_id", VStr ("AttributeDefinitionEnumeration " ++ (id ++ " " ++ rtid)))]), s).
Proof.
  intros Hno Ht Hl. unfold attribute_definition_create_action. rewrite Ht, String.eqb_refl.
  unfold bind, gets, find_by_identifier, find_by.
  rewrite (search_no_class model _ (reqt_folder s) Hno). simpl filter.
  rewrite Hl. reflexivity.
Qed.

Lemma lookup_in {A} (d : list (string * A)) k v : lookup d k = Some v -> In (k, v) d.
Proof.
  unfold lookup. destruct (find _ d) as [[k' v']|] eqn:E; [|discriminate].
  intros H. injection H as <-. apply find_some in E. destruct E as [Hin Hk].
  apply String.eqb_eq in Hk. simpl in Hk. subst k'. exact Hin.
Qed.

Lemma requirement_type_enum_promise model tracker g rtid rt id ad dt s y s' :
  (forall o, In o model -> kind_name (o_kind o) <> "EnumerationDataTypeDefinition") ->
  In (id, ad) (rt_attributes rt) ->
  ad_type ad = "Enum" ->
  lookup (data_type_definitions tracker) id = Some dt ->
  requirement_type_create_action model tracker g rtid rt s = (inr y, s') ->
  exists ads, y = VDict [("identifier", VStr rtid);
                         ("long_name", VStr (rt_long_name rt));
                         ("promise_id", VStr ("RequirementType " ++ rtid));
                         ("attribute_definitions", VList ads)]
   /\ exists add, In (VDict add) ads
      /\ dget add "identifier" = Some (VStr (id ++ " " ++ rtid))
      /\ dget add "data_type" = Some (VPromise ("EnumerationDataTypeDefinition " ++ id)).
Proof.
  intros Hno Hin Ht Hl H. unfold requirement_type_create_action in H.
  unfold bind at 1 in H.
  destruct (mapM _ (rt_attributes rt) s) as [[e|defs] s1] eqn:Hm; [discriminate|].
  unfold ret in H. injection H as <- _.
  eexists. split; [reflexivity|].
  destruct (mapM_inr_in _ _ _ _ _ Hm (id, ad) Hin) as [ys [t1 [t2 [Hys Hf]]]].
  simpl in Hf.
  unfold try_catch in Hf. unfold bind at 1 in Hf.
  rewrite (attribute_definition_enum_promise model tracker id ad rtid dt t1 Hno Ht Hl) in Hf.
  unfold ret in Hf. injection Hf as <- _.
  eexists. split; [apply in_concat; eexists; split; [exact Hys|left; reflexivity]|].
  split; reflexivity.
Qed.

(** C5: when no Types-Folder (class "CapellaTypesFolder") exists in the
    model, and so (every EnumerationDataTypeDefinition lying in a
    Types-Folder) no EnumerationDataTypeDefinition either,
    [requirement_types_folder_create_action], which [calculate_change]
    calls when it finds no Types-Folder, emits one new Types-Folder in
    which every Enum attribute definition of the snapshot whose data type
    is declared refers to it by the Promise
    'EnumerationDataTypeDefinition <id>', character for character the
    promise_id of the create-descriptor of that data type definition in
    the same folder. *)
Theorem enum_data_type_promise_round_trip model tracker g base s b s' :
  (forall o, In o model -> kind_name (o_kind o) <> "CapellaTypesFolder") ->
  (forall o, In o model -> kind_name (o_kind o) = "EnumerationDataTypeDefinition" ->
     exists p, In p model /\ o_uuid p = o_parent o
               /\ kind_name (o_kind p) = "CapellaTypesFolder") ->
  requirement_types_folder_create_action model tracker g base s = (inr b, s') ->
  exists F,
    dget b "extend" = Some (VDict [("requirement_types_folders", VList [VDict F])])
    /\ forall rtid rt id ad dt,
      In (rtid, rt) (requirement_types tracker) ->
      In (id, ad) (rt_attributes rt) ->
      ad_type ad = "Enum" ->
      lookup (data_type_definitions tracker) id = Some dt ->
      exists rtds rtd ads add dtds dtd,
        dget F "requirement_types" = Some (VList rtds) /\ In (VDict rtd) rtds
        /\ dget rtd "identifier" = Some (VStr rtid)
        /\ dget rtd "attribute_definitions" = Some (VList ads) /\ In (VDict add) ads
        /\ dget add "identifier" = Some (VStr (id ++ " " ++ rtid))
        /\ dget add "data_type" = Some (VPromise ("EnumerationDataTypeDefinition " ++ id))
        /\ dget F "data_type_definitions" = Some (VList dtds) /\ In (VDict dtd) dtds
        /\ dget dtd "identifier" = Some (VStr id)
        /\ dget dtd "promise_id" = Some (VStr ("EnumerationDataTypeDefinition " ++ id)).
Proof.
  intros Hnf Hmeta H.
  assert (Hno : forall o, In o model -> kind_name (o_kind o) <> "EnumerationDataTypeDefinition").
  { intros o Ho He. destruct (Hmeta o Ho He) as [p [Hp [_ Hk]]]. exact (Hnf p Hp Hk). }
  unfold requirement_types_folder_create_action in H. unfold bind at 1 in H.
  destruct (yield_requirement_type_create_actions model tracker g s) as [[e|rts] s1] eqn:Hy;
    [discriminate|].
  unfold ret in H. injection H as <- _.
  eexists. split; [apply dget_dset|].
  intros rtid rt id ad dt Hrt Hin Ht Hl.
  unfold yield_requirement_type_create_actions in Hy.
  destruct (mapM_inr_in _ _ _ _ _ Hy (rtid, rt) Hrt) as [y [t1 [t2 [Hyin Hf]]]].
  simpl in Hf.
  destruct (requirement_type_enum_promise model tracker g rtid rt id ad dt t1 y t2 Hno Hin Ht Hl Hf)
    as [ads [-> [add [Hadd [Hi Hd]]]]].
  exists rts, [("identifier", VStr rtid); ("long_name", VStr (rt_long_name rt));
               ("promise_id", VStr ("RequirementType " ++ rtid));
               ("attribute_definitions", VList ads)], ads, add,
         (yield_data_type_definition_create_actions tracker),
         (as_dict (data_type_create_action id dt)).
  repeat split; try assumption.
  apply (in_map (fun kv => data_type_create_action (fst kv) (snd kv)) _ (id, dt)).
  apply lookup_in. exact Hl.
Qed.

(** [enum_data_type_promise_round_trip] on a model with only the module
    and the snapshot declaring T1 with the Enum attribute Priority. *)
Lemma enum_data_type_promise_round_trip_witness :
  (forall o, In o model_empty -> kind_name (o_kind o) <> "CapellaTypesFolder")
  /\ requirement_types_folder_create_action model_empty snapshot_invalid_enum true
       [("parent", VRef "m")] init_st
     = (inr (match fst (requirement_types_folder_create_action model_empty snapshot_invalid_enum
                          true [("parent", VRef "m")] init_st) with
             | inr b => b | inl _ => [] end),
        snd (requirement_types_folder_create_action model_empty snapshot_invalid_enum true
               [("parent", VRef "m")] init_st))
  /\ exists F,
       dget (match fst (requirement_types_folder_create_action model_empty snapshot_invalid_enum
                          true [("parent", VRef "m")] init_st) with
             | inr b => b | inl _ => [] end) "extend"
       = Some (VDict [("requirement_types_folders", VList [VDict F])])
       /\ exists rtds rtd ads add dtds dtd,
         dget F "requirement_types" = Some (VList rtds) /\ In (VDict rtd) rtds
         /\ dget rtd "identifier" = Some (VStr "T1")
         /\ dget rtd "attribute_definitions" = Some (VList ads) /\ In (VDict add) ads
         /\ dget add "identifier" = Some (VStr "Priority T1")
         /\ dget add "data_type" = Some (VPromise "EnumerationDataTypeDefinition Priority")
         /\ dget F "data_type_definitions" = Some (VList dtds) /\ In (VDict dtd) dtds
         /\ dget dtd "identifier" = Some (VStr "Priority")
         /\ dget dtd "promise_id" = Some (VStr "EnumerationDataTypeDefinition Priority").
Proof.
  assert (Hnf : forall o, In o model_empty -> kind_name (o_kind o) <> "CapellaTypesFolder")
    by (simpl; intros o [<-|[]]; vm_compute; discriminate).
  assert (Hmeta : forall o, In o model_empty ->
            kind_name (o_kind o) = "EnumerationDataTypeDefinition" ->
            exists p, In p model_empty /\ o_uuid p = o_parent o
                      /\ kind_name (o_kind p) = "CapellaTypesFolder")
    by (simpl; intros o [<-|[]]; vm_compute; discriminate).
  assert (Hrun : requirement_types_folder_create_action model_empty snapshot_invalid_enum true
       [("parent", VRef "m")] init_st
     = (inr (match fst (requirement_types_folder_create_action model_empty snapshot_invalid_enum
                          true [("parent", VRef "m")] init_st) with
             | inr b => b | inl _ => [] end),
        snd (requirement_types_folder_create_action model_empty snapshot_invalid_enum true
               [("parent", VRef "m")] init_st)))
    by (vm_compute; reflexivity).
  split; [exact Hnf|]. split; [exact Hrun|].
  destruct (enum_data_type_promise_round_trip model_empty snapshot_invalid_enum true
              [("parent", VRef "m")] init_st _ _ Hnf Hmeta Hrun) as [F [HF Hall]].
  exists F. split; [exact HF|].
  exact (Hall "T1" (mkReqType "Type1" [("Priority", mkAttrDef "Priority" "Enum" (Some false))])
              "Priority" (mkAttrDef "Priority" "Enum" (Some false))
              (mkDataType "Priority" [mkDataTypeValue "Low" "Low"; mkDataTypeValue "High" "High"])
              (or_introl eq_refl) (or_introl eq_refl) eq_refl eq_refl).
Defined.

Lemma bind_inr_inv {A B} (c : M A) (f : A -> M B) s x s' :
  bind c f s = (inr x, s') -> exists a s1, c s = (inr a, s1) /\ f a s1 = (inr x, s').
Proof.
  unfold bind. destruct (c s) as [[e|a] s1]; [discriminate|]. intros H. exists a, s1. split; auto.
Qed.

Lemma modify_attribute_loop_type_changed model tracker g req rtid iid attrs : forall s,
  modify_attribute_loop model tracker g req rtid iid true attrs s
  = match attribute_loop tracker g rtid iid
            (fun id v => _try_create_attribute_value model tracker g id v rtid iid) attrs s with
    | (inr l, s') => (inr (l, []), s')
    | (inl e, s') => (inl e, s')
    end.
Proof.
  induction attrs as [|[id v] rest IH]; intros s; [reflexivity|].
  cbn [modify_attribute_loop attribute_loop]. unfold bind, ret.
  destruct (_check_attribute tracker g id v rtid iid s) as [[e|[c|]] s1]; [reflexivity| |].
  - destruct (String.eqb c "break"); [reflexivity|]. apply IH.
  - destruct (_try_create_attribute_value model tracker g id v rtid iid s1) as [[e|l] s2];
      [reflexivity|].
    rewrite IH.
    destruct (attribute_loop _ _ _ _ _ rest s2) as [[e|l'] s3]; reflexivity.
Qed.



Lemma dget_dset_other d k k' v : k <> k' -> dget (dset d k v) k' = dget d k'.
Proof.
  intros Hne. induction d as [|[k0 v0] d IH]; simpl.
  - unfold dget. simpl. apply String.eqb_neq in Hne. rewrite Hne. reflexivity.
  - destruct (String.eqb k0 k) eqn:E.
    + apply String.eqb_eq in E. subst k0. unfold dget. simpl.
      apply String.eqb_neq in Hne. rewrite Hne. reflexivity.
    + unfold dget in *. simpl. destruct (String.eqb k0 k'); [reflexivity|exact IH].
Qed.

Lemma deep_update_cons src k v rest :
  deep_update_val src (VDict ((k, v) :: rest))
  = deep_update_val (dset src k (match v with
                                 | VDict (_ :: _) => VDict (deep_update_val (dget_dict src k) v)
                                 | _ => v end)) (VDict rest).
Proof. reflexivity. Qed.

Lemma deep_update_other ovs : forall src k0,
  ~ In k0 (map fst ovs) -> dget (deep_update_val src (VDict ovs)) k0 = dget src k0.
Proof.
  induction ovs as [|[k v] rest IH]; intros src k0 Hn; [reflexivity|].
  rewrite deep_update_cons. simpl in Hn.
  rewrite IH by tauto. apply dget_dset_other. intros ->. apply Hn. left. reflexivity.
Qed.


Lemma group_attributes_deep_update d g ovs g' :
  ovs <> [] -> ~ In "attributes" (map fst ovs) ->
  group_attributes (_deep_update d [(g, VDict ovs)]) g' = group_attributes d g'.
Proof.
  intros Hne Hn. destruct ovs as [|o os]; [contradiction|].
  unfold group_attributes, _deep_update. rewrite deep_update_cons.
  change (deep_update_val ?x (VDict [])) with x.
  destruct (String.eqb g g') eqn:E.
  - apply String.eqb_eq in E. subst g'. unfold dget_dict at 1. rewrite dget_dset.
    change (as_dict (VDict ?x)) with x. rewrite (deep_update_other (o :: os)) by exact Hn. reflexivity.
  - apply String.eqb_neq in E. unfold dget_dict at 1 3. rewrite dget_dset_other by exact E.
    reflexivity.
Qed.

Lemma dset_not_nil d k v : dset d k v <> [].
Proof. destruct d as [|[k' v'] d]; simpl; [discriminate|]. destruct (String.eqb k' k); discriminate. Qed.


Lemma type_change_action_update dl cr b g ov :
  type_change_action dl cr b -> g <> "modify" ->
  (forall k, In k (map fst ov) -> k = "requirements" \/ k = "folders") ->
  type_change_action dl cr (match ov with [] => b | _ => _deep_update b [(g, VDict ov)] end).
Proof.
  intros [H1 [H2 H3]] Hg Hk. destruct ov as [|o os]; [split; auto|].
  assert (Hn : ~ In "attributes" (map fst (o :: os))).
  { intros Hin. destruct (Hk _ Hin) as [E|E]; discriminate E. }
  split; [|split].
  - rewrite group_attributes_deep_update; [exact H1|discriminate|exact Hn].
  - rewrite group_attributes_deep_update; [exact H2|discriminate|exact Hn].
  - unfold truthy_key, _deep_update. rewrite deep_update_other; [exact H3|].
    simpl. intros [E|[]]. apply Hg. exact E.
Qed.

Lemma type_change_action_deep dl cr b g ov :
  type_change_action dl cr b -> g <> "modify" -> ov <> [] ->
  (forall k, In k (map fst ov) -> k = "requirements" \/ k = "folders") ->
  type_change_action dl cr (_deep_update b [(g, VDict ov)]).
Proof.
  intros Hb Hg Hne Hk. destruct ov as [|o os]; [contradiction|].
  exact (type_change_action_update dl cr b g (o :: os) Hb Hg Hk).
Qed.

Lemma type_change_action_base u mods cr dl :
  mods <> [] ->
  type_change_action dl cr
    (let base := [("parent", VRef u)] in
     let base := match mods with [] => base | _ => dset base "modify" (VDict mods) end in
     let base := match cr with
                 | [] => base
                 | _ => dset base "extend" (VDict [("attributes", VList cr)])
                 end in
     match dl with
     | [] => base
     | _ => dset base "delete" (VDict [("attributes", VList dl)])
     end).
Proof.
  intros Hm. destruct mods as [|m ms]; [contradiction|].
  destruct dl, cr; split; try split; reflexivity.
Qed.

Lemma alloc_deref d s loc s' : alloc d s = (inr loc, s') ->
  loc = length (heap s) /\ heap s' = app (heap s) [d].
Proof. unfold alloc. intros H. injection H as <- <-. split; reflexivity. Qed.

Lemma mapM_alloc_heap xs : forall s ls s',
  mapM (fun a => alloc (as_dict a)) xs s = (inr ls, s') -> exists ext, heap s' = app (heap s) ext.
Proof.
  induction xs as [|x xs IH]; intros s ls s' H.
  - simpl in H. unfold ret in H. injection H as _ <-. exists []. rewrite app_nil_r. reflexivity.
  - simpl in H. apply bind_inr_inv in H as [l [s1 [Ha H]]].
    apply bind_inr_inv in H as [ls' [s2 [Hm H]]]. unfold ret in H. injection H as _ <-.
    apply alloc_deref in Ha as [_ Hh]. destruct (IH _ _ _ Hm) as [ext He].
    exists (app [as_dict x] ext). rewrite He, Hh, app_assoc. reflexivity.
Qed.

(** C4: for a matched work item whose type identifier differs from the
    identifier of the object's current type, the modify branch, when it
    completes, yields first its action for the object, in which the
    attribute deletions are UUID references to all the object's
    attribute values, in their order, and the attribute creations are
    exactly those the create branch computes for the item from the same
    state: the create-descriptors of its valid, non-blacklisted
    attributes. *)
Theorem type_change_replaces_attributes model tracker g rh req iid ln txt ty attrs children
    parent s locs s' tu t :
  o_type req = Some tu -> by_uuid model tu = Some t ->
  o_identifier t <> match ty with Some x => x | None => "" end ->
  yield_requirements_mod_actions model tracker g rh req
    (mkWorkItem iid ln txt ty attrs children) parent s = (inr locs, s') ->
  exists loc rest s2,
    locs = loc :: rest
    /\ group_attributes (deref s' loc) "delete"
       = map (fun a => VRef (o_uuid a)) (attributes_of model (o_uuid req))
    /\ create_attributes model tracker g (mkWorkItem iid ln txt ty attrs children) s
       = (inr (group_attributes (deref s' loc) "extend"), s2).
Proof.
  intros Hty Hbu Hne Hrun.
  cbn [yield_requirements_mod_actions] in Hrun.
  set (rtid := match ty with Some x => x | None => "" end) in *.
  apply bind_inr_inv in Hrun as [cur [s1 [Hcur Hrun]]].
  unfold type_identifier in Hcur. rewrite Hty, Hbu in Hcur. unfold ret in Hcur.
  injection Hcur as <- <-.
  assert (Hneq : String.eqb rtid (o_identifier t) = false)
    by (apply String.eqb_neq; intros E; apply Hne; symmetry; exact E).
  rewrite Hneq in Hrun.
  apply bind_inr_inv in Hrun as [[mods dels] [s2 [Hr Hrun]]].
  destruct (negb (String.eqb rtid "") && _) in Hr; [unfold raise in Hr; discriminate Hr|].
  unfold bind, gets in Hr.
  pose proof (find_by_state model rtid ["RequirementType"] "identifier" (reqt_folder s) s) as Hs.
  unfold find_by_identifier in Hr.
  destruct (find_by model rtid ["RequirementType"] "identifier" (reqt_folder s) s) as [[e|rt] s3];
    simpl in Hs; subst s3; [discriminate Hr|].
  unfold ret in Hr. injection Hr as Hmods Hdels <-.
  assert (Htc : truthy_key mods "type" = true).
  { rewrite <- Hmods. unfold truthy_key. rewrite dget_dset. destruct rt; reflexivity. }
  assert (Hmn : mods <> []) by (rewrite <- Hmods; apply dset_not_nil).
  clear Hmods. rewrite Htc in Hrun.
  apply bind_inr_inv in Hrun as [[crs mods2] [s3 [Hcm Hrun]]].
  rewrite modify_attribute_loop_type_changed in Hcm.
  destruct (attribute_loop _ _ _ _ _ attrs s) as [[e|cr] s4] eqn:Hal; [discriminate Hcm|].
  injection Hcm as <- <- <-.
  subst dels.
  apply bind_inr_inv in Hrun as [dl [s5 [Hd Hrun]]].
  assert (Hdl : dl = map (fun a => VRef (o_uuid a)) (attributes_of model (o_uuid req))).
  { destruct (attributes_of model (o_uuid req)) as [|a0 l0]; simpl in Hd;
      unfold ret in Hd; injection Hd as <- _; reflexivity. }
  apply bind_inr_inv in Hrun as [differs [s6 [_ Hrun]]].
  apply bind_inr_inv in Hrun as [u [s7 [_ Hrun]]].
  apply bind_inr_inv in Hrun as [[loc cmods] [s8 [Hbr Hrun]]].
  apply bind_inr_inv in Hrun as [d [s9 [Hgd Hrun]]].
  unfold gets in Hgd. injection Hgd as <- <-.
  apply bind_inr_inv in Hrun as [al [s10 [Hm Hrun]]].
  unfold ret in Hrun. injection Hrun as <- <-.
  assert (Hb : exists b, deref s8 loc = b /\ loc < length (heap s8)
                         /\ type_change_action dl cr b).
  { destruct (kind_eqb (o_kind req) KFolder).
    - apply bind_inr_inv in Hbr as [cl [t1 [_ Hbr]]].
      apply bind_inr_inv in Hbr as [lc [t2 [_ Hbr]]].
      apply bind_inr_inv in Hbr as [l0 [t3 [Ha Hbr]]].
      apply bind_inr_inv in Hbr as [u' [t4 [Hmd Hbr]]].
      unfold ret in Hbr. injection Hbr as <- _ <-.
      unfold modify in Hmd. injection Hmd as _ <-.
      apply alloc_deref in Ha as [-> Hh].
      eexists. split; [|split].
      + unfold deref. cbn [heap set_req_deletions]. rewrite Hh. apply nth_middle.
      + cbn [heap set_req_deletions]. rewrite Hh, length_app. simpl. lia.
      + destruct (make_requirement_delete_actions model req (app (child_req_ids cl) lc)
                    "requirements"),
          (make_requirement_delete_actions model req (app (child_folder_ids cl) lc) "folders"),
          (cf_creations cl), (cr_creations cl);
          cbv beta iota;
          repeat (apply type_change_action_deep;
                  [| discriminate | discriminate
                   | intros k Hk; simpl in Hk;
                     repeat (destruct Hk as [Hk|Hk]; [subst k; auto|]); contradiction]);
          exact (type_change_action_base (o_uuid req) mods cr dl Hmn).
    - apply bind_inr_inv in Hbr as [l0 [t1 [Ha Hbr]]].
      unfold ret in Hbr. injection Hbr as <- _ <-.
      apply alloc_deref in Ha as [-> Hh].
      eexists. split; [|split].
      + unfold deref. rewrite Hh. apply nth_middle.
      + rewrite Hh, length_app. simpl. lia.
      + exact (type_change_action_base (o_uuid req) mods cr dl Hmn). }
  destruct Hb as [b [Hdb [Hlt [H1 [H2 H3]]]]].
  destruct (mapM_alloc_heap _ _ _ _ Hm) as [ext Hext].
  assert (Hd' : deref s10 loc = b).
  { unfold deref. rewrite Hext, app_nth1 by exact Hlt. exact Hdb. }
  exists loc, (app al cmods), s4. rewrite Hd', Hdb, H1, H2, H3, orb_true_r. split; [reflexivity|].
  split; [exact Hdl|]. exact Hal.
Qed.

(** [type_change_replaces_attributes] on REQ-2 of [model_applied] (type
    T1, attribute value "av") retyped to T2 with the Note "hello". *)
Lemma type_change_replaces_attributes_witness :
  o_type obj_r2 = Some "t1"
  /\ by_uuid model_applied "t1"
     = Some (mkObj "t1" KRequirementType "T1" "Type1" "" "tf" None None VNone [] None false)
  /\ "T1" <> "T2"
  /\ yield_requirements_mod_actions model_applied snapshot_retype_attrs true identity_html obj_r2
       (mkWorkItem "REQ-2" (Some "R2") None (Some "T2") [("Note", VStr "hello")] None)
       PDefault st_module_m
     = (inr [0], snd (yield_requirements_mod_actions model_applied snapshot_retype_attrs true
                        identity_html obj_r2
                        (mkWorkItem "REQ-2" (Some "R2") None (Some "T2")
                           [("Note", VStr "hello")] None) PDefault st_module_m))
  /\ group_attributes
       (deref (snd (yield_requirements_mod_actions model_applied snapshot_retype_attrs true
                      identity_html obj_r2
                      (mkWorkItem "REQ-2" (Some "R2") None (Some "T2")
                         [("Note", VStr "hello")] None) PDefault st_module_m)) 0) "delete"
     = [VRef "av"].
Proof.
  assert (H1 : o_type obj_r2 = Some "t1") by reflexivity.
  assert (H2 : by_uuid model_applied "t1"
     = Some (mkObj "t1" KRequirementType "T1" "Type1" "" "tf" None None VNone [] None false))
    by (vm_compute; reflexivity).
  assert (H3 : "T1" <> "T2") by (vm_compute; discriminate).
  assert (Hrun : yield_requirements_mod_actions model_applied snapshot_retype_attrs true
       identity_html obj_r2
       (mkWorkItem "REQ-2" (Some "R2") None (Some "T2") [("Note", VStr "hello")] None)
       PDefault st_module_m
     = (inr [0], snd (yield_requirements_mod_actions model_applied snapshot_retype_attrs true
                        identity_html obj_r2
                        (mkWorkItem "REQ-2" (Some "R2") None (Some "T2")
                           [("Note", VStr "hello")] None) PDefault st_module_m)))
    by (vm_compute; reflexivity).
  split; [exact H1|]. split; [exact H2|]. split; [exact H3|]. split; [exact Hrun|].
  destruct (type_change_replaces_attributes model_applied snapshot_retype_attrs true identity_html
              obj_r2 "REQ-2" (Some "R2") None (Some "T2") [("Note", VStr "hello")] None
              PDefault st_module_m _ _ "t1" _ H1 H2 H3 Hrun) as [loc [rest [s2 [Hl [Hd _]]]]].
  injection Hl as <- _. rewrite Hd. vm_compute. reflexivity.
Defined.

(* ------------------------------------------------------------------ *)
(** ** Every action of the change has an operation *)

Create HintDb frame.

Lemma same_core_refl s : same_core s s.
Proof. repeat split. Qed.

Lemma same_core_trans s1 s2 s3 : same_core s1 s2 -> same_core s2 s3 -> same_core s1 s3.
Proof.
  intros [H1 [H2 [H3 H4]]] [G1 [G2 [G3 G4]]]. repeat split; congruence.
Qed.

Lemma frame_ret {A} (a : A) : Frame (ret a).
Proof. intros s. apply same_core_refl. Qed.

Lemma frame_raise {A} e : Frame (@raise A e).
Proof. intros s. apply same_core_refl. Qed.

Lemma frame_gets {A} (f : st -> A) : Frame (gets f).
Proof. intros s. apply same_core_refl. Qed.

Lemma frame_lift {A} (r : exn + A) : Frame (lift r).
Proof. destruct r; intros s; apply same_core_refl. Qed.

Lemma frame_bind {A B} (c : M A) (f : A -> M B) :
  Frame c -> (forall a, Frame (f a)) -> Frame (bind c f).
Proof.
  intros Hc Hf s. unfold bind. specialize (Hc s).
  destruct (c s) as [[e|a] s1]; [exact Hc|].
  exact (same_core_trans _ _ _ Hc (Hf a s1)).
Qed.

Lemma frame_try_catch {A} (c : M A) h :
  Frame c -> (forall e, Frame (h e)) -> Frame (try_catch c h).
Proof.
  intros Hc Hh s. unfold try_catch. specialize (Hc s).
  destruct (c s) as [[e|a] s1]; [|exact Hc].
  exact (same_core_trans _ _ _ Hc (Hh e s1)).
Qed.

Lemma frame_mapM {A B} (f : A -> M B) xs :
  (forall x, Frame (f x)) -> Frame (mapM f xs).
Proof.
  intros Hf. induction xs as [|x xs IH]; simpl.
  - apply frame_ret.
  - apply frame_bind; [apply Hf|]. intros y. apply frame_bind; [exact IH|]. intros; apply frame_ret.
Qed.

Lemma frame_modify f : (forall s, same_core s (f s)) -> Frame (modify f).
Proof. intros H s. exact (H s). Qed.

Ltac same_core_tac := intros; unfold same_core; repeat split.

Ltac frame_step :=
  match goal with
  | |- Frame (bind _ _) => apply frame_bind; intros
  | |- Frame (try_catch _ _) => apply frame_try_catch; intros
  | |- Frame (mapM _ _) => apply frame_mapM; intros
  | |- Frame (ret _) => apply frame_ret
  | |- Frame (raise _) => apply frame_raise
  | |- Frame (gets _) => apply frame_gets
  | |- Frame (lift _) => apply frame_lift
  | |- Frame (modify _) => apply frame_modify; same_core_tac
  | |- Frame (match ?x with _ => _ end) => destruct x
  | |- Frame (let _ := _ in _) => cbv zeta
  | |- Frame (if ?x then _ else _) => destruct x
  | |- Frame _ => solve [eauto with frame]
  end.

Ltac frame_tac := repeat frame_step.

Lemma frame_find_by m v xs a b : Frame (find_by m v xs a b).
Proof. unfold find_by. frame_tac. Qed.
#[local] Hint Resolve frame_find_by : frame.

Lemma frame_find_by_identifier m v x b : Frame (find_by_identifier m v x b).
Proof. unfold find_by_identifier. apply frame_find_by. Qed.
#[local] Hint Resolve frame_find_by_identifier : frame.

Lemma frame_handle_user_error t g msg : Frame (_handle_user_error t g msg).
Proof. unfold _handle_user_error. frame_tac. Qed.
#[local] Hint Resolve frame_handle_user_error : frame.

Lemma frame_check_attribute_value_is_valid t id v r : Frame (check_attribute_value_is_valid t id v r).
Proof. unfold check_attribute_value_is_valid. frame_tac. Qed.
#[local] Hint Resolve frame_check_attribute_value_is_valid : frame.

Lemma frame_attribute_value_create_action m t id v r : Frame (attribute_value_create_action m t id v r).
Proof. unfold attribute_value_create_action. frame_tac. Qed.
#[local] Hint Resolve frame_attribute_value_create_action : frame.

Lemma frame_try_create m t g id v r i : Frame (_try_create_attribute_value m t g id v r i).
Proof. unfold _try_create_attribute_value. frame_tac. Qed.
#[local] Hint Resolve frame_try_create : frame.

(* dictionaries *)

Lemma dget_in d k v : dget d k = Some v -> In (k, v) d.
Proof.
  unfold dget. induction d as [|[k' v'] d IH]; simpl; [discriminate|].
  destruct (String.eqb k' k) eqn:E.
  - intros H. injection H as <-. apply String.eqb_eq in E. subst. left. reflexivity.
  - intros H. right. exact (IH H).
Qed.

Lemma in_dget d k v : NoDup (dkeys d) -> In (k, v) d -> dget d k = Some v.
Proof.
  unfold dget. induction d as [|[k' v'] d IH]; simpl; [contradiction|].
  intros Hnd Hin. inversion Hnd as [|? ? Hn Hnd']; subst.
  destruct Hin as [E|Hin].
  - injection E as -> ->. rewrite String.eqb_refl. reflexivity.
  - destruct (String.eqb k' k) eqn:E.
    + apply String.eqb_eq in E. subst. exfalso. apply Hn. apply (in_map fst) in Hin. exact Hin.
    + exact (IH Hnd' Hin).
Qed.

Lemma dget_none_nil d k v : dget d k = Some v -> d <> [].
Proof. intros H ->. discriminate. Qed.

Lemma in_dset d k v k' v' : In (k', v') (dset d k v) -> (k' = k /\ v' = v) \/ In (k', v') d.
Proof.
  induction d as [|[k0 v0] d IH]; simpl.
  - intros [E|[]]. injection E as -> ->. left; split; reflexivity.
  - destruct (String.eqb k0 k) eqn:E; simpl.
    + intros [E'|H]; [injection E' as -> ->; left; split; reflexivity|right; right; exact H].
    + intros [E'|H]; [right; left; exact E'|]. destruct (IH H) as [H'|H']; [left; exact H'|right; right; exact H'].
Qed.

Lemma dkeys_dset_in d k v k' : In k' (dkeys (dset d k v)) -> k' = k \/ In k' (dkeys d).
Proof.
  unfold dkeys. intros H. apply in_map_iff in H as [[k1 v1] [E H]]. simpl in E. subst k'.
  destruct (in_dset _ _ _ _ _ H) as [[-> _]|H']; [left; reflexivity|right].
  apply (in_map fst) in H'. exact H'.
Qed.

Lemma nodup_dset d k v : NoDup (dkeys d) -> NoDup (dkeys (dset d k v)).
Proof.
  induction d as [|[k0 v0] d IH]; simpl; intros Hnd.
  - constructor; [intros []|constructor].
  - inversion Hnd as [|? ? Hn Hnd']; subst. destruct (String.eqb k0 k) eqn:E; simpl.
    + apply String.eqb_eq in E. subst. constructor; assumption.
    + constructor; [|exact (IH Hnd')]. intros Hin. apply dkeys_dset_in in Hin as [E'|Hin].
      * subst. rewrite String.eqb_refl in E. discriminate.
      * exact (Hn Hin).
Qed.

Lemma in_ddel d k k' v' : In (k', v') (ddel d k) -> In (k', v') d /\ k' <> k.
Proof.
  unfold ddel. intros H. apply filter_In in H as [H E]. simpl in E.
  split; [exact H|]. intros ->. rewrite String.eqb_refl in E. discriminate.
Qed.

Lemma nodup_ddel d k : NoDup (dkeys d) -> NoDup (dkeys (ddel d k)).
Proof.
  induction d as [|[k0 v0] d IH]; simpl; intros Hnd; [constructor|].
  inversion Hnd as [|? ? Hn Hnd']; subst. unfold ddel. simpl.
  destruct (negb (String.eqb k0 k)); simpl; [|exact (IH Hnd')].
  constructor; [|exact (IH Hnd')]. intros Hin. apply Hn.
  unfold dkeys in Hin. apply in_map_iff in Hin as [[k1 v1] [E H]]. simpl in E. subst.
  apply in_ddel in H as [H _]. apply (in_map fst) in H. exact H.
Qed.

Lemma dget_ddel_other d k k' : k <> k' -> dget (ddel d k) k' = dget d k'.
Proof.
  intros Hne. unfold ddel, dget. induction d as [|[k0 v0] d IH]; simpl; [reflexivity|].
  destruct (String.eqb k0 k) eqn:E; simpl.
  - apply String.eqb_eq in E. subst k0. apply String.eqb_neq in Hne. rewrite Hne. exact IH.
  - destruct (String.eqb k0 k'); [reflexivity|exact IH].
Qed.

Lemma dget_some d k v : dget d k = Some v -> exists v', dget d k = Some v'.
Proof. intros H. exists v. exact H. Qed.

Lemma deep_update_not_nil ovs : forall src, ovs <> [] \/ src <> [] -> deep_update_val src (VDict ovs) <> [].
Proof.
  induction ovs as [|[k v] rest IH]; intros src H.
  - destruct H as [H|H]; [contradiction|exact H].
  - rewrite deep_update_cons. apply IH. right. apply dset_not_nil.
Qed.

Lemma shape_parent v : shape [("parent", v)].
Proof.
  split; [|split].
  - constructor; [intros []|constructor].
  - discriminate.
  - intros k v' [E|[]]. injection E as -> ->. left; reflexivity.
Qed.

Lemma dset_keeps_parent d k v : dget d "parent" <> None -> dget (dset d k v) "parent" <> None.
Proof.
  intros H. destruct (String.eqb k "parent") eqn:E.
  - apply String.eqb_eq in E. subst. rewrite dget_dset. discriminate.
  - apply String.eqb_neq in E. rewrite dget_dset_other by exact E. exact H.
Qed.

Lemma shape_dset d k v : shape d -> (k = "parent" \/ (is_op_key k /\ truthy v = true)) ->
  shape (dset d k v).
Proof.
  intros [Hnd [Hp Hk]] Hkv. split; [|split].
  - apply nodup_dset. exact Hnd.
  - apply dset_keeps_parent. exact Hp.
  - intros k' v' Hin. apply in_dset in Hin as [[-> ->]|Hin]; [exact Hkv|exact (Hk _ _ Hin)].
Qed.

Lemma shape_ddel d k : shape d -> k <> "parent" -> shape (ddel d k).
Proof.
  intros [Hnd [Hp Hk]] Hne. split; [|split].
  - apply nodup_ddel. exact Hnd.
  - rewrite dget_ddel_other by exact Hne. exact Hp.
  - intros k' v' Hin. apply in_ddel in Hin as [Hin _]. exact (Hk _ _ Hin).
Qed.

Lemma truthy_dict_cons x xs : truthy (VDict (x :: xs)) = true.
Proof. reflexivity. Qed.

Lemma truthy_dict d : d <> [] -> truthy (VDict d) = true.
Proof. destruct d; [contradiction|reflexivity]. Qed.

Lemma shape_deep_update ovs : forall d, shape d -> Forall ov_ok ovs ->
  shape (deep_update_val d (VDict ovs)).
Proof.
  induction ovs as [|[k v] rest IH]; intros d Hd Hall; [exact Hd|].
  inversion Hall as [|? ? Hkv Hrest]; subst.
  rewrite deep_update_cons. apply IH; [|exact Hrest].
  apply shape_dset; [exact Hd|]. unfold ov_ok in Hkv; simpl in Hkv.
  destruct Hkv as [Hk|[Hk Hv]]; [left; exact Hk|right; split; [exact Hk|]].
  destruct v as [| | | | | | | |l|[|o os]]; try exact Hv.
  apply truthy_dict. apply deep_update_not_nil. left. discriminate.
Qed.

Lemma shape_deep_update1 d k ovs : shape d -> is_op_key k -> ovs <> [] ->
  shape (_deep_update d [(k, VDict ovs)]).
Proof.
  intros Hd Hk Hne. apply shape_deep_update; [exact Hd|]. constructor; [|constructor].
  right. split; [exact Hk|]. apply truthy_dict. exact Hne.
Qed.

Lemma shape_has_operation d : shape d -> dkeys d <> ["parent"] -> has_operation d = true.
Proof.
  intros [Hnd [Hp Hk]] Hne.
  destruct (existsb (fun kv => negb (String.eqb (fst kv) "parent")) d) eqn:E.
  - apply existsb_exists in E as [[k v] [Hin E]]. simpl in E.
    destruct (Hk _ _ Hin) as [->|[Hop Hv]]; [rewrite String.eqb_refl in E; discriminate|].
    pose proof (in_dget _ _ _ Hnd Hin) as Hg.
    assert (Ht : truthy_key d k = true) by (unfold truthy_key; rewrite Hg; exact Hv).
    unfold has_operation.
    destruct Hop as [->|[->| ->]]; rewrite Ht; [reflexivity| |].
    + destruct (truthy_key d "extend"); reflexivity.
    + rewrite !orb_true_r. reflexivity.
  - exfalso. apply Hne.
    assert (Hall : forall kv, In kv d -> fst kv = "parent").
    { intros kv Hin. destruct (String.eqb (fst kv) "parent") eqn:E'.
      - apply String.eqb_eq. exact E'.
      - assert (existsb (fun kv => negb (String.eqb (fst kv) "parent")) d = true) as C.
        { apply existsb_exists. exists kv. rewrite E'. split; [exact Hin|reflexivity]. }
        rewrite C in E. discriminate. }
    destruct d as [|[k0 v0] [|[k1 v1] d]].
    + unfold dget in Hp. simpl in Hp. contradiction.
    + pose proof (Hall (k0, v0) (or_introl eq_refl)) as E0. simpl in E0. subst k0. reflexivity.
    + unfold dkeys in Hnd. simpl in Hnd. inversion Hnd as [|? ? Hn _]; subst.
      pose proof (Hall (k0, v0) (or_introl eq_refl)) as E0.
      pose proof (Hall (k1, v1) (or_intror (or_introl eq_refl))) as E1. simpl in E0, E1. subst.
      exfalso. apply Hn. left. reflexivity.
Qed.

(* the invariant *)

Lemma in_deletes_has_operation r d : in_deletes r d -> has_operation d = true.
Proof.
  intros [dels [k [w [Hd [Hk _]]]]].
  assert (Ht : truthy_key d "delete" = true).
  { unfold truthy_key. rewrite Hd. destruct dels as [| | | | | | | | |[|x xs]]; try discriminate; reflexivity. }
  unfold has_operation. rewrite Ht, !orb_true_r. reflexivity.
Qed.

Lemma same_core_Inv model s s' : same_core s s' -> Inv model s -> Inv model s'.
Proof.
  intros [Hh [Hr [Hl Ha]]]. unfold Inv, RdOK, moved, deref. rewrite Hh, Hr, Hl. tauto.
Qed.

Lemma same_core_good s s' l : same_core s s' -> good s l -> good s' l.
Proof.
  intros [Hh [Hr [Hl Ha]]]. unfold good, registered, deref. rewrite Hh, Hr. tauto.
Qed.

Lemma Mono_refl s : Mono s s.
Proof. split; [lia|tauto]. Qed.

Lemma Mono_trans s1 s2 s3 : Mono s1 s2 -> Mono s2 s3 -> Mono s1 s3.
Proof. intros [H1 G1] [H2 G2]. split; [lia|auto]. Qed.

Lemma GenOK_frame model s s' : Inv model s -> same_core s s' -> GenOK model s s' [].
Proof.
  intros HI Hs. split; [exact (same_core_Inv _ _ _ Hs HI)|].
  pose proof Hs as [Hh [Hr [Hl Ha]]].
  split; [|split; [exact Ha|split; [constructor|intros _ []]]].
  split; [rewrite Hh; lia|]. intros l. apply same_core_good. exact Hs.
Qed.

Lemma GenOK_trans model s1 s2 s3 l1 l2 :
  GenOK model s1 s2 l1 -> GenOK model s2 s3 l2 -> GenOK model s1 s3 (app l1 l2).
Proof.
  intros [I2 [M12 [A12 [N1 G1]]]] [I3 [M23 [A23 [N2 G2]]]].
  split; [exact I3|]. split; [exact (Mono_trans _ _ _ M12 M23)|].
  split; [congruence|]. split.
  - apply NoDup_app; [exact N1|exact N2|].
    intros x Hx Hy. destruct (G1 x Hx) as [_ [Hlt _]]. destruct (G2 x Hy) as [Hge _]. lia.
  - intros l Hin. apply in_app_or in Hin as [Hin|Hin].
    + destruct (G1 l Hin) as [Hge Hg]. split; [exact Hge|]. apply M23. exact Hg.
    + destruct (G2 l Hin) as [Hge Hg]. split; [|exact Hg]. destruct M12. lia.
Qed.

Lemma GenOK_frame_l model s0 s1 s2 l :
  same_core s0 s1 -> GenOK model s1 s2 l -> GenOK model s0 s2 l.
Proof.
  intros Hs [I [[Hlen Hg] [Ha [N G]]]]. destruct Hs as [Hh [Hr [Hl Ha']]].
  split; [exact I|]. split; [split|split; [congruence|split; [exact N|]]].
  - rewrite <- Hh. exact Hlen.
  - intros l' Hl'. apply Hg. apply (same_core_good s0); [repeat split; congruence|exact Hl'].
  - intros l' Hin. rewrite <- Hh. exact (G l' Hin).
Qed.

Lemma GenOK_frame_r model s0 s1 s2 l :
  GenOK model s0 s1 l -> same_core s1 s2 -> GenOK model s0 s2 l.
Proof.
  intros HG Hs. rewrite <- (app_nil_r l).
  apply (GenOK_trans _ _ s1); [exact HG|]. apply GenOK_frame; [apply HG|exact Hs].
Qed.

Lemma nth_app_old {A} (h ext : list A) l d : l < length h -> nth l (app h ext) d = nth l h d.
Proof. intros H. apply app_nth1. exact H. Qed.

Lemma Inv_grow model s s' :
  (exists ext, heap s' = app (heap s) ext) -> req_deletions s' = req_deletions s ->
  location_changed s' = location_changed s -> Inv model s -> Inv model s'.
Proof.
  intros [ext He] Hr Hl [Hnd HI]. unfold Inv. rewrite Hr. split; [exact Hnd|].
  intros u l Hin. destruct (HI u l Hin) as [Hlt [Hs Hd]].
  assert (E : deref s' l = deref s l) by (unfold deref; rewrite He; apply nth_app_old; exact Hlt).
  rewrite E. split; [rewrite He, length_app; lia|]. split; [exact Hs|].
  destruct Hd as [Hd|[o [Ho [Hu Hi]]]]; [left; exact Hd|right; exists o; rewrite Hl; tauto].
Qed.

Lemma good_grow s s' l :
  (exists ext, heap s' = app (heap s) ext) -> req_deletions s' = req_deletions s ->
  good s l -> good s' l.
Proof.
  intros [ext He] Hr [Hlt Hg].
  assert (E : deref s' l = deref s l) by (unfold deref; rewrite He; apply nth_app_old; exact Hlt).
  unfold good, registered. rewrite E, Hr, He, length_app. split; [lia|exact Hg].
Qed.

Lemma alloc_spec model d s l s' : Inv model s -> alloc d s = (inr l, s') ->
  l = length (heap s) /\ deref s' l = d /\ Inv model s' /\ Mono s s'
  /\ actions s' = actions s /\ req_deletions s' = req_deletions s
  /\ location_changed s' = location_changed s /\ length (heap s') = S (length (heap s)).
Proof.
  intros HI H. unfold alloc in H. injection H as <- <-.
  assert (Hg : exists ext, heap (set_heap (app (heap s) [d]) s) = app (heap s) ext) by (exists [d]; reflexivity).
  split; [reflexivity|]. split.
  { unfold deref. simpl. rewrite app_nth2 by lia. rewrite Nat.sub_diag. reflexivity. }
  split; [exact (Inv_grow _ _ _ Hg eq_refl eq_refl HI)|].
  split; [|split; [reflexivity|split; [reflexivity|split; [reflexivity|]]]].
  - split; [simpl; rewrite length_app; simpl; lia|]. intros l. apply good_grow; [exact Hg|reflexivity].
  - simpl. rewrite length_app. simpl. lia.
Qed.

Lemma alloc_GenOK model d s l s' : Inv model s -> alloc d s = (inr l, s') ->
  has_operation d = true -> dget d "parent" <> None -> GenOK model s s' [l].
Proof.
  intros HI H Hop Hp. destruct (alloc_spec _ _ _ _ _ HI H) as [-> [Hd [I [Mo [Ha [_ [_ Hlen]]]]]]].
  split; [exact I|]. split; [exact Mo|]. split; [exact Ha|]. split; [constructor; [intros []|constructor]|].
  intros l' [<-|[]]. split; [lia|]. split; [lia|]. rewrite Hd. split; [exact Hp|left; exact Hop].
Qed.

Lemma alloc_GenOK_nil model d s l s' : Inv model s -> alloc d s = (inr l, s') ->
  GenOK model s s' [].
Proof.
  intros HI H. destruct (alloc_spec _ _ _ _ _ HI H) as [-> [Hd [I [Mo [Ha _]]]]].
  split; [exact I|]. split; [exact Mo|]. split; [exact Ha|]. split; [constructor|intros _ []].
Qed.

Lemma mapM_alloc_GenOK model xs : forall s ls s', Inv model s ->
  (forall a, In a xs -> has_operation (as_dict a) = true /\ dget (as_dict a) "parent" <> None) ->
  mapM (fun a => alloc (as_dict a)) xs s = (inr ls, s') -> GenOK model s s' ls.
Proof.
  induction xs as [|x xs IH]; intros s ls s' HI Hx H.
  - cbn [mapM] in H. unfold ret in H. injection H as <- <-. apply GenOK_frame; [exact HI|apply same_core_refl].
  - cbn [mapM] in H. apply bind_inr_inv in H as [l [s1 [Ha H]]].
    apply bind_inr_inv in H as [ls' [s2 [Hm H]]]. unfold ret in H. injection H as <- <-.
    destruct (Hx x (or_introl eq_refl)) as [Hop Hp].
    pose proof (alloc_GenOK _ _ _ _ _ HI Ha Hop Hp) as G1.
    change (l :: ls') with (app [l] ls'). apply (GenOK_trans _ _ s1); [exact G1|].
    apply (IH _ _ _ (proj1 G1)); [|exact Hm]. intros a Ha'. apply Hx. right. exact Ha'.
Qed.

Lemma assoc_get_in d k v : assoc_get d k = Some v -> In (k, v) d.
Proof.
  unfold assoc_get. induction d as [|[k' v'] d IH]; simpl; [discriminate|].
  destruct (String.eqb k' k) eqn:E.
  - intros H. injection H as <-. apply String.eqb_eq in E. subst. left. reflexivity.
  - intros H. right. exact (IH H).
Qed.

Lemma py_eq_ref a b : py_eq (VRef a) (VRef b) = String.eqb a b.
Proof. reflexivity. Qed.

Lemma list_remove_keeps x l l' y : list_remove x l = Some l' -> In y l -> py_eq y x = false -> In y l'.
Proof.
  revert l'. induction l as [|z l IH]; intros l' H Hy Hne; simpl in H; [discriminate|].
  destruct Hy as [<-|Hy].
  - rewrite Hne in H. destruct (list_remove x l); [|discriminate]. injection H as <-. left. reflexivity.
  - destruct (py_eq z x).
    + injection H as <-. exact Hy.
    + destruct (list_remove x l) as [r|]; [|discriminate]. injection H as <-. right. exact (IH r eq_refl Hy Hne).
Qed.

Lemma store_length (loc : nat) (d : list (string * val)) (h : list (list (string * val))) : loc < length h ->
  length (app (firstn loc h) (app [d] (skipn (S loc) h))) = length h.
Proof.
  intros H. rewrite !length_app, length_firstn, length_skipn. simpl. lia.
Qed.

Lemma store_nth (loc : nat) (d : list (string * val)) (h : list (list (string * val))) (l : nat) : loc < length h ->
  nth l (app (firstn loc h) (app [d] (skipn (S loc) h))) [] = if Nat.eqb l loc then d else nth l h [].
Proof.
  intros H. destruct (Nat.lt_trichotomy l loc) as [Hl|[->|Hl]].
  - rewrite app_nth1 by (rewrite length_firstn; lia).
    rewrite nth_firstn. destruct (Nat.ltb_spec l loc); [|lia].
    destruct (Nat.eqb_spec l loc); [lia|reflexivity].
  - rewrite app_nth2 by (rewrite length_firstn; lia). rewrite length_firstn.
    rewrite Nat.min_l by lia. rewrite Nat.sub_diag, Nat.eqb_refl. reflexivity.
  - rewrite app_nth2 by (rewrite length_firstn; lia). rewrite length_firstn, Nat.min_l by lia.
    destruct (l - loc) as [|k] eqn:E; [lia|]. cbn [nth app]. rewrite nth_skipn.
    destruct (Nat.eqb_spec l loc); [lia|]. f_equal. lia.
Qed.

Lemma in_deletes_update u u' key d dels l l' :
  dget d "delete" = Some dels -> dget (as_dict dels) key = Some l ->
  list_remove (VRef u) (as_list l) = Some l' -> u' <> u ->
  in_deletes (VRef u') d ->
  in_deletes (VRef u')
    (let deletions := if truthy (VList l') then dset (as_dict dels) key (VList l')
                      else ddel (as_dict dels) key in
     if truthy (VDict deletions) then dset d "delete" (VDict deletions) else ddel d "delete").
Proof.
  intros Hd Hk Hr Hne [dels0 [k [w [Hd0 [Hk0 Hin]]]]].
  rewrite Hd in Hd0. injection Hd0 as <-.
  assert (Hdel : forall deletions k1 w1, dget deletions k1 = Some w1 -> In (VRef u') (as_list w1) ->
            in_deletes (VRef u') (if truthy (VDict deletions) then dset d "delete" (VDict deletions)
                                  else ddel d "delete")).
  { intros deletions k1 w1 Hg Hw. destruct deletions as [|x xs]; [discriminate|].
    change (truthy (VDict (x :: xs))) with true. cbv iota.
    exists (VDict (x :: xs)), k1, w1. split; [apply dget_dset|]. split; assumption. }
  cbv zeta. destruct (String.eqb k key) eqn:E.
  - apply String.eqb_eq in E. subst k. rewrite Hk in Hk0. injection Hk0 as <-.
    assert (Hin' : In (VRef u') l').
    { apply (list_remove_keeps _ _ _ _ Hr Hin). rewrite py_eq_ref. apply String.eqb_neq. exact Hne. }
    destruct l' as [|y ys]; [contradiction|]. change (truthy (VList (y :: ys))) with true. cbv iota.
    apply (Hdel _ _ _ (dget_dset _ _ _)). exact Hin'.
  - apply String.eqb_neq in E. apply (Hdel _ k w); [|exact Hin].
    destruct (truthy (VList l')).
    + rewrite dget_dset_other by (intros E'; apply E; symmetry; exact E'). exact Hk0.
    + rewrite dget_ddel_other by (intros E'; apply E; symmetry; exact E'). exact Hk0.
Qed.

Lemma InvStep_refl model s : Inv model s -> InvStep model s s.
Proof. intros HI. split; [exact HI|]. split; [apply Mono_refl|reflexivity]. Qed.

Lemma invalidate_spec model req s s' :
  Inv model s -> In req model -> In (o_identifier req) (location_changed s) ->
  invalidate_deletion req s = (inr tt, s') -> InvStep model s s'.
Proof.
  intros HI Hreq Hlc H. unfold invalidate_deletion in H. cbv zeta in H. unfold bind, gets in H.
  destruct (assoc_get (req_deletions s) (o_uuid req)) as [loc|] eqn:Ea;
    [|unfold ret in H; injection H as <-; exact (InvStep_refl _ _ HI)].
  destruct (dget (deref s loc) "delete") as [dels|] eqn:Ed;
    [|unfold ret in H; injection H as <-; exact (InvStep_refl _ _ HI)].
  set (key := if kind_eqb (o_kind req) KFolder then "folders" else "requirements") in H.
  destruct (dget (as_dict dels) key) as [l|] eqn:Ek;
    [|unfold ret in H; injection H as <-; exact (InvStep_refl _ _ HI)].
  destruct (list_remove (VRef (o_uuid req)) (as_list l)) as [l'|] eqn:Er; [|discriminate].
  unfold store, modify in H. apply pair_equal_spec in H as [_ H]. subst s'.
  apply assoc_get_in in Ea.
  destruct HI as [Hnd HI]. destruct (HI _ _ Ea) as [Hlt [Hsh _]].
  set (d' := if truthy (VDict (if truthy (VList l') then dset (as_dict dels) key (VList l')
                               else ddel (as_dict dels) key))
             then dset (deref s loc) "delete"
                    (VDict (if truthy (VList l') then dset (as_dict dels) key (VList l')
                            else ddel (as_dict dels) key))
             else ddel (deref s loc) "delete").
  assert (Hsh' : shape d').
  { subst d'. destruct (truthy (VDict _)) eqn:Et.
    - apply shape_dset; [exact Hsh|]. right. split; [right; right; reflexivity|exact Et].
    - apply shape_ddel; [exact Hsh|discriminate]. }
  assert (Hder : forall l0, deref (set_heap (app (firstn loc (heap s))
                   (app [d'] (skipn (S loc) (heap s)))) s) l0
                 = if Nat.eqb l0 loc then d' else deref s l0).
  { intros l0. unfold deref. simpl. apply store_nth. exact Hlt. }
  assert (Hlen : length (heap (set_heap (app (firstn loc (heap s))
                   (app [d'] (skipn (S loc) (heap s)))) s)) = length (heap s)).
  { simpl. apply store_length. exact Hlt. }
  split; [|split; [|reflexivity]].
  - split; [exact Hnd|]. intros u l0 Hin. rewrite Hlen, Hder.
    destruct (HI _ _ Hin) as [Hlt0 [Hsh0 Hd0]]. split; [exact Hlt0|].
    destruct (Nat.eqb_spec l0 loc) as [->|Hne]; [split; [exact Hsh'|]|split; [exact Hsh0|]].
    + destruct (String.eqb_spec u (o_uuid req)) as [->|Hu].
      * right. exists req. split; [exact Hreq|]. split; [reflexivity|exact Hlc].
      * destruct Hd0 as [Hd0|Hd0]; [left|right; exact Hd0].
        exact (in_deletes_update _ _ _ _ _ _ _ Ed Ek Er Hu Hd0).
    + exact Hd0.
  - split; [rewrite Hlen; lia|].
    intros l0 [Hlt0 [Hp Hg]]. unfold good, registered. rewrite Hlen, Hder.
    split; [exact Hlt0|]. simpl req_deletions.
    destruct (Nat.eqb_spec l0 loc) as [->|Hne]; [|split; assumption].
    split; [apply Hsh'|]. right. apply (in_map snd) in Ea. exact Ea.
Qed.

Lemma set_add_incl x l y : In y l -> In y (set_add x l).
Proof.
  unfold set_add. destruct (existsb (String.eqb x) l); [tauto|]. intros H. apply in_or_app. left. exact H.
Qed.

Lemma set_add_in x l : In x (set_add x l).
Proof.
  unfold set_add. destruct (existsb (String.eqb x) l) eqn:E.
  - apply existsb_exists in E as [y [Hy E]]. apply String.eqb_eq in E. subst. exact Hy.
  - apply in_or_app. right. left. reflexivity.
Qed.

Lemma lc_add_spec model x s :
  Inv model s -> InvStep model s (set_location_changed (set_add x (location_changed s)) s).
Proof.
  intros [Hnd HI]. split; [|split; [|reflexivity]].
  - split; [exact Hnd|]. intros u l Hin. destruct (HI u l Hin) as [Hlt [Hs Hd]].
    split; [exact Hlt|]. split; [exact Hs|].
    destruct Hd as [Hd|[o [Ho [Hu Hi]]]]; [left; exact Hd|right].
    exists o. split; [exact Ho|]. split; [exact Hu|]. apply set_add_incl. exact Hi.
  - split; [simpl; lia|]. intros l Hg. exact Hg.
Qed.

Lemma move_spec model req s s' :
  Inv model s -> In req model ->
  (modify (fun s => set_location_changed (set_add (o_identifier req) (location_changed s)) s) ;;;
   invalidate_deletion req) s = (inr tt, s') -> InvStep model s s'.
Proof.
  intros HI Hreq H. apply bind_inr_inv in H as [[] [s1 [H1 H2]]].
  unfold modify in H1. injection H1 as <-.
  destruct (lc_add_spec model (o_identifier req) s HI) as [I1 [M1 A1]].
  destruct (invalidate_spec model req _ _ I1 Hreq (set_add_in _ _) H2) as [I2 [M2 A2]].
  split; [exact I2|]. split; [exact (Mono_trans _ _ _ M1 M2)|]. congruence.
Qed.

Lemma in_assoc_set d u v k x : In (k, x) (assoc_set d u v) -> (k = u /\ x = v) \/ In (k, x) d.
Proof.
  induction d as [|[k0 v0] d IH]; simpl.
  - intros [E|[]]. injection E as -> ->. left. split; reflexivity.
  - destruct (String.eqb k0 u); simpl.
    + intros [E|H]; [injection E as -> ->; left; split; reflexivity|right; right; exact H].
    + intros [E|H]; [right; left; exact E|]. destruct (IH H) as [H'|H']; [left; exact H'|right; right; exact H'].
Qed.

Lemma assoc_set_in_other d u v k x : In (k, x) d -> k <> u -> In (k, x) (assoc_set d u v).
Proof.
  induction d as [|[k0 v0] d IH]; simpl; [tauto|].
  intros [E|H] Hne.
  - injection E as -> ->. apply String.eqb_neq in Hne. rewrite Hne. left. reflexivity.
  - destruct (String.eqb k0 u); right; [exact H|exact (IH H Hne)].
Qed.

Lemma assoc_set_keys_in d u v k : In k (map fst (assoc_set d u v)) -> k = u \/ In k (map fst d).
Proof.
  intros H. apply in_map_iff in H as [[k1 x] [E H]]. simpl in E. subst.
  destruct (in_assoc_set _ _ _ _ _ H) as [[-> _]|H']; [left; reflexivity|right].
  apply (in_map fst) in H'. exact H'.
Qed.

Lemma assoc_set_nodup d u v : NoDup (map fst d) -> NoDup (map fst (assoc_set d u v)).
Proof.
  induction d as [|[k0 v0] d IH]; simpl; intros Hnd.
  - constructor; [intros []|constructor].
  - inversion Hnd as [|? ? Hn Hnd']; subst. destruct (String.eqb k0 u) eqn:E; simpl.
    + apply String.eqb_eq in E. subst. constructor; assumption.
    + constructor; [|exact (IH Hnd')]. intros Hin. apply assoc_set_keys_in in Hin as [E'|Hin].
      * subst. rewrite String.eqb_refl in E. discriminate.
      * exact (Hn Hin).
Qed.

Lemma assoc_set_RdOK model s rd u loc :
  RdOK model s rd -> loc < length (heap s) -> shape (deref s loc) ->
  in_deletes (VRef u) (deref s loc) ->
  RdOK model s (assoc_set rd u loc).
Proof.
  intros [Hnd HI] Hlt Hs Hd. split; [exact (assoc_set_nodup _ _ _ Hnd)|].
  intros k l Hin. apply in_assoc_set in Hin as [[-> ->]|Hin].
  - split; [exact Hlt|]. split; [exact Hs|left; exact Hd].
  - exact (HI _ _ Hin).
Qed.

Lemma assoc_set_keeps model s rd u loc l :
  RdOK model s rd -> ~ moved model s u -> In l (map snd rd) ->
  has_operation (deref s l) = true \/ In l (map snd (assoc_set rd u loc)).
Proof.
  intros [Hnd HI] Hm Hin. apply in_map_iff in Hin as [[k x] [E Hin]]. simpl in E. subst x.
  destruct (String.eqb_spec k u) as [->|Hne].
  - destruct (HI _ _ Hin) as [_ [_ [Hd|Hd]]]; [|contradiction].
    left. exact (in_deletes_has_operation _ _ Hd).
  - right. apply (in_map snd _ (k, l)). exact (assoc_set_in_other _ _ _ _ _ Hin Hne).
Qed.

Lemma register_fold model s loc dels : forall rd,
  RdOK model s rd -> loc < length (heap s) -> shape (deref s loc) ->
  Forall (register_ok model s loc) dels ->
  let rd' := fold_left (fun acc r => match r with
                                     | VRef u => assoc_set acc u loc
                                     | _ => acc
                                     end) dels rd in
  RdOK model s rd'
  /\ forall l, In l (map snd rd) -> has_operation (deref s l) = true \/ In l (map snd rd').
Proof.
  induction dels as [|r dels IH]; intros rd HR Hlt Hs Hall; cbv zeta; simpl.
  - split; [exact HR|]. intros l Hl. right. exact Hl.
  - inversion Hall as [|? ? Hr Hrest]; subst.
    destruct r as [| | | | | |u| | |]; try exact (IH rd HR Hlt Hs Hrest).
    destruct Hr as [Hd Hm].
    pose proof (assoc_set_RdOK _ _ _ _ _ HR Hlt Hs Hd) as HR'.
    destruct (IH _ HR' Hlt Hs Hrest) as [H1 H2]. split; [exact H1|].
    intros l Hl. destruct (assoc_set_keeps _ _ _ u loc _ HR Hm Hl) as [Ho|Hi]; [left; exact Ho|].
    exact (H2 l Hi).
Qed.

Lemma register_spec model s loc dels :
  Inv model s -> loc < length (heap s) -> shape (deref s loc) ->
  Forall (register_ok model s loc) dels ->
  InvStep model s (set_req_deletions
     (fold_left (fun acc r => match r with
                              | VRef u => assoc_set acc u loc
                              | _ => acc
                              end) dels (req_deletions s)) s).
Proof.
  intros HI Hlt Hs Hall. destruct (register_fold model s loc dels _ HI Hlt Hs Hall) as [HR Hk].
  split; [|split; [split|reflexivity]].
  - exact HR.
  - simpl. lia.
  - intros l [Hl [Hp Hg]]. unfold good, registered, deref in *. simpl. split; [exact Hl|].
    split; [exact Hp|]. destruct Hg as [Hg|Hg]; [left; exact Hg|]. exact (Hk l Hg).
Qed.

Lemma frame_run {A} (c : M A) s r s' : Frame c -> c s = (r, s') -> same_core s s'.
Proof. intros Hc H. specialize (Hc s). rewrite H in Hc. exact Hc. Qed.

Lemma frame_type_identifier m r : Frame (type_identifier m r).
Proof. unfold type_identifier. frame_tac. Qed.
#[local] Hint Resolve frame_type_identifier : frame.

Lemma frame_definition_identifier m a : Frame (definition_identifier m a).
Proof. unfold definition_identifier. frame_tac. Qed.
#[local] Hint Resolve frame_definition_identifier : frame.

Lemma frame_check_attribute t g id v r i : Frame (_check_attribute t g id v r i).
Proof. unfold _check_attribute. frame_tac. Qed.
#[local] Hint Resolve frame_check_attribute : frame.

Lemma frame_attribute_loop t g r i step attrs :
  (forall id v, Frame (step id v)) -> Frame (attribute_loop t g r i step attrs).
Proof.
  intros Hs. induction attrs as [|[id v] rest IH]; cbn [attribute_loop]; frame_tac.
Qed.

Lemma frame_create_attributes m t g item : Frame (create_attributes m t g item).
Proof. unfold create_attributes. apply frame_attribute_loop. intros. apply frame_try_create. Qed.
#[local] Hint Resolve frame_create_attributes : frame.

Lemma frame_attribute_value_mod_action m t req id v r : Frame (attribute_value_mod_action m t req id v r).
Proof. unfold attribute_value_mod_action. frame_tac. Qed.
#[local] Hint Resolve frame_attribute_value_mod_action : frame.

Lemma frame_modify_attribute_step m t g req r i id v : Frame (modify_attribute_step m t g req r i id v).
Proof. unfold modify_attribute_step. frame_tac. Qed.
#[local] Hint Resolve frame_modify_attribute_step : frame.

Lemma frame_modify_attribute_loop m t g req r i tc attrs : Frame (modify_attribute_loop m t g req r i tc attrs).
Proof. induction attrs as [|[id v] rest IH]; cbn [modify_attribute_loop]; frame_tac. Qed.
#[local] Hint Resolve frame_modify_attribute_loop : frame.

Lemma frame_attribute_deletions_by_definition m ids attrs : Frame (attribute_deletions_by_definition m ids attrs).
Proof. induction attrs as [|a rest IH]; cbn [attribute_deletions_by_definition]; frame_tac. Qed.
#[local] Hint Resolve frame_attribute_deletions_by_definition : frame.

Lemma frame_parent_differs req p : Frame (parent_differs req p).
Proof. unfold parent_differs. frame_tac. Qed.
#[local] Hint Resolve frame_parent_differs : frame.

(* results *)

Lemma post_bind {A B} (c : M A) (f : A -> M B) P : (forall a, Post (f a) P) -> Post (bind c f) P.
Proof.
  intros Hf s b s' H. apply bind_inr_inv in H as [a [s1 [_ H]]]. exact (Hf a _ _ _ H).
Qed.

Lemma post_ret {A} (a : A) (P : A -> Prop) : P a -> Post (ret a) P.
Proof. intros HP s b s' H. unfold ret in H. injection H as <- _. exact HP. Qed.

Lemma post_raise {A} e (P : A -> Prop) : Post (raise e) P.
Proof. intros s b s' H. discriminate. Qed.

Lemma post_try_catch {A} (c : M A) h P : Post c P -> (forall e, Post (h e) P) -> Post (try_catch c h) P.
Proof.
  intros Hc Hh s b s' H. unfold try_catch in H. destruct (c s) as [[e|a] s1] eqn:E.
  - exact (Hh e _ _ _ H).
  - injection H as <- _. exact (Hc _ _ _ E).
Qed.

Lemma post_weaken {A} (c : M A) (P Q : A -> Prop) : Post c P -> (forall a, P a -> Q a) -> Post c Q.
Proof. intros Hc HPQ s a s' H. exact (HPQ a (Hc _ _ _ H)). Qed.

Ltac post_step :=
  match goal with
  | |- Post (bind _ _) _ => apply post_bind; intros
  | |- Post (try_catch _ _) _ => apply post_try_catch; intros
  | |- Post (raise _) _ => apply post_raise
  | |- Post (match ?x with _ => _ end) _ => destruct x
  | |- Post (let _ := _ in _) _ => cbv zeta
  | |- Post (if ?x then _ else _) _ => destruct x
  | |- Post (let '(_, _) := ?x in _) _ => destruct x
  end.

Lemma post_attribute_value_mod_action m t req id v r :
  Post (attribute_value_mod_action m t req id v r)
       (fun o => forall a, o = Some a -> mod_ok a).
Proof.
  unfold attribute_value_mod_action. repeat post_step.
  all: apply post_ret; intros ?o ?Ho; first [discriminate | injection Ho as <-; split; [reflexivity|discriminate]].
Qed.

Lemma post_bind_strong {A B} (c : M A) (f : A -> M B) Q P :
  Post c Q -> (forall a, Q a -> Post (f a) P) -> Post (bind c f) P.
Proof.
  intros Hc Hf s b s' H. apply bind_inr_inv in H as [a [s1 [H1 H]]]. exact (Hf a (Hc _ _ _ H1) _ _ _ H).
Qed.

Lemma post_modify_attribute_step m t g req r i id v :
  Post (modify_attribute_step m t g req r i id v) (fun p => Forall mod_ok (snd p)).
Proof.
  unfold modify_attribute_step. apply post_try_catch.
  - apply (post_bind_strong _ _ _ _ (post_attribute_value_mod_action m t req id v r)).
    intros [a|] Ha; apply post_ret; simpl; [|constructor].
    constructor; [exact (Ha a eq_refl)|constructor].
  - intros e. repeat post_step; try (apply post_ret; simpl; constructor).
Qed.

Lemma post_modify_attribute_loop m t g req r i tc attrs :
  Post (modify_attribute_loop m t g req r i tc attrs) (fun p => Forall mod_ok (snd p)).
Proof.
  induction attrs as [|[id v] rest IH]; cbn [modify_attribute_loop].
  - apply post_ret. constructor.
  - apply post_bind. intros [c|].
    + destruct (String.eqb c "break"); [apply post_ret; constructor|exact IH].
    + apply (post_bind_strong _ _ (fun p => Forall mod_ok (snd p))).
      * destruct tc; [|apply post_modify_attribute_step].
        apply post_bind. intros. apply post_ret. constructor.
      * intros p Hp. apply (post_bind_strong _ _ _ _ IH). intros q Hq. apply post_ret.
        simpl. apply Forall_app. split; assumption.
Qed.

Lemma frame_run' {A} (c : M A) s r s' : c s = (r, s') -> Frame c -> same_core s s'.
Proof. intros H Hc. exact (frame_run c s r s' Hc H). Qed.

Lemma find_by_some m v xs a b s o s' : find_by m v xs a b s = (inr (Some o), s') -> In o m /\ s' = s.
Proof.
  unfold find_by. destruct (filter _ _) as [|x [|y l]] eqn:E; unfold ret, raise; intros H;
    try discriminate.
  injection H as Ho Hs. split; [|symmetry; exact Hs]. subst o.
  assert (Hx : In x (filter (fun o => attr_of a o =? v) (search m xs b))) by (rewrite E; left; reflexivity).
  apply filter_In in Hx as [Hx _]. unfold search in Hx. apply filter_In in Hx as [Hx _]. exact Hx.
Qed.

Lemma deep_update_get ovs : forall src k l, NoDup (map fst ovs) -> In (k, VList l) ovs ->
  dget (deep_update_val src (VDict ovs)) k = Some (VList l).
Proof.
  induction ovs as [|[k0 v0] rest IH]; intros src k l Hnd Hin; [contradiction|].
  inversion Hnd as [|? ? Hn Hnd']; subst. rewrite deep_update_cons.
  destruct Hin as [E|Hin].
  - injection E as -> ->. rewrite deep_update_other by exact Hn. apply dget_dset.
  - exact (IH _ _ _ Hnd' Hin).
Qed.

Lemma dget_deep_update1 base k ovs : ovs <> [] ->
  dget (_deep_update base [(k, VDict ovs)]) k
  = Some (VDict (deep_update_val (dget_dict base k) (VDict ovs))).
Proof.
  intros Hne. destruct ovs as [|o os]; [contradiction|]. unfold _deep_update.
  rewrite deep_update_cons. change (deep_update_val ?x (VDict [])) with x. apply dget_dset.
Qed.

Lemma in_deletes_children b0 base fd rd r : In r (app rd fd) ->
  in_deletes r
    (match (match rd with
            | [] => match fd with [] => [] | l => [("folders", VList l)] end
            | l => app (match fd with [] => [] | l => [("folders", VList l)] end)
                       [("requirements", VList l)]
            end) with
     | [] => b0
     | _ => _deep_update base [("delete", VDict
              (match rd with
               | [] => match fd with [] => [] | l => [("folders", VList l)] end
               | l => app (match fd with [] => [] | l => [("folders", VList l)] end)
                          [("requirements", VList l)]
               end))]
     end).
Proof.
  intros Hin.
  assert (Hgen : forall cd, cd <> [] -> NoDup (map fst cd) ->
            (exists k l, In (k, VList l) cd /\ In r l) ->
            in_deletes r (match cd with [] => b0 | _ => _deep_update base [("delete", VDict cd)] end)).
  { intros cd Hne Hnd [k [l [Hk Hr]]]. destruct cd as [|c cs]; [contradiction|].
    exists (VDict (deep_update_val (dget_dict base "delete") (VDict (c :: cs)))), k, (VList l).
    split; [apply dget_deep_update1; discriminate|]. split; [|exact Hr].
    change (as_dict (VDict ?x)) with x. apply deep_update_get; assumption. }
  apply in_app_or in Hin as [Hin|Hin].
  - destruct rd as [|x xs]; [contradiction|].
    apply (Hgen (app (match fd with [] => [] | l => [("folders", VList l)] end)
                     [("requirements", VList (x :: xs))])).
    + destruct fd; discriminate.
    + destruct fd; simpl; repeat constructor; simpl; intuition discriminate.
    + exists "requirements", (x :: xs). split; [|exact Hin]. apply in_or_app. right. left. reflexivity.
  - destruct fd as [|y ys]; [contradiction|].
    apply (Hgen (match rd with
                 | [] => [("folders", VList (y :: ys))]
                 | l => app [("folders", VList (y :: ys))] [("requirements", VList l)]
                 end)).
    + destruct rd; discriminate.
    + destruct rd; simpl; repeat constructor; simpl; intuition discriminate.
    + exists "folders", (y :: ys). split; [|exact Hin].
      destruct rd; [left; reflexivity|]. apply in_or_app. left. left. reflexivity.
Qed.

Lemma uuid_inj model a b : NoDup (map o_uuid model) -> In a model -> In b model ->
  o_uuid a = o_uuid b -> a = b.
Proof.
  induction model as [|x m IH]; intros Hnd Ha Hb E; [contradiction|].
  inversion Hnd as [|? ? Hn Hnd']; subst.
  destruct Ha as [<-|Ha]; destruct Hb as [<-|Hb]; try reflexivity.
  - exfalso. apply Hn. rewrite E. apply in_map. exact Hb.
  - exfalso. apply Hn. rewrite <- E. apply in_map. exact Ha.
  - exact (IH Hnd' Ha Hb E).
Qed.

Lemma mem_in x l : In x l -> mem x l = true.
Proof. intros H. unfold mem. apply existsb_exists. exists x. split; [exact H|apply String.eqb_refl]. Qed.

Lemma dels_not_moved model s req ids key r : NoDup (map o_uuid model) ->
  In r (make_requirement_delete_actions model req (app ids (location_changed s)) key) ->
  exists u, r = VRef u /\ ~ moved model s u.
Proof.
  intros Hnd Hin. unfold make_requirement_delete_actions in Hin.
  apply in_map_iff in Hin as [c [<- Hc]]. apply filter_In in Hc as [Hc Hf].
  exists (o_uuid c). split; [reflexivity|]. intros [o [Ho [Hu Hl]]].
  assert (Hcm : In c model).
  { unfold children_by_key, folders_of, requirements_of, children_where in Hc.
    destruct (String.eqb key "folders"); apply filter_In in Hc; apply Hc. }
  rewrite (uuid_inj _ _ _ Hnd Ho Hcm Hu) in Hl.
  rewrite (mem_in (o_identifier c) (app ids (location_changed s))) in Hf; [discriminate|].
  apply in_or_app. right. exact Hl.
Qed.

Lemma shape_parent_op v k w : is_op_key k -> truthy w = true -> shape [("parent", v); (k, w)].
Proof.
  intros Hk Hw. assert (Hne : k <> "parent") by (destruct Hk as [->|[->| ->]]; discriminate).
  assert (E : dset [("parent", v)] k w = [("parent", v); (k, w)]).
  { cbn [dset]. destruct (String.eqb "parent" k) eqn:E0; [apply String.eqb_eq in E0; congruence|reflexivity]. }
  rewrite <- E. apply shape_dset; [apply shape_parent|right; split; assumption].
Qed.

Ltac shape_tac :=
  repeat match goal with
  | |- shape [("parent", _)] => apply shape_parent
  | |- shape [("parent", _); (_, _)] =>
      apply shape_parent_op; [unfold is_op_key; tauto|reflexivity]
  | |- shape (dset _ "parent" _) => apply shape_dset; [|left; reflexivity]
  | |- shape (dset _ _ _) =>
      apply shape_dset; [|right; split; [unfold is_op_key; tauto|first [reflexivity|apply truthy_dict, dset_not_nil]]]
  | |- shape (_deep_update _ [(_, VDict _)]) =>
      apply shape_deep_update1; [|unfold is_op_key; tauto|discriminate]
  | |- shape (match ?x with _ => _ end) => destruct x
  | |- shape (if ?x then _ else _) => destruct x
  end.

Section Generators.
Variable model : model_t.
Variable tracker : Tracker.
Variable g : bool.
Variable rh : string -> string.
Hypothesis Huniq : NoDup (map o_uuid model).

Lemma GenOK_InvStep s s' : InvStep model s s' -> GenOK model s s' [].
Proof.
  intros [I [Mo A]]. split; [exact I|]. split; [exact Mo|]. split; [exact A|].
  split; [constructor|intros _ []].
Qed.

Lemma GenOK_perm s s' l l' : GenOK model s s' l -> Permutation l l' -> GenOK model s s' l'.
Proof.
  intros [I [Mo [A [N G]]]] P. split; [exact I|]. split; [exact Mo|]. split; [exact A|].
  split; [exact (Permutation_NoDup P N)|]. intros x Hx. apply G.
  apply (Permutation_in x (Permutation_sym P) Hx).
Qed.

Lemma find_by_identifier_frame v x b s r s' :
  find_by_identifier model v x b s = (r, s') -> same_core s s'.
Proof. intros H. exact (frame_run' _ _ _ _ H (frame_find_by_identifier _ _ _ _)). Qed.

Lemma find_by_identifier_some v x b s o s' :
  find_by_identifier model v x b s = (inr (Some o), s') -> In o model /\ s' = s.
Proof. apply find_by_some. Qed.

Lemma mod_children_loop_spec (req : obj)
  (upd : WorkItem -> child_loop -> list val * list nat -> child_loop)
  (Hupd : forall child acc ca, child_mods (upd child acc ca) = app (child_mods acc) (snd ca)) :
  forall cs, Forall (fun c => CreateSpec model tracker g rh c /\ ModSpec model tracker g rh c) cs ->
  forall acc s cl s', Inv model s ->
  (fix loop (cs : list WorkItem) (acc : child_loop) : M child_loop :=
     match cs with
     | [] => ret acc
     | child :: cs' =>
         creq <- find_by_identifier model (wi_id child)
                   (if is_folder_item child then "Folder" else "Requirement") None ;;
         ca <- (match creq with
                | None => p <- yield_requirements_create_actions model tracker g rh child ;;
                          ret ([fst p], snd p)
                | Some c => ms <- yield_requirements_mod_actions model tracker g rh c child
                                    (PObj (o_uuid req)) ;;
                            if String.eqb (o_parent c) (o_uuid req) then ret ([], ms)
                            else ret ([VRef (o_uuid c)], ms)
                end) ;;
         loop cs' (upd child acc ca)
     end) cs acc s = (inr cl, s') ->
  exists new, child_mods cl = app (child_mods acc) new /\ GenOK model s s' new.
Proof.
  induction cs as [|child cs IH]; intros Hall acc s cl s' HI H.
  - unfold ret in H. injection H as <- <-. exists []. rewrite app_nil_r.
    split; [reflexivity|]. apply GenOK_frame; [exact HI|apply same_core_refl].
  - inversion Hall as [|? ? [Hc Hm] Hrest]; subst.
    apply bind_inr_inv in H as [creq [s1 [H1 H]]].
    pose proof (find_by_identifier_frame _ _ _ _ _ _ H1) as F1.
    apply bind_inr_inv in H as [ca [s2 [H2 H]]].
    assert (G2 : GenOK model s1 s2 (snd ca)).
    { destruct creq as [c|].
      - apply find_by_identifier_some in H1 as [Hin _].
        apply bind_inr_inv in H2 as [ms [s3 [H3 H2]]].
        destruct (String.eqb (o_parent c) (o_uuid req)); unfold ret in H2; injection H2 as <- <-;
          exact (Hm _ _ _ _ _ Hin (same_core_Inv _ _ _ F1 HI) H3).
      - apply bind_inr_inv in H2 as [p [s3 [H3 H2]]]. unfold ret in H2. injection H2 as <- <-.
        destruct p as [v ls]. exact (Hc _ _ _ _ (same_core_Inv _ _ _ F1 HI) H3). }
    destruct (IH Hrest _ _ _ _ (proj1 G2) H) as [new [Hcl G3]].
    exists (app (snd ca) new). split; [rewrite Hcl, Hupd, app_assoc; reflexivity|].
    apply (GenOK_frame_l _ _ s1); [exact F1|]. exact (GenOK_trans _ _ _ _ _ _ G2 G3).
Qed.

Lemma create_children_loop_spec (identifier : string) :
  forall cs, Forall (fun c => CreateSpec model tracker g rh c /\ ModSpec model tracker g rh c) cs ->
  forall s r s', Inv model s ->
  (fix loop (cs : list WorkItem) : M (list val * list val * list nat) :=
     match cs with
     | [] => ret ([], [], [])
     | child :: cs' =>
         creq <- find_by_identifier model (wi_id child)
                   (if is_folder_item child then "Folder" else "Requirement") None ;;
         ca <- (match creq with
                | None => yield_requirements_create_actions model tracker g rh child
                | Some c =>
                    ms <- yield_requirements_mod_actions model tracker g rh c child
                            (PPromise identifier) ;;
                    ret (VRef (o_uuid c), ms)
                end) ;;
         rest <- loop cs' ;;
         let '(rs, fs, ms) := rest in
         if is_folder_item child then ret (rs, fst ca :: fs, app (snd ca) ms)
         else ret (fst ca :: rs, fs, app (snd ca) ms)
     end) cs s = (inr r, s') ->
  GenOK model s s' (snd r).
Proof.
  induction cs as [|child cs IH]; intros Hall s r s' HI H.
  - unfold ret in H. injection H as <- <-. apply GenOK_frame; [exact HI|apply same_core_refl].
  - inversion Hall as [|? ? [Hc Hm] Hrest]; subst.
    apply bind_inr_inv in H as [creq [s1 [H1 H]]].
    pose proof (find_by_identifier_frame _ _ _ _ _ _ H1) as F1.
    apply bind_inr_inv in H as [ca [s2 [H2 H]]].
    assert (G2 : GenOK model s1 s2 (snd ca)).
    { destruct creq as [c|].
      - apply find_by_identifier_some in H1 as [Hin _].
        apply bind_inr_inv in H2 as [ms [s3 [H3 H2]]]. unfold ret in H2. injection H2 as <- <-.
        exact (Hm _ _ _ _ _ Hin (same_core_Inv _ _ _ F1 HI) H3).
      - destruct ca as [v ls]. exact (Hc _ _ _ _ (same_core_Inv _ _ _ F1 HI) H2). }
    apply bind_inr_inv in H as [[[rs fs] ms] [s3 [H3 H]]].
    pose proof (IH Hrest _ _ _ (proj1 G2) H3) as G3.
    assert (E : snd r = app (snd ca) ms /\ s' = s3).
    { destruct (is_folder_item child); unfold ret in H; injection H as <- <-; split; reflexivity. }
    destruct E as [-> ->].
    apply (GenOK_frame_l _ _ s1); [exact F1|]. exact (GenOK_trans _ _ _ _ _ _ G2 G3).
Qed.

Lemma mod_spec_step iid ln txt ty attrs children :
  ForallOpt (fun c => CreateSpec model tracker g rh c /\ ModSpec model tracker g rh c) children ->
  ModSpec model tracker g rh (mkWorkItem iid ln txt ty attrs children).
Proof.
  intros Hch req parent s locs s' Hreq HI H.
  cbn [yield_requirements_mod_actions] in H.
  fold (yield_requirements_create_actions model tracker g rh) in H.
  apply bind_inr_inv in H as [cur [s1 [H1 H]]].
  assert (F1 : same_core _ _) by (apply (frame_run' _ _ _ _ H1); frame_tac).
  apply bind_inr_inv in H as [[mods adels] [s2 [H2 H]]].
  assert (F2 : same_core _ _) by (apply (frame_run' _ _ _ _ H2); frame_tac).
  apply bind_inr_inv in H as [[acr amods] [s3 [H3 H]]].
  assert (F3 : same_core _ _) by (apply (frame_run' _ _ _ _ H3); frame_tac).
  pose proof (post_modify_attribute_loop _ _ _ _ _ _ _ _ _ _ _ H3) as Pm. simpl snd in Pm.
  apply bind_inr_inv in H as [adels' [s4 [H4 H]]].
  assert (F4 : same_core _ _) by (apply (frame_run' _ _ _ _ H4); frame_tac).
  apply bind_inr_inv in H as [differs [s5 [H5 H]]].
  assert (F5 : same_core _ _) by (apply (frame_run' _ _ _ _ H5); frame_tac).
  assert (I5 : Inv model s5).
  { apply (same_core_Inv _ s4); [exact F5|]. apply (same_core_Inv _ s3); [exact F4|].
    apply (same_core_Inv _ s2); [exact F3|]. apply (same_core_Inv _ s1); [exact F2|].
    apply (same_core_Inv _ s); [exact F1|exact HI]. }
  assert (F05 : same_core s s5).
  { apply (same_core_trans _ s4); [|exact F5]. apply (same_core_trans _ s3); [|exact F4].
    apply (same_core_trans _ s2); [|exact F3]. apply (same_core_trans _ s1); [exact F1|exact F2]. }
  apply bind_inr_inv in H as [[] [s6 [H6 H]]].
  assert (G6 : InvStep model s5 s6).
  { destruct differs; [exact (move_spec _ _ _ _ I5 Hreq H6)|].
    unfold ret in H6. injection H6 as <-. exact (InvStep_refl _ _ I5). }
  apply bind_inr_inv in H as [[loc cmods] [s7 [H7 H]]].
  assert (I6 : Inv model s6) by apply G6.
  assert (C7 : loc < length (heap s7) /\ shape (deref s7 loc)
               /\ GenOK model s6 s7 (app cmods (if has_operation (deref s7 loc) then [loc] else []))).
  { destruct (kind_eqb (o_kind req) KFolder).
    - apply bind_inr_inv in H7 as [cl [s6a [Hcl H7]]].
      assert (Gcl : GenOK model s6 s6a (child_mods cl)).
      { destruct children as [cs|].
        - simpl in Hch.
          eapply (mod_children_loop_spec req _ _ cs Hch _ _ _ _ I6) in Hcl as [new [Hnew Gn]].
          rewrite Hnew. exact Gn.
        - unfold ret in Hcl. injection Hcl as <- <-. apply GenOK_frame; [exact I6|apply same_core_refl]. }
      apply bind_inr_inv in H7 as [lc [s6b [Hlc H7]]]. unfold gets in Hlc. injection Hlc as <- <-.
      apply bind_inr_inv in H7 as [loc' [s6c [Ha H7]]].
      apply bind_inr_inv in H7 as [[] [s6d [Hm H7]]]. unfold modify in Hm. injection Hm as <-.
      unfold ret in H7. injection H7 as <- <- <-.
      match type of Ha with alloc ?b _ = _ => set (base := b) in Ha end.
      assert (Hsh : shape base) by (subst base; shape_tac).
      destruct (alloc_spec _ _ _ _ _ (proj1 Gcl) Ha) as [Hloc [Hd [Ic [Mc [Ac [Rc [Lc Hlen]]]]]]].
      assert (Hd7 : forall X, deref (set_req_deletions X s6c) loc' = base) by (intros X; exact Hd).
      rewrite Hd7. split; [simpl; lia|]. split; [exact Hsh|].
      rewrite <- (app_nil_r (app (child_mods cl) _)).
      apply (GenOK_trans _ _ s6c).
      + apply (GenOK_trans _ _ s6a); [exact Gcl|].
        destruct (has_operation base) eqn:Eh.
        * apply (alloc_GenOK _ _ _ _ _ (proj1 Gcl) Ha Eh). apply Hsh.
        * exact (alloc_GenOK_nil _ _ _ _ _ (proj1 Gcl) Ha).
      + apply GenOK_InvStep. apply register_spec; [exact Ic|lia|rewrite Hd; exact Hsh|].
        apply Forall_forall. intros r Hr.
        assert (Hr' := Hr). rewrite <- Lc in Hr'.
        destruct (in_app_or _ _ _ Hr') as [Hx|Hx];
          destruct (dels_not_moved _ _ _ _ _ _ Huniq Hx) as [u [-> Hu]];
          (split; [|exact Hu]); rewrite Hd; subst base; exact (in_deletes_children _ _ _ _ _ Hr).
    - apply bind_inr_inv in H7 as [loc' [s6c [Ha H7]]].
      unfold ret in H7. injection H7 as <- <- <-.
      match type of Ha with alloc ?b _ = _ => set (base := b) in Ha end.
      assert (Hsh : shape base) by (subst base; shape_tac).
      destruct (alloc_spec _ _ _ _ _ I6 Ha) as [Hloc [Hd [Ic [Mc [Ac [Rc [Lc Hlen]]]]]]].
      rewrite Hd. split; [lia|]. split; [exact Hsh|]. simpl app.
      destruct (has_operation base) eqn:Eh.
      + apply (alloc_GenOK _ _ _ _ _ I6 Ha Eh). apply Hsh.
      + exact (alloc_GenOK_nil _ _ _ _ _ I6 Ha). }
  destruct C7 as [Hlt7 [Hsh7 G7]].
  apply bind_inr_inv in H as [d [s7' [Hg H]]]. unfold gets in Hg. injection Hg as <- <-.
  apply bind_inr_inv in H as [attr_locs [s8 [Hm H]]].
  unfold ret in H. injection H as <- <-.
  pose proof (mapM_alloc_GenOK _ _ _ _ _ (proj1 G7)
                (fun a Ha => proj1 (Forall_forall _ _) Pm a Ha) Hm) as G8.
  change (truthy_key (deref s7 loc) "extend" || truthy_key (deref s7 loc) "modify"
          || truthy_key (deref s7 loc) "delete") with (has_operation (deref s7 loc)).
  assert (G0 : GenOK model s s6 []).
  { rewrite <- (app_nil_r []). apply (GenOK_trans _ _ s5).
    - apply GenOK_frame; [exact HI|exact F05].
    - apply GenOK_InvStep. exact G6. }
  pose proof (GenOK_trans _ _ _ _ _ _ (GenOK_trans _ _ _ _ _ _ G0 G7) G8) as G.
  apply (GenOK_perm _ _ _ _ G). simpl app. rewrite <- app_assoc.
  rewrite (app_assoc (if has_operation (deref s7 loc) then [loc] else [])).
  apply Permutation_app_comm.
  Unshelve. intros child acc ca. simpl. destruct (is_folder_item child); reflexivity.
Qed.

Lemma create_spec_step iid ln txt ty attrs children :
  ForallOpt (fun c => CreateSpec model tracker g rh c /\ ModSpec model tracker g rh c) children ->
  CreateSpec model tracker g rh (mkWorkItem iid ln txt ty attrs children).
Proof.
  intros Hch s v locs s' HI H.
  cbn [yield_requirements_create_actions] in H.
  fold (yield_requirements_mod_actions model tracker g rh) in H.
  apply bind_inr_inv in H as [attributes [s1 [H1 H]]].
  assert (F1 : same_core _ _) by (apply (frame_run' _ _ _ _ H1); frame_tac).
  destruct ln as [long_name|]; [|discriminate H].
  apply bind_inr_inv in H as [base [s2 [H2 H]]].
  assert (F2 : same_core _ _) by (apply (frame_run' _ _ _ _ H2); frame_tac).
  assert (F02 := same_core_trans _ _ _ F1 F2).
  destruct children as [cs|].
  - apply bind_inr_inv in H as [[[rs fs] ms] [s3 [H3 H]]].
    pose proof (create_children_loop_spec iid cs Hch _ _ _ (same_core_Inv _ _ _ F02 HI) H3) as G3.
    unfold ret in H. injection H as _ <- <-.
    exact (GenOK_frame_l _ _ _ _ _ F02 G3).
  - unfold ret in H. injection H as _ <- <-.
    apply GenOK_frame; [exact HI|exact F02].
Qed.

Lemma gen_spec : forall item, CreateSpec model tracker g rh item /\ ModSpec model tracker g rh item.
Proof.
  apply WorkItem_rect'. intros iid ln txt ty attrs cs Hcs. split.
  - exact (create_spec_step iid ln txt ty attrs cs Hcs).
  - exact (mod_spec_step iid ln txt ty attrs cs Hcs).
Qed.

End Generators.

Lemma AOK_same_core model s s' : same_core s s' -> AOK model s -> AOK model s'.
Proof.
  intros Hs [I [N G]]. pose proof Hs as [_ [_ [_ Ha]]].
  split; [exact (same_core_Inv _ _ _ Hs I)|]. rewrite Ha. split; [exact N|].
  intros l Hl. exact (same_core_good _ _ _ Hs (G l Hl)).
Qed.

Lemma AOK_InvStep model s s' : InvStep model s s' -> AOK model s -> AOK model s'.
Proof.
  intros [I [[_ Mg] A]] [_ [N G]]. split; [exact I|]. rewrite A. split; [exact N|].
  intros l Hl. exact (Mg l (G l Hl)).
Qed.

Lemma AOK_extend model s s1 locs :
  AOK model s -> GenOK model s s1 locs -> AOK model (set_actions (actions s1 ++ locs) s1).
Proof.
  intros [_ [N G]] [I1 [[Ml Mg] [A1 [N1 G1]]]].
  split; [exact I1|]. simpl. rewrite A1. split.
  - apply NoDup_app; [exact N|exact N1|].
    intros a Ha Ha'. destruct (G a Ha) as [Hlt _]. destruct (G1 a Ha') as [Hge _]. lia.
  - intros l Hl. apply in_app_or in Hl as [Hl|Hl]; [exact (Mg l (G l Hl))|exact (proj2 (G1 l Hl))].
Qed.

Lemma extend_actions_AOK model s s1 locs r s2 :
  AOK model s -> GenOK model s s1 locs -> extend_actions locs s1 = (r, s2) -> AOK model s2.
Proof.
  intros HA HG H. unfold extend_actions, modify in H. injection H as _ <-.
  exact (AOK_extend _ _ _ _ HA HG).
Qed.

Lemma alloc_append_AOK model d s r s' :
  AOK model s -> has_operation d = true -> dget d "parent" <> None ->
  (l <- alloc d ;; append_action l) s = (r, s') -> AOK model s'.
Proof.
  intros HA Hop Hp H. unfold bind in H.
  destruct (alloc d s) as [[e|l] s1] eqn:Ha; [unfold alloc in Ha; discriminate|].
  pose proof (alloc_GenOK _ _ _ _ _ (proj1 HA) Ha Hop Hp) as G.
  unfold append_action, modify in H. injection H as _ <-.
  exact (AOK_extend _ _ _ _ HA G).
Qed.

Lemma shape_add_action_safely base k2 a :
  shape base -> shape (_add_action_safely base "extend" k2 a).
Proof.
  intros Hb. unfold _add_action_safely.
  destruct (dget base "extend") as [[]|] eqn:E;
    try (apply shape_deep_update1; [exact Hb|unfold is_op_key; tauto|discriminate]).
  destruct (dget d k2) as [[]|];
    try (apply shape_deep_update1; [exact Hb|unfold is_op_key; tauto|discriminate]).
  apply shape_dset; [exact Hb|]. right. split; [unfold is_op_key; tauto|].
  apply truthy_dict, dset_not_nil.
Qed.

Section ItemsLoop.
Variable model : model_t.
Variable tracker : Tracker.
Variable g : bool.
Variable rh : string -> string.
Hypothesis Huniq : NoDup (map o_uuid model).

Lemma items_loop_spec items : forall base visited s r s',
  AOK model s -> shape base ->
  items_loop model tracker g rh items base visited s = (inr r, s') ->
  AOK model s' /\ shape (fst r).
Proof.
  induction items as [|item rest IH]; intros base visited s r s' HA Hb H.
  - cbn [items_loop] in H. unfold ret in H. injection H as <- <-. split; assumption.
  - cbn [items_loop] in H.
    apply bind_inr_inv in H as [req [s1 [H1 H]]].
    assert (F1 := find_by_identifier_frame _ _ _ _ _ _ _ H1).
    assert (A1 := AOK_same_core _ _ _ F1 HA).
    destruct req as [req|].
    + apply find_by_identifier_some in H1 as [Hreq _].
      apply bind_inr_inv in H as [rm [s2 [H2 H]]]. unfold gets in H2. injection H2 as <- <-.
      apply bind_inr_inv in H as [base' [s3 [H3 H]]].
      assert (B3 : AOK model s3 /\ shape base').
      { destruct (match req_module s1 with Some u => String.eqb (o_parent req) u | None => false end).
        - unfold ret in H3. injection H3 as <- <-. split; assumption.
        - apply bind_inr_inv in H3 as [[] [s2 [Hm H3]]].
          apply bind_inr_inv in H3 as [[] [s2' [Hi H3]]].
          unfold ret in H3. injection H3 as <- <-.
          split; [|apply shape_add_action_safely; exact Hb].
          apply (AOK_InvStep _ s1); [|exact A1].
          apply (move_spec _ req s1 s2'); [exact (proj1 A1)|exact Hreq|].
          unfold bind. rewrite Hm. exact Hi. }
      destruct B3 as [A3 Hb3].
      apply bind_inr_inv in H as [locs [s4 [H4 H]]].
      pose proof (proj2 (gen_spec model tracker g rh Huniq item) _ _ _ _ _ Hreq (proj1 A3) H4) as G4.
      apply bind_inr_inv in H as [[] [s5 [H5 H]]].
      pose proof (extend_actions_AOK _ _ _ _ _ _ A3 G4 H5) as A5.
      exact (IH _ _ _ _ _ A5 Hb3 H).
    + apply bind_inr_inv in H as [[v locs] [s2 [H2 H]]].
      pose proof (proj1 (gen_spec model tracker g rh Huniq item) _ _ _ _ (proj1 A1) H2) as G2.
      apply bind_inr_inv in H as [[] [s3 [H3 H]]].
      pose proof (extend_actions_AOK _ _ _ _ _ _ A1 G2 H3) as A3.
      exact (IH _ _ _ _ _ A3 (shape_add_action_safely _ _ _ Hb) H).
Qed.

End ItemsLoop.

Lemma parent_only_no_operation d : dkeys d = ["parent"] -> has_operation d = false.
Proof.
  destruct d as [|[k v] [|]]; try discriminate. intros E. simpl in E. injection E as ->. reflexivity.
Qed.

Lemma py_eq_parent_only d x :
  py_eq (VDict d) (VDict x) = true -> dkeys x = ["parent"] -> dkeys d = ["parent"].
Proof.
  intros H Hx. destruct x as [|[k w] [|]]; try discriminate. simpl in Hx. injection Hx as ->.
  destruct d as [|[k v] [|]]; cbn -[String.eqb] in H; try discriminate.
  destruct (String.eqb "parent" k) eqn:E; [|discriminate].
  apply String.eqb_eq in E. subst k. reflexivity.
Qed.

Lemma remove_action_count s x l l' :
  dkeys x = ["parent"] -> remove_action s x l = Some l' ->
  length (filter (po (heap s)) l) = S (length (filter (po (heap s)) l')) /\ incl l' l.
Proof.
  intros Hx. revert l'. induction l as [|y l IH]; intros l' H; cbn [remove_action] in H; [discriminate|].
  destruct (py_eq (VDict (deref s y)) (VDict x)) eqn:E.
  - injection H as <-. pose proof (py_eq_parent_only _ _ E Hx) as Hy.
    simpl. unfold po at 1. unfold deref in Hy. rewrite Hy.
    destruct (list_eq_dec string_dec ["parent"] ["parent"]) as [_|C]; [|contradiction].
    split; [reflexivity|]. intros z Hz. right. exact Hz.
  - destruct (remove_action s x l) as [l0|]; [|discriminate]. simpl in H. injection H as <-.
    destruct (IH l0 eq_refl) as [Hc Hi]. simpl. split.
    + destruct (po (heap s) y); simpl; lia.
    + intros z [<-|Hz]; [left; reflexivity|right; exact (Hi z Hz)].
Qed.

Lemma remove_parent_only_spec locs : forall s s',
  length (filter (po (heap s)) (actions s)) <= length (filter (po (heap s)) locs) ->
  remove_parent_only locs s = (inr tt, s') ->
  heap s' = heap s /\ req_deletions s' = req_deletions s /\ incl (actions s') (actions s)
  /\ filter (po (heap s)) (actions s') = [].
Proof.
  induction locs as [|loc rest IH]; intros s s' Hc H; cbn [remove_parent_only] in H.
  - unfold ret in H. injection H as <-. split; [reflexivity|]. split; [reflexivity|].
    split; [intros z Hz; exact Hz|]. simpl in Hc.
    destruct (filter (po (heap s)) (actions s)); [reflexivity|simpl in Hc; lia].
  - apply bind_inr_inv in H as [s0 [s1 [H0 H]]]. unfold gets in H0. injection H0 as <- <-.
    apply bind_inr_inv in H as [[] [s2 [H2 H]]].
    destruct (list_eq_dec string_dec (dkeys (deref s loc)) ["parent"]) as [Hpo|Hpo].
    + destruct (remove_action s (deref s loc) (actions s)) as [l|] eqn:Er; [|discriminate H2].
      unfold modify in H2. injection H2 as <-.
      destruct (remove_action_count _ _ _ _ Hpo Er) as [Hn Hi].
      assert (Hp : po (heap s) loc = true).
      { unfold po. unfold deref in Hpo. rewrite Hpo.
        destruct (list_eq_dec string_dec ["parent"] ["parent"]); [reflexivity|contradiction]. }
      simpl in Hc. rewrite Hp in Hc. simpl in Hc.
      destruct (IH (set_actions l s) s') as [Hh [Hr [Hi' Hf]]]; [simpl; lia|exact H|].
      simpl in Hh, Hr, Hi', Hf. split; [exact Hh|]. split; [exact Hr|].
      split; [intros z Hz; exact (Hi z (Hi' z Hz))|exact Hf].
    + unfold ret in H2. injection H2 as <-.
      assert (Hp : po (heap s) loc = false).
      { unfold po. unfold deref in Hpo.
        destruct (list_eq_dec string_dec (dkeys (nth loc (heap s) [])) ["parent"]); [contradiction|reflexivity]. }
      simpl in Hc. rewrite Hp in Hc. exact (IH s s' Hc H).
Qed.

Lemma registered_shape model s l : Inv model s -> registered s l -> shape (deref s l).
Proof.
  intros [_ Hrd] Hr. apply in_map_iff in Hr as [[u l'] [E Hin]]. simpl in E. subst l'.
  exact (proj1 (proj2 (Hrd u l Hin))).
Qed.

Lemma remove_parent_only_final model s s' :
  AOK model s -> remove_parent_only (map snd (req_deletions s)) s = (inr tt, s') -> FinalOK s'.
Proof.
  intros [I [N G]] H.
  destruct (remove_parent_only_spec (map snd (req_deletions s)) s s') as [Hh [Hr [Hi Hf]]]; [|exact H|].
  - apply NoDup_incl_length; [apply NoDup_filter; exact N|].
    intros l Hl. apply filter_In in Hl as [Hl Hp]. apply filter_In. split; [|exact Hp].
    destruct (G l Hl) as [_ [_ [Ho|Hreg]]]; [|exact Hreg].
    exfalso. unfold po in Hp.
    destruct (list_eq_dec string_dec (dkeys (nth l (heap s) [])) ["parent"]) as [E|]; [|discriminate].
    unfold deref in Ho. rewrite (parent_only_no_operation _ E) in Ho. discriminate.
  - intros l Hl. unfold deref. rewrite Hh. fold (deref s l).
    destruct (G l (Hi l Hl)) as [Hlt [Hp Hor]]. split; [exact Hlt|]. split; [|exact Hp].
    assert (Hnp : dkeys (deref s l) <> ["parent"]).
    { intros E. assert (In l (filter (po (heap s)) (actions s'))) as C.
      { apply filter_In. split; [exact Hl|]. unfold po. unfold deref in E. rewrite E.
        destruct (list_eq_dec string_dec ["parent"] ["parent"]); [reflexivity|contradiction]. }
      rewrite Hf in C. exact C. }
    destruct Hor as [Ho|Hreg]; [exact Ho|].
    exact (shape_has_operation _ (registered_shape _ _ _ I Hreg) Hnp).
Qed.

(* phase one: the CapellaModule and the Types-Folder *)
Lemma frame_attribute_definition_create_action m t id item r :
  Frame (attribute_definition_create_action m t id item r).
Proof. unfold attribute_definition_create_action. frame_tac. Qed.
#[local] Hint Resolve frame_attribute_definition_create_action : frame.

Lemma frame_requirement_type_create_action m t g id rt :
  Frame (requirement_type_create_action m t g id rt).
Proof. unfold requirement_type_create_action. frame_tac. Qed.
#[local] Hint Resolve frame_requirement_type_create_action : frame.

Lemma frame_requirement_types_folder_create_action m t g base :
  Frame (requirement_types_folder_create_action m t g base).
Proof.
  unfold requirement_types_folder_create_action, yield_requirement_type_create_actions. frame_tac.
Qed.

Lemma frame_check_requirements_module m i t c : Frame (check_requirements_module m i t c).
Proof. unfold check_requirements_module. frame_tac. Qed.

Lemma frame_populate_ev_deletions m refs : Frame (_populate_ev_deletions m refs).
Proof. unfold _populate_ev_deletions. frame_tac. Qed.
#[local] Hint Resolve frame_populate_ev_deletions : frame.

Lemma frame_data_type_mod_action m id dd : Frame (data_type_mod_action m id dd).
Proof. unfold data_type_mod_action. frame_tac. Qed.
#[local] Hint Resolve frame_data_type_mod_action : frame.

Lemma frame_attribute_definition_mod_action m t g rt id d :
  Frame (attribute_definition_mod_action m t g rt id d).
Proof. unfold attribute_definition_mod_action. frame_tac. Qed.
#[local] Hint Resolve frame_attribute_definition_mod_action : frame.

Lemma frame_requirement_type_delete_actions m t : Frame (requirement_type_delete_actions m t).
Proof. unfold requirement_type_delete_actions. frame_tac. Qed.

Lemma frame_req_delete_actions m v a : Frame (req_delete_actions m v a).
Proof. unfold req_delete_actions. frame_tac. Qed.

Lemma post_mapM {A B} (f : A -> M B) xs Q :
  (forall x, Post (f x) Q) -> Post (mapM f xs) (Forall Q).
Proof.
  intros Hf. induction xs as [|x xs IH]; simpl.
  - apply post_ret. constructor.
  - apply (post_bind_strong _ _ _ _ (Hf x)). intros b Hb.
    apply (post_bind_strong _ _ _ _ IH). intros bs Hbs. apply post_ret. constructor; assumption.
Qed.

Lemma post_attribute_definition_create_action m t id item r :
  Post (attribute_definition_create_action m t id item r) (fun a => dget (as_dict a) "parent" = None).
Proof.
  unfold attribute_definition_create_action. cbv zeta.
  destruct (String.eqb (ad_type item) "Enum").
  - repeat post_step; apply post_ret; reflexivity.
  - apply post_ret. reflexivity.
Qed.

Lemma post_data_type_mod_action m id dd : Post (data_type_mod_action m id dd) mod_or_create.
Proof.
  unfold data_type_mod_action. apply post_bind. intros rf.
  destruct rf as [rfu|]; [|apply post_raise].
  destruct (by_attr_single _ _ _) as [e|dtdef].
  - apply post_ret. intros a Ha Hp. injection Ha as <-. exfalso. apply Hp. reflexivity.
  - match goal with |- Post (bind ?c _) _ => apply (post_bind_strong _ _ shape) end.
    + repeat post_step; apply post_ret; shape_tac.
    + intros base Hb. destruct (list_eq_dec string_dec (dkeys base) ["parent"]) as [E|E].
      * apply post_ret. intros a Ha. discriminate.
      * apply post_ret. intros a Ha _. injection Ha as <-.
        split; [exact (shape_has_operation _ Hb E)|apply Hb].
Qed.

Lemma post_attribute_definition_mod_action m t g rt id d :
  Post (attribute_definition_mod_action m t g rt id d) mod_or_create.
Proof.
  unfold attribute_definition_mod_action. cbv zeta. apply post_try_catch.
  - repeat post_step; apply post_ret; intros ?a ?Ha ?Hp; try discriminate.
    all: match goal with Ha : Some _ = Some _ |- _ => injection Ha as <- end; split; [reflexivity|discriminate].
  - intros e. destruct e; try apply post_raise. apply post_try_catch.
    + apply (post_bind_strong _ _ _ _ (post_attribute_definition_create_action _ _ _ _ _)).
      intros a Ha. apply post_ret. intros a' Ha' Hp. injection Ha' as <-. contradiction.
    + intros e. destruct e; try apply post_raise. apply post_bind. intros. apply post_ret.
      intros ?b ?Hb. discriminate.
Qed.

Lemma nofail_ret {A} (a : A) : NoFail (ret a).
Proof. intros s. exists a, s. reflexivity. Qed.

Lemma nofail_bind {A B} (c : M A) (f : A -> M B) :
  NoFail c -> (forall a, NoFail (f a)) -> NoFail (bind c f).
Proof.
  intros Hc Hf s. destruct (Hc s) as [a [s1 E]]. unfold bind. rewrite E. apply Hf.
Qed.

Lemma nofail_alloc d : NoFail (alloc d).
Proof. intros s. eexists; eexists. reflexivity. Qed.

Lemma nofail_modify f : NoFail (modify f).
Proof. intros s. eexists; eexists. reflexivity. Qed.

Lemma nofail_mapM {A B} (f : A -> M B) xs : (forall x, NoFail (f x)) -> NoFail (mapM f xs).
Proof.
  intros Hf. induction xs as [|x xs IH]; simpl; [apply nofail_ret|].
  apply nofail_bind; [apply Hf|]. intros b. apply nofail_bind; [exact IH|]. intros; apply nofail_ret.
Qed.

Ltac nofail_tac :=
  repeat match goal with
  | |- NoFail (bind _ _) => apply nofail_bind; intros
  | |- NoFail (ret _) => apply nofail_ret
  | |- NoFail (alloc _) => apply nofail_alloc
  | |- NoFail (modify _) => apply nofail_modify
  | |- NoFail (append_action _) => apply nofail_modify
  | |- NoFail (extend_actions _) => apply nofail_modify
  | |- NoFail (mapM _ _) => apply nofail_mapM; intros
  | |- NoFail (if ?x then _ else _) => destruct x
  | |- NoFail (match ?x with _ => _ end) => destruct x
  end.

Lemma errframe_bind {A B} (c : M A) (f : A -> M B) :
  Frame c -> (forall a, ErrFrame (f a)) -> ErrFrame (bind c f).
Proof.
  intros Hc Hf s e s' H. unfold bind in H.
  destruct (c s) as [[e'|a] s1] eqn:E.
  - injection H as <- <-. exact (frame_run _ _ _ _ Hc E).
  - exact (same_core_trans _ _ _ (frame_run _ _ _ _ Hc E) (Hf a _ _ _ H)).
Qed.

Lemma errframe_nofail {A} (c : M A) : NoFail c -> ErrFrame c.
Proof. intros Hc s e s' H. destruct (Hc s) as [a [s1 E]]. rewrite E in H. discriminate. Qed.

Lemma mapM_pres {A B} (P : st -> Prop) (f : A -> M B) xs :
  (forall x s r s', P s -> f x s = (inr r, s') -> P s') ->
  forall s rs s', P s -> mapM f xs s = (inr rs, s') -> P s'.
Proof.
  intros Hf. induction xs as [|x xs IH]; intros s rs s' HP H; simpl in H.
  - unfold ret in H. injection H as _ <-. exact HP.
  - apply bind_inr_inv in H as [b [s1 [H1 H]]].
    apply bind_inr_inv in H as [bs [s2 [H2 H]]]. unfold ret in H. injection H as _ <-.
    exact (IH _ _ _ (Hf _ _ _ _ HP H1) H2).
Qed.

Lemma mods_of_results results :
  Forall mod_or_create results ->
  forall a, In a (filter (fun a => match dget (as_dict a) "parent" with Some _ => true | None => false end)
                   (flat_map (fun r => match r with Some a => [a] | None => [] end) results)) ->
  has_operation (as_dict a) = true /\ dget (as_dict a) "parent" <> None.
Proof.
  intros Hall a Ha. apply filter_In in Ha as [Ha Hp].
  apply in_flat_map in Ha as [r [Hr Ha]]. destruct r as [a'|]; [|destruct Ha].
  destruct Ha as [<-|[]].
  apply (proj1 (Forall_forall _ _) Hall _ Hr a' eq_refl).
  destruct (dget (as_dict a') "parent"); [discriminate|discriminate Hp].
Qed.

Lemma requirement_type_mod_action_AOK m t g id item s r s' :
  AOK m s -> requirement_type_mod_action m t g id item s = (inr r, s') -> AOK m s'.
Proof.
  intros HA H. unfold requirement_type_mod_action in H.
  apply bind_inr_inv in H as [rf [s0 [H0 H]]]. unfold gets in H0. injection H0 as <- <-.
  destruct (reqt_folder s) as [rfu|]; [|discriminate H].
  cbv zeta in H. unfold try_catch in H.
  match type of H with (match ?b s with _ => _ end) = _ =>
    destruct (b s) as [[e|a] s1] eqn:Eb; assert (EF : ErrFrame b) end.
  1, 3: apply errframe_bind; [frame_tac|intros]; apply errframe_bind; [frame_tac|intros];
        apply errframe_nofail; nofail_tac.
  - pose proof (EF _ _ _ Eb) as F1. apply (AOK_same_core _ _ _ F1) in HA.
    destruct e; try discriminate H.
    apply bind_inr_inv in H as [a [s2 [H2 H]]]. unfold ret in H. injection H as _ <-.
    apply (AOK_same_core _ s1); [|exact HA]. apply (frame_run' _ _ _ _ H2). frame_tac.
  - injection H as _ <-. clear EF.
    apply bind_inr_inv in Eb as [reqtype [s2 [H2 Eb]]].
    apply (AOK_same_core _ _ _ (frame_run' _ _ _ _ H2 (frame_lift _))) in HA.
    apply bind_inr_inv in Eb as [results [s3 [H3 Eb]]].
    pose proof (post_mapM _ _ _ (fun kv => post_attribute_definition_mod_action m t g reqtype (fst kv) (snd kv)) _ _ _ H3) as Pr.
    apply (AOK_same_core _ _ _ (frame_run' _ _ _ _ H3 ltac:(frame_tac))) in HA.
    apply bind_inr_inv in Eb as [[] [s4 [H4 Eb]]].
    assert (A4 : AOK m s4).
    { match type of H4 with context [list_eq_dec string_dec (dkeys ?b) _] =>
        assert (Hs : shape b) by shape_tac end.
      destruct (list_eq_dec string_dec _ ["parent"]) as [E|E].
      - unfold ret in H4. injection H4 as <-. exact HA.
      - refine (alloc_append_AOK _ _ _ _ _ HA _ _ H4).
        + exact (shape_has_operation _ Hs E).
        + apply Hs. }
    apply bind_inr_inv in Eb as [locs [s5 [H5 Eb]]].
    pose proof (mapM_alloc_GenOK _ _ _ _ _ (proj1 A4) (mods_of_results _ Pr) H5) as G5.
    apply bind_inr_inv in Eb as [[] [s6 [H6 Eb]]].
    unfold ret in Eb. injection Eb as _ <-.
    exact (extend_actions_AOK _ _ _ _ _ _ A4 G5 H6).
Qed.

Lemma data_type_definition_mod_actions_AOK m t s b s' :
  AOK m s -> data_type_definition_mod_actions m t s = (inr b, s') -> AOK m s' /\ shape b.
Proof.
  intros HA H. unfold data_type_definition_mod_actions in H.
  apply bind_inr_inv in H as [rf [s0 [H0 H]]]. unfold gets in H0. injection H0 as <- <-.
  destruct (reqt_folder s) as [rfu|]; [|discriminate H].
  cbv zeta in H.
  apply bind_inr_inv in H as [[] [s1 [H1 H]]].
  apply (AOK_same_core _ _ _ (frame_run' _ _ _ _ H1 ltac:(frame_tac))) in HA.
  apply bind_inr_inv in H as [results [s2 [H2 H]]].
  pose proof (post_mapM _ _ _ (fun kv => post_data_type_mod_action m (fst kv) (snd kv)) _ _ _ H2) as Pr.
  apply (AOK_same_core _ _ _ (frame_run' _ _ _ _ H2 ltac:(frame_tac))) in HA.
  apply bind_inr_inv in H as [locs [s3 [H3 H]]].
  pose proof (mapM_alloc_GenOK _ _ _ _ _ (proj1 HA) (mods_of_results _ Pr) H3) as G3.
  apply bind_inr_inv in H as [[] [s4 [H4 H]]].
  unfold ret in H. injection H as <- <-.
  split; [exact (extend_actions_AOK _ _ _ _ _ _ HA G3 H4)|shape_tac].
Qed.

Lemma reqt_folder_mod_actions_AOK m t g s r s' :
  AOK m s -> reqt_folder_mod_actions m t g s = (inr r, s') -> AOK m s'.
Proof.
  intros HA H. unfold reqt_folder_mod_actions in H.
  apply bind_inr_inv in H as [rfa [s1 [H1 H]]].
  apply data_type_definition_mod_actions_AOK in H1 as [A1 Hb]; [|exact HA].
  apply bind_inr_inv in H as [dels [s2 [H2 H]]].
  apply (AOK_same_core _ _ _ (frame_run' _ _ _ _ H2 (frame_requirement_type_delete_actions _ _))) in A1.
  cbv zeta in H.
  apply bind_inr_inv in H as [results [s3 [H3 H]]].
  pose proof (mapM_pres (AOK m) _ _
                (fun kv => requirement_type_mod_action_AOK m t g (fst kv) (snd kv)) _ _ _ A1 H3) as A3.
  match type of H with context [list_eq_dec string_dec (dkeys ?b) _] =>
    assert (Hs : shape b) by (shape_tac; exact Hb) end.
  destruct (list_eq_dec string_dec _ ["parent"]) as [E|E].
  - unfold ret in H. injection H as _ <-. exact A3.
  - refine (alloc_append_AOK _ _ _ _ _ A3 _ _ H).
    + exact (shape_has_operation _ Hs E).
    + apply Hs.
Qed.

Lemma post_check_requirements_module m i t c : Post (check_requirements_module m i t c) shape.
Proof. unfold check_requirements_module. repeat post_step; apply post_ret; shape_tac. Qed.

Lemma post_requirement_types_folder_create_action m t g base :
  shape base -> Post (requirement_types_folder_create_action m t g base) shape.
Proof.
  intros Hb. unfold requirement_types_folder_create_action. cbv zeta.
  apply post_bind. intros. apply post_ret. shape_tac. exact Hb.
Qed.

Lemma post_req_delete_actions m v a : Post (req_delete_actions m v a) (Forall ov_ok).
Proof.
  unfold req_delete_actions. apply post_bind. intros rm. cbv zeta.
  repeat post_step; apply post_ret; apply Forall_forall; intros kv Hkv; simpl in Hkv.
  all: repeat (destruct Hkv as [<-|Hkv];
         [unfold ov_ok; simpl; first [left; reflexivity|right; split; [unfold is_op_key; tauto|reflexivity]]|]).
  all: destruct Hkv.
Qed.

Lemma FinalOK_same_core s s' : same_core s s' -> FinalOK s -> FinalOK s'.
Proof.
  intros [Hh [_ [_ Ha]]] HF l Hl. unfold deref. rewrite Hh. rewrite Ha in Hl. exact (HF l Hl).
Qed.

Lemma FinalOK_alloc_append s d r s' :
  FinalOK s -> has_operation d = true -> dget d "parent" <> None ->
  (l <- alloc d ;; append_action l) s = (r, s') -> FinalOK s'.
Proof.
  intros HF Hop Hp H. unfold bind, alloc, append_action, modify in H. injection H as _ <-.
  intros l Hl. simpl in Hl |- *. unfold deref. simpl. rewrite length_app. simpl.
  apply in_app_or in Hl as [Hl|[<-|[]]].
  - destruct (HF l Hl) as [Hlt HF']. unfold deref in HF'.
    rewrite (nth_app_old _ _ _ _ Hlt). split; [lia|exact HF'].
  - rewrite nth_middle. split; [lia|]. split; assumption.
Qed.

Lemma AOK_init model : AOK model init_st.
Proof.
  split; [split; [constructor|intros u l []]|]. split; [constructor|intros l []].
Qed.

Lemma calculate_change_FinalOK model info tracker config g rh s :
  NoDup (map o_uuid model) ->
  calculate_change model info tracker config g rh init_st = (inr tt, s) -> FinalOK s.
Proof.
  intros Hu H. pose proof (AOK_init model) as HA. unfold calculate_change in H.
  apply bind_inr_inv in H as [base [s1 [H1 H]]].
  pose proof (post_check_requirements_module _ _ _ _ _ _ _ H1) as Hb.
  apply (AOK_same_core _ _ _ (frame_run' _ _ _ _ H1 (frame_check_requirements_module _ _ _ _))) in HA.
  apply bind_inr_inv in H as [rm [s2 [H2 H]]]. unfold gets in H2. injection H2 as <- <-.
  apply bind_inr_inv in H as [rf [s2 [H2 H]]].
  apply (AOK_same_core _ _ _ (frame_run' _ _ _ _ H2 (frame_find_by_identifier _ _ _ _))) in HA.
  apply bind_inr_inv in H as [[] [s3 [H3 H]]].
  apply (AOK_same_core _ _ _ (frame_run' _ _ _ _ H3 ltac:(frame_tac))) in HA.
  apply bind_inr_inv in H as [base1 [s4 [H4 H]]].
  assert (B4 : AOK model s4 /\ shape base1).
  { destruct rf as [rfo|].
    - apply bind_inr_inv in H4 as [[] [s5 [H5 H4]]]. unfold ret in H4. injection H4 as <- <-.
      split; [exact (reqt_folder_mod_actions_AOK _ _ _ _ _ _ HA H5)|exact Hb].
    - split.
      + apply (AOK_same_core _ _ _ (frame_run' _ _ _ _ H4 (frame_requirement_types_folder_create_action _ _ _ _))).
        exact HA.
      + exact (post_requirement_types_folder_create_action _ _ _ _ Hb _ _ _ H4). }
  destruct B4 as [A4 Hb4].
  apply bind_inr_inv in H as [[base2 visited] [s5 [H5 H]]].
  destruct (items_loop_spec model tracker g rh Hu _ _ _ _ _ _ A4 Hb4 H5) as [A5 Hb5].
  simpl fst in Hb5.
  apply bind_inr_inv in H as [rd [s6 [H6 H]]]. unfold gets in H6. injection H6 as <- <-.
  apply bind_inr_inv in H as [[] [s6 [H6 H]]].
  pose proof (remove_parent_only_final _ _ _ A5 H6) as F6.
  apply bind_inr_inv in H as [d1 [s7 [H7 H]]].
  pose proof (post_req_delete_actions _ _ _ _ _ _ H7) as P7.
  apply (FinalOK_same_core _ _ (frame_run' _ _ _ _ H7 (frame_req_delete_actions _ _ _))) in F6.
  apply bind_inr_inv in H as [d2 [s8 [H8 H]]].
  pose proof (post_req_delete_actions _ _ _ _ _ _ H8) as P8.
  apply (FinalOK_same_core _ _ (frame_run' _ _ _ _ H8 (frame_req_delete_actions _ _ _))) in F6.
  assert (Hs : shape (_deep_update (_deep_update base2 d1) d2)).
  { apply shape_deep_update; [apply shape_deep_update; assumption|exact P8]. }
  destruct (list_eq_dec string_dec _ ["parent"]) as [E|E].
  - unfold ret in H. injection H as <-. exact F6.
  - refine (FinalOK_alloc_append _ _ _ _ F6 (shape_has_operation _ Hs E) _ H). apply Hs.
Qed.

(** C3: every action in the list left by [TrackerChange] when it returns
    normally has at least one non-empty operation group ("extend",
    "modify" or "delete") besides its "parent" address; an action whose
    only key is "parent" (such as the action of a node whose snapshot
    state equals its model state, or one whose deletions were all
    invalidated by moves) is never in it. *)
Theorem tracker_change_actions_have_operation model info rh tracker config g s :
  NoDup (map o_uuid model) ->
  TrackerChange model info rh tracker config g = (inr tt, s) ->
  forall a, In a (tc_actions s) -> has_operation a = true /\ dget a "parent" <> None.
Proof.
  intros Hu H a Ha. unfold tc_actions in Ha. apply in_map_iff in Ha as [l [<- Hl]].
  destruct (calculate_change_FinalOK _ _ _ _ _ _ _ Hu H l Hl) as [_ R]. exact R.
Qed.

Lemma tracker_change_actions_have_operation_witness :
  NoDup (map o_uuid model_move) /\
  forall a, In a (tc_actions (snd (TrackerChange model_move "m" identity_html snapshot_move config_m true))) ->
     has_operation a = true /\ dget a "parent" <> None.
Proof.
  assert (Hu : NoDup (map o_uuid model_move)).
  { vm_compute. repeat constructor; simpl; intuition discriminate. }
  split; [exact Hu|].
  apply (tracker_change_actions_have_operation model_move "m" identity_html snapshot_move config_m true).
  - exact Hu.
  - vm_compute. reflexivity.
Defined.

(* ================================================================== *)
(** * Further properties of the code *)

Lemma dkeys_dset_iff d k v k' : In k' (dkeys (dset d k v)) <-> k' = k \/ In k' (dkeys d).
Proof.
  split; [apply dkeys_dset_in|].
  induction d as [|[k0 v0] d IH]; simpl.
  - intros [->|[]]. left. reflexivity.
  - destruct (String.eqb k0 k) eqn:E; simpl.
    + apply String.eqb_eq in E. subst. intros [->|[->|H]]; auto.
    + intros [->|[->|H]]; auto.
Qed.

Lemma deep_update_keys ovs : forall src k,
  In k (dkeys (deep_update_val src (VDict ovs))) <-> In k (dkeys src) \/ In k (dkeys ovs).
Proof.
  induction ovs as [|[k0 v0] rest IH]; intros src k.
  - simpl. tauto.
  - rewrite deep_update_cons, IH, dkeys_dset_iff. simpl. split.
    + intros [[->|H]|H]; auto.
    + intros [H|[->|H]]; auto.
Qed.

Lemma deep_update_nodup ovs : forall src, NoDup (dkeys src) ->
  NoDup (dkeys (deep_update_val src (VDict ovs))).
Proof.
  induction ovs as [|[k0 v0] rest IH]; intros src H; [exact H|].
  rewrite deep_update_cons. apply IH, nodup_dset, H.
Qed.

(** X1: after [_deep_update(source, overrides)] the keys of [source] are
    its old keys and the keys of [overrides], and no key is duplicated
    when none was before. *)
Theorem _deep_update_keys source overrides :
  (forall k, In k (dkeys (_deep_update source overrides))
             <-> In k (dkeys source) \/ In k (dkeys overrides))
  /\ (NoDup (dkeys source) -> NoDup (dkeys (_deep_update source overrides))).
Proof.
  split; [intros k; apply deep_update_keys|apply deep_update_nodup].
Qed.

Lemma deep_update_get_flat ovs : forall src k v, NoDup (map fst ovs) -> In (k, v) ovs ->
  match v with VDict (_ :: _) => False | _ => True end ->
  dget (deep_update_val src (VDict ovs)) k = Some v.
Proof.
  induction ovs as [|[k0 v0] rest IH]; intros src k v Hnd Hin Hf; [contradiction|].
  inversion Hnd as [|? ? Hn Hnd']; subst. rewrite deep_update_cons.
  destruct Hin as [E|Hin].
  - injection E as -> ->. rewrite deep_update_other by exact Hn.
    destruct v as [| | | | | | | | |[|x xs]]; try apply dget_dset. contradiction.
  - exact (IH _ _ _ Hnd' Hin Hf).
Qed.

(** X2: for overrides with distinct keys, [_deep_update] leaves every key
    that [overrides] does not name as it was, and a key whose override is
    not a non-empty dictionary gets exactly the override's value. *)
Theorem _deep_update_lookup source overrides k :
  NoDup (dkeys overrides) ->
  (~ In k (dkeys overrides) -> dget (_deep_update source overrides) k = dget source k)
  /\ (forall v, In (k, v) overrides ->
        match v with VDict (_ :: _) => False | _ => True end ->
        dget (_deep_update source overrides) k = Some v).
Proof.
  intros Hnd. unfold _deep_update. split.
  - apply deep_update_other.
  - intros v Hin Hf. exact (deep_update_get_flat _ _ _ _ Hnd Hin Hf).
Qed.

(** X3: when [source[k]] is absent or a dictionary, merging [{k: inner}]
    with a non-empty [inner] keeps every entry of [source[k]] that
    [inner] does not name; merging [{k: {}}] sets [source[k]] to an empty
    dictionary, whatever [source[k]] was. *)
Theorem _deep_update_nested source k inner :
  (inner <> [] ->
   (dget source k = None \/ exists d, dget source k = Some (VDict d)) ->
   forall k2, ~ In k2 (dkeys inner) ->
     dget (dget_dict (_deep_update source [(k, VDict inner)]) k) k2
     = dget (dget_dict source k) k2)
  /\ dget (_deep_update source [(k, VDict [])]) k = Some (VDict []).
Proof.
  split.
  - intros Hne _ k2 Hn. unfold dget_dict at 1. rewrite dget_deep_update1 by exact Hne.
    cbn [as_dict]. apply deep_update_other. exact Hn.
  - unfold _deep_update. rewrite deep_update_cons. apply dget_dset.
Qed.

(** X4: when [base[first_key]] is absent, or a dictionary whose
    [second_key] is absent or a list, [_add_action_safely] appends
    [action] at the end of [base[first_key][second_key]] (created if
    needed) and changes no other key of [base] or of [base[first_key]]. *)
Theorem _add_action_safely_appends base first_key second_key action :
  (dget base first_key = None
   \/ exists inner, dget base first_key = Some (VDict inner)
        /\ (dget inner second_key = None \/ exists l, dget inner second_key = Some (VList l))) ->
  group_list (_add_action_safely base first_key second_key action) first_key second_key
    = app (group_list base first_key second_key) [action]
  /\ (forall k, k <> first_key ->
        dget (_add_action_safely base first_key second_key action) k = dget base k)
  /\ (forall k, k <> second_key ->
        dget (dget_dict (_add_action_safely base first_key second_key action) first_key) k
        = dget (dget_dict base first_key) k).
Proof.
  intros Hpre. unfold _add_action_safely, group_list.
  assert (Hfresh : forall inner,
    dget base first_key = Some (VDict inner) \/ (dget base first_key = None /\ inner = []) ->
    dget inner second_key = None ->
    let r := _deep_update base [(first_key, VDict [(second_key, VList [action])])] in
    dget r first_key = Some (VDict (dset inner second_key (VList [action])))).
  { intros inner Hb Hn r. subst r. rewrite dget_deep_update1 by discriminate.
    unfold dget_dict. destruct Hb as [Hb|[Hb ->]]; rewrite Hb; reflexivity. }
  destruct Hpre as [Hn|[inner [Hi Hl]]].
  - rewrite Hn. unfold dget_dict at 2. rewrite Hn. simpl app.
    assert (E := Hfresh [] (or_intror (conj Hn eq_refl)) eq_refl). simpl in E.
    unfold dget_dict at 1. rewrite E. split.
    { cbn [as_dict]. change [(second_key, VList [action])] with (dset [] second_key (VList [action])).
      rewrite dget_dset. reflexivity. }
    split.
    + intros k Hk. unfold _deep_update. apply deep_update_other. simpl. intuition congruence.
    + intros k Hk. unfold dget_dict. rewrite E, Hn. cbn [as_dict].
      change [(second_key, VList [action])] with (dset [] second_key (VList [action])).
      rewrite dget_dset_other by congruence. reflexivity.
  - rewrite Hi. cbv iota beta. destruct Hl as [Hl|[l Hl]]; rewrite Hl; cbv iota beta.
    + unfold dget_dict at 2. rewrite Hi. cbn [as_dict]. rewrite Hl.
      unfold dget_dict at 1. rewrite (Hfresh inner (or_introl Hi) Hl). cbn [as_dict].
      rewrite dget_dset. split; [reflexivity|]. split.
      * intros k Hk. unfold _deep_update. apply deep_update_other. simpl. intuition congruence.
      * intros k Hk. unfold dget_dict. rewrite (Hfresh inner (or_introl Hi) Hl), Hi. cbn [as_dict].
        apply dget_dset_other. congruence.
    + unfold dget_dict. rewrite Hi, dget_dset. cbn [as_dict]. rewrite dget_dset, Hl. simpl.
      split; [reflexivity|]. split.
      * intros k Hk. apply dget_dset_other. congruence.
      * intros k Hk. apply dget_dset_other. congruence.
Qed.

Lemma mem_iff x l : mem x l = true <-> In x l.
Proof.
  unfold mem. rewrite existsb_exists. split.
  - intros [y [Hy E]]. apply String.eqb_eq in E. subst. exact Hy.
  - intros H. exists x. split; [exact H|apply String.eqb_refl].
Qed.

Lemma py_eq_ref_iff y u : py_eq y (VRef u) = true <-> y = VRef u.
Proof.
  split.
  - destruct y; simpl; intros E; try discriminate E.
    apply String.eqb_eq in E. subst. reflexivity.
  - intros ->. simpl. apply String.eqb_refl.
Qed.

Lemma list_remove_ref u xs :
  match list_remove (VRef u) xs with
  | Some l' => exists pre post, xs = app pre (VRef u :: post) /\ ~ In (VRef u) pre
                                /\ l' = app pre post
  | None => ~ In (VRef u) xs
  end.
Proof.
  induction xs as [|y xs IH]; simpl; [tauto|].
  destruct (py_eq y (VRef u)) eqn:E.
  - apply py_eq_ref_iff in E. subst. exists [], xs. simpl. tauto.
  - destruct (list_remove (VRef u) xs) as [l'|].
    + destruct IH as [pre [post [-> [Hn ->]]]]. exists (y :: pre), post.
      split; [reflexivity|]. split; [|reflexivity].
      intros [Hy|Hy]; [|contradiction]. subst. rewrite (proj2 (py_eq_ref_iff _ _) eq_refl) in E. discriminate.
    + intros [Hy|Hy]; [|contradiction]. subst. rewrite (proj2 (py_eq_ref_iff _ _) eq_refl) in E. discriminate.
Qed.

Lemma dget_ddel_same d k : dget (ddel d k) k = None.
Proof.
  unfold dget, ddel. induction d as [|[k' v'] d IH]; simpl; [reflexivity|].
  destruct (String.eqb k' k) eqn:E; simpl; [exact IH|]. rewrite E. exact IH.
Qed.

(** X9: when [invalidate_deletion] succeeds on a delete list holding the
    reference, it removes the first occurrence in place in the shared
    action, drops the kind's key once its list is empty and never leaves
    an empty "delete" dictionary; nothing else of the action, the other
    heap cells, the action list or the deletion registry changes. *)
Theorem invalidate_deletion_removes_first req s loc dels xs s' :
  loc < length (heap s) ->
  assoc_get (req_deletions s) (o_uuid req) = Some loc ->
  dget (deref s loc) "delete" = Some dels ->
  dget (as_dict dels) (deletion_key req) = Some (VList xs) ->
  invalidate_deletion req s = (inr tt, s') ->
  let d' := deref s' loc in
  exists pre post,
    xs = app pre (VRef (o_uuid req) :: post) /\ ~ In (VRef (o_uuid req)) pre
    /\ dget (dget_dict d' "delete") (deletion_key req)
       = match app pre post with [] => None | l => Some (VList l) end
    /\ (forall k, k <> deletion_key req ->
          dget (dget_dict d' "delete") k = dget (as_dict dels) k)
    /\ dget d' "delete" <> Some (VDict [])
    /\ (forall k, k <> "delete" -> dget d' k = dget (deref s loc) k)
    /\ (forall l, l <> loc -> deref s' l = deref s l)
    /\ length (heap s') = length (heap s)
    /\ actions s' = actions s /\ req_deletions s' = req_deletions s.
Proof.
  intros Hlt Ea Ed Ek H d'. unfold invalidate_deletion, bind, gets in H. cbv zeta in H.
  rewrite Ea, Ed in H. unfold deletion_key in Ek. rewrite Ek in H. cbn [as_list] in H.
  pose proof (list_remove_ref (o_uuid req) xs) as R.
  destruct (list_remove (VRef (o_uuid req)) xs) as [l'|]; [|discriminate H].
  destruct R as [pre [post [Hx [Hn El]]]]. exists pre, post.
  unfold store, modify in H. apply pair_equal_spec in H as [_ H]. subst s'.
  set (key := if kind_eqb (o_kind req) KFolder then "folders" else "requirements") in *.
  set (dels' := if truthy (VList l') then dset (as_dict dels) key (VList l')
                else ddel (as_dict dels) key) in *.
  set (dn := if truthy (VDict dels') then dset (deref s loc) "delete" (VDict dels')
             else ddel (deref s loc) "delete") in *.
  assert (Hder : forall l0, deref (set_heap (app (firstn loc (heap s))
                   (app [dn] (skipn (S loc) (heap s)))) s) l0
                 = if Nat.eqb l0 loc then dn else deref s l0).
  { intros l0. unfold deref. simpl. apply store_nth. exact Hlt. }
  subst d'. rewrite Hder, Nat.eqb_refl.
  assert (Hdel : dget_dict dn "delete" = dels').
  { subst dn. destruct (truthy (VDict dels')) eqn:Et.
    - unfold dget_dict. rewrite dget_dset. reflexivity.
    - unfold dget_dict. rewrite dget_ddel_same. destruct dels'; [reflexivity|discriminate]. }
  split; [exact Hx|]. split; [exact Hn|]. split.
  { rewrite Hdel. subst dels'. rewrite <- El. fold (deletion_key req).
    destruct l' as [|y ys]; simpl.
    - apply dget_ddel_same.
    - apply dget_dset. }
  split.
  { intros k Hk. rewrite Hdel. subst dels'. destruct (truthy (VList l')).
    - apply dget_dset_other. unfold deletion_key in Hk. fold key in Hk. congruence.
    - apply dget_ddel_other. unfold deletion_key in Hk. fold key in Hk. congruence. }
  split.
  { subst dn. destruct (truthy (VDict dels')) eqn:Et.
    - rewrite dget_dset. intros E. injection E as E. rewrite E in Et. discriminate.
    - rewrite dget_ddel_same. discriminate. }
  split.
  { intros k Hk. subst dn. destruct (truthy (VDict dels')).
    - apply dget_dset_other. congruence.
    - apply dget_ddel_other. congruence. }
  split.
  { intros l0 Hl0. rewrite Hder. destruct (Nat.eqb_spec l0 loc); [contradiction|reflexivity]. }
  split; [simpl; apply store_length; exact Hlt|].
  split; reflexivity.
Qed.

Lemma check_attribute_blacklisted tracker g rtid iid id v s :
  rtid <> "" -> _blacklisted id v = true ->
  _check_attribute tracker g id v rtid iid s = (inr (Some "continue"), s).
Proof.
  intros Hr Hb. unfold _check_attribute. apply String.eqb_neq in Hr. rewrite Hr, Hb. reflexivity.
Qed.

Lemma filter_not_blacklisted_cons id v rest :
  filter not_blacklisted ((id, v) :: rest)
  = if _blacklisted id v then filter not_blacklisted rest else (id, v) :: filter not_blacklisted rest.
Proof. unfold not_blacklisted at 1. simpl. destruct (_blacklisted id v); reflexivity. Qed.

(** X11: for a work item with a type, the attribute loops of the create
    and of the modify generator run as if the blacklisted attributes had
    been removed from the item beforehand. *)
Theorem attribute_loops_skip_blacklisted model tracker g rtid iid req tc attrs :
  rtid <> "" ->
  (forall step s, attribute_loop tracker g rtid iid step attrs s
                  = attribute_loop tracker g rtid iid step (filter not_blacklisted attrs) s)
  /\ (forall s, modify_attribute_loop model tracker g req rtid iid tc attrs s
                = modify_attribute_loop model tracker g req rtid iid tc (filter not_blacklisted attrs) s).
Proof.
  intros Hr. split.
  - intros step. induction attrs as [|[id v] rest IH]; intros s; [reflexivity|].
    rewrite filter_not_blacklisted_cons.
    destruct (_blacklisted id v) eqn:Hb.
    + cbn [attribute_loop]. unfold bind at 1. rewrite (check_attribute_blacklisted _ _ _ _ _ _ _ Hr Hb).
      exact (IH s).
    + cbn [attribute_loop]. unfold bind.
      destruct (_check_attribute tracker g id v rtid iid s) as [[e|[c|]] s1]; [reflexivity| |].
      * destruct (String.eqb c "break"); [reflexivity|exact (IH s1)].
      * destruct (step id v s1) as [[e|a] s2]; [reflexivity|].
        rewrite IH. reflexivity.
  - induction attrs as [|[id v] rest IH]; intros s; [reflexivity|].
    rewrite filter_not_blacklisted_cons.
    destruct (_blacklisted id v) eqn:Hb.
    + cbn [modify_attribute_loop]. unfold bind at 1. rewrite (check_attribute_blacklisted _ _ _ _ _ _ _ Hr Hb).
      exact (IH s).
    + cbn [modify_attribute_loop]. unfold bind.
      destruct (_check_attribute tracker g id v rtid iid s) as [[e|[c|]] s1]; [reflexivity| |].
      * destruct (String.eqb c "break"); [reflexivity|exact (IH s1)].
      * match goal with |- match ?x with _ => _ end = _ => destruct x as [[e|a] s2] end; [reflexivity|].
        rewrite IH. reflexivity.
Qed.

(** X12: with [gather_logs], a work item with attributes but without a type
    (or with an empty one) gets no attribute value and exactly one error
    "Invalid workitem ... Missing type but attributes found", in the
    create and in the modify path alike. *)
Theorem untyped_item_attributes_reported model tracker item req tc s :
  match wi_type item with None => True | Some t => t = "" end ->
  wi_attributes item <> [] ->
  let msg := "Invalid workitem '" ++ wi_id item ++ "'. " ++ "Missing type but attributes found" in
  create_attributes model tracker true item s = (inr [], set_errors (errors s ++ [msg]) s)
  /\ modify_attribute_loop model tracker true req "" (wi_id item) tc (wi_attributes item) s
     = (inr ([], []), set_errors (errors s ++ [msg]) s).
Proof.
  intros Ht Ha msg. unfold create_attributes.
  assert (E : match wi_type item with Some t => t | None => "" end = "")
    by (destruct (wi_type item); [exact Ht|reflexivity]).
  rewrite E. destruct (wi_attributes item) as [|[id v] rest]; [contradiction|].
  split; reflexivity.
Qed.

Lemma ek_ret {A} (a : A) : ErrKeep (ret a).
Proof. intros s. reflexivity. Qed.
Lemma ek_raise {A} e : ErrKeep (@raise A e).
Proof. intros s. reflexivity. Qed.
Lemma ek_gets {A} (f : st -> A) : ErrKeep (gets f).
Proof. intros s. reflexivity. Qed.
Lemma ek_lift {A} (r : exn + A) : ErrKeep (lift r).
Proof. destruct r; intros s; reflexivity. Qed.
Lemma ek_bind {A B} (c : M A) (f : A -> M B) :
  ErrKeep c -> (forall a, ErrKeep (f a)) -> ErrKeep (bind c f).
Proof.
  intros Hc Hf s. unfold bind. specialize (Hc s).
  destruct (c s) as [[e|a] s1]; [exact Hc|]. rewrite Hf. exact Hc.
Qed.
Lemma ek_try_catch {A} (c : M A) h :
  ErrKeep c -> (forall e, ErrKeep (h e)) -> ErrKeep (try_catch c h).
Proof.
  intros Hc Hh s. unfold try_catch. specialize (Hc s).
  destruct (c s) as [[e|a] s1]; [|exact Hc]. rewrite Hh. exact Hc.
Qed.
Lemma ek_mapM {A B} (f : A -> M B) xs : (forall x, ErrKeep (f x)) -> ErrKeep (mapM f xs).
Proof.
  intros Hf. induction xs as [|x xs IH]; simpl; [apply ek_ret|].
  apply ek_bind; [apply Hf|]. intros y. apply ek_bind; [exact IH|]. intros; apply ek_ret.
Qed.
Lemma ek_modify f : (forall s, errors (f s) = errors s) -> ErrKeep (modify f).
Proof. intros H s. exact (H s). Qed.
Lemma ek_alloc d : ErrKeep (alloc d).
Proof. intros s. reflexivity. Qed.
Lemma ek_store l d : ErrKeep (store l d).
Proof. intros s. reflexivity. Qed.
Lemma ek_append_action l : ErrKeep (append_action l).
Proof. intros s. reflexivity. Qed.
Lemma ek_extend_actions ls : ErrKeep (extend_actions ls).
Proof. intros s. reflexivity. Qed.

Create HintDb errkeep.
#[local] Hint Resolve ek_alloc ek_store ek_append_action ek_extend_actions : errkeep.

Ltac ek_step :=
  match goal with
  | |- ErrKeep (bind _ _) => apply ek_bind; intros
  | |- ErrKeep (try_catch _ _) => apply ek_try_catch; intros
  | |- ErrKeep (mapM _ _) => apply ek_mapM; intros
  | |- ErrKeep (ret _) => apply ek_ret
  | |- ErrKeep (raise _) => apply ek_raise
  | |- ErrKeep (gets _) => apply ek_gets
  | |- ErrKeep (lift _) => apply ek_lift
  | |- ErrKeep (modify _) => apply ek_modify; intros; reflexivity
  | |- ErrKeep (match ?x with _ => _ end) => destruct x
  | |- ErrKeep (let _ := _ in _) => cbv zeta
  | |- ErrKeep (if ?x then _ else _) => destruct x
  | H : ErrKeep ?c |- ErrKeep ?c => exact H
  | |- ErrKeep _ => solve [eauto with errkeep]
  end.
Ltac ek_tac := repeat ek_step.

Lemma ek_find_by m v xs a b : ErrKeep (find_by m v xs a b).
Proof. unfold find_by. ek_tac. Qed.
#[local] Hint Resolve ek_find_by : errkeep.
Lemma ek_find_by_identifier m v x b : ErrKeep (find_by_identifier m v x b).
Proof. unfold find_by_identifier. apply ek_find_by. Qed.
#[local] Hint Resolve ek_find_by_identifier : errkeep.
Lemma ek_handle_user_error t msg : ErrKeep (_handle_user_error t false msg).
Proof. unfold _handle_user_error. ek_tac. Qed.
#[local] Hint Resolve ek_handle_user_error : errkeep.
Lemma ek_check_attribute_value_is_valid t id v r : ErrKeep (check_attribute_value_is_valid t id v r).
Proof. unfold check_attribute_value_is_valid. ek_tac. Qed.
#[local] Hint Resolve ek_check_attribute_value_is_valid : errkeep.
Lemma ek_attribute_value_create_action m t id v r : ErrKeep (attribute_value_create_action m t id v r).
Proof. unfold attribute_value_create_action. ek_tac. Qed.
#[local] Hint Resolve ek_attribute_value_create_action : errkeep.
Lemma ek_try_create m t id v r i : ErrKeep (_try_create_attribute_value m t false id v r i).
Proof. unfold _try_create_attribute_value. ek_tac. Qed.
#[local] Hint Resolve ek_try_create : errkeep.
Lemma ek_type_identifier m r : ErrKeep (type_identifier m r).
Proof. unfold type_identifier. ek_tac. Qed.
#[local] Hint Resolve ek_type_identifier : errkeep.
Lemma ek_definition_identifier m a : ErrKeep (definition_identifier m a).
Proof. unfold definition_identifier. ek_tac. Qed.
#[local] Hint Resolve ek_definition_identifier : errkeep.
Lemma ek_check_attribute t id v r i : ErrKeep (_check_attribute t false id v r i).
Proof. unfold _check_attribute. ek_tac. Qed.
#[local] Hint Resolve ek_check_attribute : errkeep.
Lemma ek_attribute_loop t r i step attrs :
  (forall id v, ErrKeep (step id v)) -> ErrKeep (attribute_loop t false r i step attrs).
Proof. intros Hs. induction attrs as [|[id v] rest IH]; cbn [attribute_loop]; ek_tac; apply Hs. Qed.
Lemma ek_create_attributes m t item : ErrKeep (create_attributes m t false item).
Proof. unfold create_attributes. apply ek_attribute_loop. intros. apply ek_try_create. Qed.
#[local] Hint Resolve ek_create_attributes : errkeep.
Lemma ek_attribute_value_mod_action m t req id v r : ErrKeep (attribute_value_mod_action m t req id v r).
Proof. unfold attribute_value_mod_action. ek_tac. Qed.
#[local] Hint Resolve ek_attribute_value_mod_action : errkeep.
Lemma ek_modify_attribute_step m t req r i id v : ErrKeep (modify_attribute_step m t false req r i id v).
Proof. unfold modify_attribute_step. ek_tac. Qed.
#[local] Hint Resolve ek_modify_attribute_step : errkeep.
Lemma ek_modify_attribute_loop m t req r i tc attrs : ErrKeep (modify_attribute_loop m t false req r i tc attrs).
Proof. induction attrs as [|[id v] rest IH]; cbn [modify_attribute_loop]; ek_tac. Qed.
#[local] Hint Resolve ek_modify_attribute_loop : errkeep.
Lemma ek_attribute_deletions_by_definition m ids attrs : ErrKeep (attribute_deletions_by_definition m ids attrs).
Proof. induction attrs as [|a rest IH]; cbn [attribute_deletions_by_definition]; ek_tac. Qed.
#[local] Hint Resolve ek_attribute_deletions_by_definition : errkeep.
Lemma ek_parent_differs req p : ErrKeep (parent_differs req p).
Proof. unfold parent_differs. ek_tac. Qed.
#[local] Hint Resolve ek_parent_differs : errkeep.
Lemma ek_invalidate_deletion req : ErrKeep (invalidate_deletion req).
Proof. unfold invalidate_deletion. ek_tac. Qed.
#[local] Hint Resolve ek_invalidate_deletion : errkeep.

Lemma ek_gen model tracker rh : forall item, EKGen model tracker rh item.
Proof.
  apply WorkItem_rect'. intros iid ln txt ty attrs cs Hcs. split.
  - cbn [yield_requirements_create_actions].
    fold (yield_requirements_mod_actions model tracker false rh).
    ek_tac. cbn [ForallOpt] in Hcs.
    induction l as [|c l IH]; [ek_tac|].
    inversion Hcs as [|? ? [Hc1 Hc2] Hl]; subst. specialize (IH Hl).
    cbv beta iota fix. ek_tac.
  - intros req parent. cbn [yield_requirements_mod_actions].
    fold (yield_requirements_create_actions model tracker false rh).
    ek_tac. cbn [ForallOpt] in Hcs.
    match goal with |- ErrKeep (?f ?ll ?acc0) =>
      generalize acc0; revert Hcs; induction ll as [|c ?l IH]; intros Hcs acc end.
    { cbv beta iota fix. ek_tac. }
    inversion Hcs as [|? ? [Hc1 Hc2] Hl]; subst. specialize (IH Hl).
    cbv beta iota fix. ek_tac.
Qed.

#[local] Hint Resolve ek_gen : errkeep.
Lemma ek_create m t r item : ErrKeep (yield_requirements_create_actions m t false r item).
Proof. apply (ek_gen m t r item). Qed.
Lemma ek_mod m t r req item p : ErrKeep (yield_requirements_mod_actions m t false r req item p).
Proof. apply (ek_gen m t r item). Qed.
#[local] Hint Resolve ek_create ek_mod : errkeep.

Lemma ek_attribute_definition_create_action m t id item r :
  ErrKeep (attribute_definition_create_action m t id item r).
Proof. unfold attribute_definition_create_action. ek_tac. Qed.
#[local] Hint Resolve ek_attribute_definition_create_action : errkeep.
Lemma ek_requirement_type_create_action m t id rt :
  ErrKeep (requirement_type_create_action m t false id rt).
Proof. unfold requirement_type_create_action. ek_tac. Qed.
#[local] Hint Resolve ek_requirement_type_create_action : errkeep.
Lemma ek_requirement_types_folder_create_action m t base :
  ErrKeep (requirement_types_folder_create_action m t false base).
Proof. unfold requirement_types_folder_create_action, yield_requirement_type_create_actions. ek_tac. Qed.
#[local] Hint Resolve ek_requirement_types_folder_create_action : errkeep.
Lemma ek_check_requirements_module m i t c : ErrKeep (check_requirements_module m i t c).
Proof. unfold check_requirements_module. ek_tac. Qed.
#[local] Hint Resolve ek_check_requirements_module : errkeep.
Lemma ek_populate_ev_deletions m refs : ErrKeep (_populate_ev_deletions m refs).
Proof. unfold _populate_ev_deletions. ek_tac. Qed.
#[local] Hint Resolve ek_populate_ev_deletions : errkeep.
Lemma ek_data_type_mod_action m id dd : ErrKeep (data_type_mod_action m id dd).
Proof. unfold data_type_mod_action. ek_tac. Qed.
#[local] Hint Resolve ek_data_type_mod_action : errkeep.
Lemma ek_data_type_definition_mod_actions m t : ErrKeep (data_type_definition_mod_actions m t).
Proof. unfold data_type_definition_mod_actions. ek_tac. Qed.
#[local] Hint Resolve ek_data_type_definition_mod_actions : errkeep.
Lemma ek_requirement_type_delete_actions m t : ErrKeep (requirement_type_delete_actions m t).
Proof. unfold requirement_type_delete_actions. ek_tac. Qed.
#[local] Hint Resolve ek_requirement_type_delete_actions : errkeep.
Lemma ek_attribute_definition_mod_action m t rt id d :
  ErrKeep (attribute_definition_mod_action m t false rt id d).
Proof. unfold attribute_definition_mod_action. ek_tac. Qed.
#[local] Hint Resolve ek_attribute_definition_mod_action : errkeep.
Lemma ek_requirement_type_mod_action m t id item :
  ErrKeep (requirement_type_mod_action m t false id item).
Proof. unfold requirement_type_mod_action. ek_tac. Qed.
#[local] Hint Resolve ek_requirement_type_mod_action : errkeep.
Lemma ek_reqt_folder_mod_actions m t : ErrKeep (reqt_folder_mod_actions m t false).
Proof. unfold reqt_folder_mod_actions. ek_tac. Qed.
#[local] Hint Resolve ek_reqt_folder_mod_actions : errkeep.
Lemma ek_items_loop m t r items : forall base visited,
  ErrKeep (items_loop m t false r items base visited).
Proof. induction items as [|item rest IH]; intros base visited; cbn [items_loop]; ek_tac. Qed.
#[local] Hint Resolve ek_items_loop : errkeep.
Lemma ek_remove_parent_only locs : ErrKeep (remove_parent_only locs).
Proof. induction locs as [|l rest IH]; cbn [remove_parent_only]; ek_tac. Qed.
#[local] Hint Resolve ek_remove_parent_only : errkeep.
Lemma ek_req_delete_actions m v a : ErrKeep (req_delete_actions m v a).
Proof. unfold req_delete_actions. ek_tac. Qed.
#[local] Hint Resolve ek_req_delete_actions : errkeep.
Lemma ek_calculate_change m i t c r : ErrKeep (calculate_change m i t c false r).
Proof. unfold calculate_change. ek_tac. Qed.

Lemma tc_errors_nogather model info rh snapshot config :
  errors (snd (TrackerChange model info rh snapshot config false)) = [].
Proof. unfold TrackerChange. rewrite ek_calculate_change. reflexivity. Qed.

(* ------------------------------------------------------------------ *)
(** ** Errors appended independently of those already collected *)


Lemma ob_ret {A} (a : A) : ErrOb (ret a).
Proof. intros s. exists []. split; [symmetry; apply app_nil_r|intros e; rewrite app_nil_r; reflexivity]. Qed.
Lemma ob_raise {A} e : ErrOb (@raise A e).
Proof. intros s. exists []. split; [symmetry; apply app_nil_r|intros e'; rewrite app_nil_r; reflexivity]. Qed.
Lemma ob_lift {A} (r : exn + A) : ErrOb (lift r).
Proof. destruct r; [apply ob_raise|apply ob_ret]. Qed.
Lemma ob_gets {A} (f : st -> A) : (forall s e, f (set_errors e s) = f s) -> ErrOb (gets f).
Proof.
  intros Hf s. exists []. split; [symmetry; apply app_nil_r|].
  intros e. unfold gets. rewrite Hf, app_nil_r. reflexivity.
Qed.
Lemma ob_modify f :
  (forall s, exists new, errors (f s) = app (errors s) new
     /\ forall e, f (set_errors e s) = set_errors (app e new) (f s)) -> ErrOb (modify f).
Proof.
  intros Hf s. destruct (Hf s) as [n [E F]]. exists n. split; [exact E|].
  intros e. unfold modify. rewrite F. reflexivity.
Qed.
Lemma ob_bind {A B} (c : M A) (f : A -> M B) :
  ErrOb c -> (forall a, ErrOb (f a)) -> ErrOb (bind c f).
Proof.
  intros Hc Hf s. destruct (Hc s) as [n1 [E1 F1]]. unfold bind.
  destruct (c s) as [[x|a] s1] eqn:Ec; cbn in E1.
  - exists n1. split; [exact E1|]. intros e. rewrite F1. reflexivity.
  - destruct (Hf a s1) as [n2 [E2 F2]]. exists (app n1 n2). split.
    + rewrite E2, E1. symmetry; apply app_assoc.
    + intros e. rewrite F1. cbn. rewrite F2, app_assoc. reflexivity.
Qed.
Lemma ob_try_catch {A} (c : M A) h :
  ErrOb c -> (forall e, ErrOb (h e)) -> ErrOb (try_catch c h).
Proof.
  intros Hc Hh s. destruct (Hc s) as [n1 [E1 F1]]. unfold try_catch.
  destruct (c s) as [[x|a] s1] eqn:Ec; cbn in E1.
  - destruct (Hh x s1) as [n2 [E2 F2]]. exists (app n1 n2). split.
    + rewrite E2, E1. symmetry; apply app_assoc.
    + intros e. rewrite F1. cbn. rewrite F2, app_assoc. reflexivity.
  - exists n1. split; [exact E1|]. intros e. rewrite F1. reflexivity.
Qed.
Lemma ob_mapM {A B} (f : A -> M B) xs : (forall x, ErrOb (f x)) -> ErrOb (mapM f xs).
Proof.
  intros Hf. induction xs as [|x xs IH]; simpl; [apply ob_ret|].
  apply ob_bind; [apply Hf|]. intros y. apply ob_bind; [exact IH|]. intros; apply ob_ret.
Qed.
Lemma ob_alloc d : ErrOb (alloc d).
Proof. intros s. exists []. split; [symmetry; apply app_nil_r|intros e; rewrite app_nil_r; reflexivity]. Qed.
Lemma ob_store l d : ErrOb (store l d).
Proof. intros s. exists []. split; [symmetry; apply app_nil_r|intros e; rewrite app_nil_r; reflexivity]. Qed.
Lemma ob_append_action l : ErrOb (append_action l).
Proof. intros s. exists []. split; [symmetry; apply app_nil_r|intros e; rewrite app_nil_r; reflexivity]. Qed.
Lemma ob_extend_actions ls : ErrOb (extend_actions ls).
Proof. intros s. exists []. split; [symmetry; apply app_nil_r|intros e; rewrite app_nil_r; reflexivity]. Qed.

Create HintDb errob.
#[local] Hint Resolve ob_alloc ob_store ob_append_action ob_extend_actions : errob.

Ltac ob_step :=
  match goal with
  | |- ErrOb (bind _ _) => apply ob_bind; intros
  | |- ErrOb (try_catch _ _) => apply ob_try_catch; intros
  | |- ErrOb (mapM _ _) => apply ob_mapM; intros
  | |- ErrOb (ret _) => apply ob_ret
  | |- ErrOb (raise _) => apply ob_raise
  | |- ErrOb (gets _) => apply ob_gets; intros; reflexivity
  | |- ErrOb (lift _) => apply ob_lift
  | |- ErrOb (modify _) =>
      apply ob_modify; intros;
      first [ exists []; split; [symmetry; apply app_nil_r|intros; rewrite app_nil_r; reflexivity]
            | eexists; split; [reflexivity|intros; reflexivity] ]
  | |- ErrOb (match ?x with _ => _ end) => destruct x
  | |- ErrOb (let _ := _ in _) => cbv zeta
  | |- ErrOb (if ?x then _ else _) => destruct x
  | H : ErrOb ?c |- ErrOb ?c => exact H
  | |- ErrOb _ => solve [eauto with errob]
  end.
Ltac ob_tac := repeat ob_step.

Lemma ob_find_by m v xs a b : ErrOb (find_by m v xs a b).
Proof. unfold find_by. ob_tac. Qed.
#[local] Hint Resolve ob_find_by : errob.
Lemma ob_find_by_identifier m v x b : ErrOb (find_by_identifier m v x b).
Proof. unfold find_by_identifier. apply ob_find_by. Qed.
#[local] Hint Resolve ob_find_by_identifier : errob.
Lemma ob_handle_user_error t g msg : ErrOb (_handle_user_error t g msg).
Proof. unfold _handle_user_error. ob_tac. Qed.
#[local] Hint Resolve ob_handle_user_error : errob.
Lemma ob_check_attribute_value_is_valid t id v r : ErrOb (check_attribute_value_is_valid t id v r).
Proof. unfold check_attribute_value_is_valid. ob_tac. Qed.
#[local] Hint Resolve ob_check_attribute_value_is_valid : errob.
Lemma ob_attribute_value_create_action m t id v r : ErrOb (attribute_value_create_action m t id v r).
Proof. unfold attribute_value_create_action. ob_tac. Qed.
#[local] Hint Resolve ob_attribute_value_create_action : errob.
Lemma ob_try_create m t g id v r i : ErrOb (_try_create_attribute_value m t g id v r i).
Proof. unfold _try_create_attribute_value. ob_tac. Qed.
#[local] Hint Resolve ob_try_create : errob.
Lemma ob_type_identifier m r : ErrOb (type_identifier m r).
Proof. unfold type_identifier. ob_tac. Qed.
#[local] Hint Resolve ob_type_identifier : errob.
Lemma ob_definition_identifier m a : ErrOb (definition_identifier m a).
Proof. unfold definition_identifier. ob_tac. Qed.
#[local] Hint Resolve ob_definition_identifier : errob.
Lemma ob_check_attribute t g id v r i : ErrOb (_check_attribute t g id v r i).
Proof. unfold _check_attribute. ob_tac. Qed.
#[local] Hint Resolve ob_check_attribute : errob.
Lemma ob_attribute_loop t g r i step attrs :
  (forall id v, ErrOb (step id v)) -> ErrOb (attribute_loop t g r i step attrs).
Proof. intros Hs. induction attrs as [|[id v] rest IH]; cbn [attribute_loop]; ob_tac; apply Hs. Qed.
Lemma ob_create_attributes m t g item : ErrOb (create_attributes m t g item).
Proof. unfold create_attributes. apply ob_attribute_loop. intros. apply ob_try_create. Qed.
#[local] Hint Resolve ob_create_attributes : errob.
Lemma ob_attribute_value_mod_action m t req id v r : ErrOb (attribute_value_mod_action m t req id v r).
Proof. unfold attribute_value_mod_action. ob_tac. Qed.
#[local] Hint Resolve ob_attribute_value_mod_action : errob.
Lemma ob_modify_attribute_step m t g req r i id v : ErrOb (modify_attribute_step m t g req r i id v).
Proof. unfold modify_attribute_step. ob_tac. Qed.
#[local] Hint Resolve ob_modify_attribute_step : errob.
Lemma ob_modify_attribute_loop m t g req r i tc attrs : ErrOb (modify_attribute_loop m t g req r i tc attrs).
Proof. induction attrs as [|[id v] rest IH]; cbn [modify_attribute_loop]; ob_tac. Qed.
#[local] Hint Resolve ob_modify_attribute_loop : errob.
Lemma ob_attribute_deletions_by_definition m ids attrs : ErrOb (attribute_deletions_by_definition m ids attrs).
Proof. induction attrs as [|a rest IH]; cbn [attribute_deletions_by_definition]; ob_tac. Qed.
#[local] Hint Resolve ob_attribute_deletions_by_definition : errob.
Lemma ob_parent_differs req p : ErrOb (parent_differs req p).
Proof. unfold parent_differs. ob_tac. Qed.
#[local] Hint Resolve ob_parent_differs : errob.
Lemma ob_invalidate_deletion req : ErrOb (invalidate_deletion req).
Proof. unfold invalidate_deletion. ob_tac. Qed.
#[local] Hint Resolve ob_invalidate_deletion : errob.

Lemma ob_gen model tracker g rh : forall item, OBGen model tracker g rh item.
Proof.
  apply WorkItem_rect'. intros iid ln txt ty attrs cs Hcs. split.
  - cbn [yield_requirements_create_actions].
    fold (yield_requirements_mod_actions model tracker g rh).
    ob_tac. cbn [ForallOpt] in Hcs.
    induction l as [|c l IH]; [ob_tac|].
    inversion Hcs as [|? ? [Hc1 Hc2] Hl]; subst. specialize (IH Hl).
    cbv beta iota fix. ob_tac.
  - intros req parent. cbn [yield_requirements_mod_actions].
    fold (yield_requirements_create_actions model tracker g rh).
    ob_tac. cbn [ForallOpt] in Hcs.
    match goal with |- ErrOb (?f ?ll ?acc0) =>
      generalize acc0; revert Hcs; induction ll as [|c ?l IH]; intros Hcs acc end.
    { cbv beta iota fix. ob_tac. }
    inversion Hcs as [|? ? [Hc1 Hc2] Hl]; subst. specialize (IH Hl).
    cbv beta iota fix. ob_tac.
Qed.

#[local] Hint Resolve ob_gen : errob.
Lemma ob_create m t g r item : ErrOb (yield_requirements_create_actions m t g r item).
Proof. apply (ob_gen m t g r item). Qed.
Lemma ob_mod m t g r req item p : ErrOb (yield_requirements_mod_actions m t g r req item p).
Proof. apply (ob_gen m t g r item). Qed.
#[local] Hint Resolve ob_create ob_mod : errob.

Lemma ob_attribute_definition_create_action m t id item r :
  ErrOb (attribute_definition_create_action m t id item r).
Proof. unfold attribute_definition_create_action. ob_tac. Qed.
#[local] Hint Resolve ob_attribute_definition_create_action : errob.
Lemma ob_requirement_type_create_action m t g id rt :
  ErrOb (requirement_type_create_action m t g id rt).
Proof. unfold requirement_type_create_action. ob_tac. Qed.
#[local] Hint Resolve ob_requirement_type_create_action : errob.
Lemma ob_requirement_types_folder_create_action m t g base :
  ErrOb (requirement_types_folder_create_action m t g base).
Proof. unfold requirement_types_folder_create_action, yield_requirement_type_create_actions. ob_tac. Qed.
#[local] Hint Resolve ob_requirement_types_folder_create_action : errob.
Lemma ob_check_requirements_module m i t c : ErrOb (check_requirements_module m i t c).
Proof. unfold check_requirements_module. ob_tac. Qed.
#[local] Hint Resolve ob_check_requirements_module : errob.
Lemma ob_populate_ev_deletions m refs : ErrOb (_populate_ev_deletions m refs).
Proof. unfold _populate_ev_deletions. ob_tac. Qed.
#[local] Hint Resolve ob_populate_ev_deletions : errob.
Lemma ob_data_type_mod_action m id dd : ErrOb (data_type_mod_action m id dd).
Proof. unfold data_type_mod_action. ob_tac. Qed.
#[local] Hint Resolve ob_data_type_mod_action : errob.
Lemma ob_data_type_definition_mod_actions m t : ErrOb (data_type_definition_mod_actions m t).
Proof. unfold data_type_definition_mod_actions. ob_tac. Qed.
#[local] Hint Resolve ob_data_type_definition_mod_actions : errob.
Lemma ob_requirement_type_delete_actions m t : ErrOb (requirement_type_delete_actions m t).
Proof. unfold requirement_type_delete_actions. ob_tac. Qed.
#[local] Hint Resolve ob_requirement_type_delete_actions : errob.
Lemma ob_attribute_definition_mod_action m t g rt id d :
  ErrOb (attribute_definition_mod_action m t g rt id d).
Proof. unfold attribute_definition_mod_action. ob_tac. Qed.
#[local] Hint Resolve ob_attribute_definition_mod_action : errob.
Lemma ob_requirement_type_mod_action m t g id item :
  ErrOb (requirement_type_mod_action m t g id item).
Proof. unfold requirement_type_mod_action. ob_tac. Qed.
#[local] Hint Resolve ob_requirement_type_mod_action : errob.
Lemma ob_reqt_folder_mod_actions m t g : ErrOb (reqt_folder_mod_actions m t g).
Proof. unfold reqt_folder_mod_actions. ob_tac. Qed.
#[local] Hint Resolve ob_reqt_folder_mod_actions : errob.
Lemma ob_items_loop m t g r items : forall base visited,
  ErrOb (items_loop m t g r items base visited).
Proof. induction items as [|item rest IH]; intros base visited; cbn [items_loop]; ob_tac. Qed.
#[local] Hint Resolve ob_items_loop : errob.

Lemma remove_action_set_errors s e x l :
  remove_action (set_errors e s) x l = remove_action s x l.
Proof. induction l as [|y l IH]; cbn; [reflexivity|]. rewrite IH. reflexivity. Qed.

Lemma ob_bind_gets_id {A} (k : st -> M A) :
  (forall s e, k (set_errors e s) = k s) -> (forall s, ErrOb (k s)) ->
  ErrOb (bind (gets (fun s => s)) k).
Proof.
  intros Hk Hob s. unfold bind, gets. destruct (Hob s s) as [n [E F]].
  exists n. split; [exact E|]. intros e. rewrite Hk. apply F.
Qed.

Lemma ob_remove_parent_only locs : ErrOb (remove_parent_only locs).
Proof.
  induction locs as [|l rest IH]; cbn [remove_parent_only]; [apply ob_ret|].
  apply ob_bind_gets_id.
  - intros s e. cbn. rewrite remove_action_set_errors. reflexivity.
  - intros s. ob_tac.
Qed.
#[local] Hint Resolve ob_remove_parent_only : errob.
Lemma ob_req_delete_actions m v a : ErrOb (req_delete_actions m v a).
Proof. unfold req_delete_actions. ob_tac. Qed.
#[local] Hint Resolve ob_req_delete_actions : errob.
Lemma ob_calculate_change m i t c g r : ErrOb (calculate_change m i t c g r).
Proof. unfold calculate_change. ob_tac. Qed.




Lemma bind_ret_r {A} (c : M A) s : bind c ret s = c s.
Proof. unfold bind. destruct (c s) as [[x|a] s']; reflexivity. Qed.





Section InvalidEnum.
Variables (model : model_t) (tracker : Tracker) (id rtid iid : string) (vals : list val).
Variables (rt : ReqType) (ad : AttrDef) (dt : DataType).
Hypothesis H0 : rtid <> "".
Hypothesis Hb : _blacklisted id (VList vals) = false.
Hypothesis H1 : lookup (requirement_types tracker) rtid = Some rt.
Hypothesis H2 : lookup (rt_attributes rt) id = Some ad.
Hypothesis H3 : ad_type ad = "Enum".
Hypothesis H4 : lookup (data_type_definitions tracker) id = Some dt.
Hypothesis H5 : forall x, In (VStr x) vals -> ~ In x (map dtv_id (dt_values dt)).



End InvalidEnum.








(** X18: with [gather_logs=False], a change set returned by
    [calculate_change_set] has no errors, and when [TrackerChange]
    completed, its actions are the actions of [TrackerChange] (the same
    set), whatever [force] and [safe_mode]. *)
Theorem calculate_change_set_no_gather_logs model info rh config snapshot force safe_mode cs :
  calculate_change_set model info rh config snapshot force safe_mode false = inr cs ->
  cs_errors cs = []
  /\ (forall s, TrackerChange model info rh snapshot config false = (inr tt, s) ->
        incl (cs_actions cs) (tc_actions s) /\ incl (tc_actions s) (cs_actions cs)).
Proof.
  intros H. pose proof (tc_errors_nogather model info rh snapshot config) as He.
  unfold calculate_change_set in H.
  destruct (TrackerChange model info rh snapshot config false) as [[e|[]] s0] eqn:HT;
    cbn [snd] in He.
  - destruct e; try discriminate H; cbn in H;
      (destruct force, safe_mode; cbn in H; injection H as <-;
       (split; [reflexivity|intros s Hs; discriminate Hs])).
  - rewrite He in H.
    assert (Hf : forall acts, incl acts (tc_actions s0) -> incl (tc_actions s0) acts ->
              cs_actions cs = acts -> cs_errors cs = []
              /\ (forall s, (inr tt, s0) = (@inr exn unit tt, s) ->
                   incl (cs_actions cs) (tc_actions s) /\ incl (tc_actions s) (cs_actions cs))).
    { intros acts H1 H2 Ha. split.
      - destruct force, safe_mode, (tc_actions s0); cbn in H; injection H as <-; reflexivity.
      - intros s Hs. injection Hs as <-. rewrite Ha. split; assumption. }
    apply (Hf (cs_actions cs)); [| |reflexivity].
    all: destruct force; cbn -[tc_actions fold_left] in H;
      [destruct (tc_actions s0) as [|a0 l] eqn:Ht; cbn -[fold_left] in H;
       injection H as <-; cbn -[fold_left];
       [apply incl_refl
       |destruct (append_new_spec (a0 :: l) (a0 :: l)) as [H1 [H2 _]];
        try exact H2; intros x Hx; apply H1 in Hx; apply in_app_or in Hx; tauto]
      |destruct safe_mode; cbn in H; injection H as <-; apply incl_refl].
Qed.

(** X19: a change set returned by [calculate_change_set] has at most one
    error string. *)
Theorem calculate_change_set_one_error model info rh config snapshot force safe_mode gather_logs cs :
  calculate_change_set model info rh config snapshot force safe_mode gather_logs = inr cs ->
  length (cs_errors cs) <= 1.
Proof.
  intros H. unfold calculate_change_set in H.
  destruct (TrackerChange model info rh snapshot config gather_logs) as [[e|[]] s0].
  - destruct e; try discriminate H; cbn in H; destruct gather_logs, force, safe_mode; cbn in H;
      try (injection H as <-; cbn; lia);
      destruct (negb _) in H; injection H as <-; cbn; lia.
  - destruct (errors s0) as [|e es]; cbn -[tc_actions fold_left _wrap_errors] in H;
      destruct force, safe_mode; cbn -[tc_actions fold_left _wrap_errors] in H;
      try (injection H as <-; cbn; lia);
      destruct (negb _) in H; injection H as <-; cbn; lia.
Qed.

(** X20: with [gather_logs=False], [TrackerChange] never records an error,
    whether it completes or raises. *)
Theorem TrackerChange_no_gather_logs_no_errors model info rh tracker config :
  errors (snd (TrackerChange model info rh tracker config false)) = [].
Proof. unfold TrackerChange. rewrite ek_calculate_change. reflexivity. Qed.

(** X15: with [gather_logs], every attribute of a requirement type yields
    either one attribute-definition create action or one new error in
    [requirement_type_create_action]: the definitions and the new errors
    add up to the number of attributes. *)
Theorem requirement_type_create_action_counts model tracker identifier rt s v s' :
  requirement_type_create_action model tracker true identifier rt s = (inr v, s') ->
  exists defs new,
    dget (as_dict v) "attribute_definitions" = Some (VList defs)
    /\ errors s' = app (errors s) new
    /\ length defs + length new = length (rt_attributes rt).
Proof.
  intros H. unfold requirement_type_create_action in H. unfold bind at 1 in H.
  match type of H with
  | (match mapM ?f _ s with _ => _ end) = _ => set (F := f) in H
  end.
  assert (HF : forall kv s0 ys s1, F kv s0 = (inr ys, s1) ->
            exists new, errors s1 = app (errors s0) new /\ length ys + length new = 1).
  { intros kv s0 ys s1 HF. subst F. cbv beta in HF. unfold try_catch, bind in HF.
    pose proof (ek_attribute_definition_create_action model tracker (fst kv) (snd kv) identifier s0) as Ek.
    destruct (attribute_definition_create_action model tracker (fst kv) (snd kv) identifier s0)
      as [[e|d] s2]; cbn [snd] in Ek.
    - destruct e; try discriminate HF.
      unfold _handle_user_error in HF. cbn in HF. injection HF as <- <-.
      eexists. split; [cbn; rewrite Ek; reflexivity|reflexivity].
    - cbn in HF. injection HF as <- <-. exists []. rewrite app_nil_r. split; [exact Ek|reflexivity]. }
  assert (Hm : forall xs s0 defs s1, mapM F xs s0 = (inr defs, s1) ->
            exists new, errors s1 = app (errors s0) new
                        /\ length (concat defs) + length new = length xs).
  { intros xs; induction xs as [|kv rest IH]; intros s0 defs s1 Hx.
    - cbn in Hx. injection Hx as <- <-. exists []. rewrite app_nil_r. split; reflexivity.
    - cbn [mapM] in Hx. unfold bind in Hx.
      destruct (F kv s0) as [[e|ys] s2] eqn:E1; [discriminate Hx|].
      destruct (mapM F rest s2) as [[e|yss] s3] eqn:E2; [discriminate Hx|].
      cbn in Hx. injection Hx as <- <-.
      destruct (HF _ _ _ _ E1) as [n1 [Ha1 Hl1]].
      destruct (IH _ _ _ E2) as [n2 [Ha2 Hl2]].
      exists (app n1 n2). rewrite Ha2, Ha1, app_assoc. split; [reflexivity|].
      cbn [concat length]. rewrite length_app, length_app. cbn [length]. lia. }
  destruct (mapM F (rt_attributes rt) s) as [[e|defs] s1] eqn:Em; [discriminate H|].
  cbn in H. injection H as <- <-.
  destruct (Hm _ _ _ _ Em) as [new [Ha Hl]].
  exists (concat defs), new. split; [reflexivity|]. split; assumption.
Qed.

Ltac fin_mod :=
  first [ exists None; split; [reflexivity|left; reflexivity]
        | eexists; split; [reflexivity|right; eexists; split; [|reflexivity]; discriminate] ].

Ltac ret_mods :=
  match goal with |- context [@ret (list (string * val)) ?m] => destruct m end;
  cbn; fin_mod.

(** X17: for an attribute definition found on the requirement type,
    [attribute_definition_mod_action] changes no state and returns [None]
    or a modification of that definition with a non-empty "modify",
    unless the snapshot declares an Enum: a plain AttributeDefinition
    then has no [multi_valued] and the [AttributeError] escapes, and an
    AttributeDefinitionEnumeration that is multi-valued in the model
    while the snapshot omits "multi_values" raises a [KeyError] that is
    caught: the create action is returned instead. *)
Theorem attribute_definition_mod_action_found model tracker g reqtype identifier data attrdef s :
  by_attr_single (attribute_definitions_of model (o_uuid reqtype)) "identifier"
    (identifier ++ " " ++ o_identifier reqtype) = inr attrdef ->
  ((String.eqb (ad_type data) "Enum" = false
    \/ (o_kind attrdef = KAttributeDefinitionEnumeration
        /\ (ad_multi_values data <> None \/ o_multi_valued attrdef = false))) ->
   exists r, attribute_definition_mod_action model tracker g reqtype identifier data s = (inr r, s)
     /\ (r = None \/ exists mods, mods <> []
           /\ r = Some (VDict [("parent", VRef (o_uuid attrdef)); ("modify", VDict mods)])))
  /\ (String.eqb (ad_type data) "Enum" = true ->
      o_kind attrdef <> KAttributeDefinitionEnumeration ->
      attribute_definition_mod_action model tracker g reqtype identifier data s
      = (inl (AttributeError "'AttributeDefinition' object has no attribute 'multi_valued'"), s))
  /\ (String.eqb (ad_type data) "Enum" = true ->
      o_kind attrdef = KAttributeDefinitionEnumeration ->
      ad_multi_values data = None -> o_multi_valued attrdef = true ->
      forall a s', attribute_definition_create_action model tracker identifier data
                     (o_identifier reqtype) s = (inr a, s') ->
      attribute_definition_mod_action model tracker g reqtype identifier data s = (inr (Some a), s')).
Proof.
  intros Hb. unfold attribute_definition_mod_action, try_catch, bind, lift. rewrite Hb.
  change (@ret obj attrdef s) with (@inr exn obj attrdef, s).
  cbv beta iota zeta.
  split; [|split].
  - intros Hm. destruct (String.eqb (ad_type data) "Enum") eqn:He.
    + destruct Hm as [Hm|[Hk Hm]]; [discriminate Hm|]. rewrite Hk.
      match goal with |- context [Bool.eqb ?a ?b] => destruct (Bool.eqb a b) eqn:Hq end.
      * ret_mods.
      * destruct (ad_multi_values data) as [b|] eqn:Ha.
        -- ret_mods.
        -- destruct Hm as [Hm|Hm]; [congruence|]. rewrite Hm in Hq. discriminate Hq.
    + ret_mods.
  - intros He Hk. rewrite He.
    destruct (o_kind attrdef); try (exfalso; apply Hk; reflexivity); reflexivity.
  - intros He Hk Ha Hm a s' Hc. rewrite He, Hk, Ha, Hm. cbn. rewrite Hc. reflexivity.
Qed.

Lemma filter_all_false {A} (f : A -> bool) l :
  (forall x, In x l -> f x = false) -> filter f l = [].
Proof.
  induction l as [|x l IH]; intros H; [reflexivity|].
  cbn. rewrite (H x (or_introl eq_refl)). apply IH. intros y Hy. apply H. right. exact Hy.
Qed.

(** X21: once the Types-Folder is known, [data_type_mod_action] returns
    the create action, state unchanged, when the data type definition is
    not in the Types-Folder; when it is,
    with the snapshot's long name and the same value identifiers, it
    returns [None] and changes no state. *)
Theorem data_type_mod_action_unchanged model id ddef s rfu :
  reqt_folder s = Some rfu ->
  (forall e, by_attr_single (data_type_definitions_of model rfu) "identifier" id = inl e ->
     data_type_mod_action model id ddef s = (inr (Some (data_type_create_action id ddef)), s))
  /\ (forall dtdef,
     by_attr_single (data_type_definitions_of model rfu) "identifier" id = inr dtdef ->
     o_long_name dtdef = dt_long_name ddef ->
     (forall v, In v (dt_values ddef) -> In (dtv_id v) (value_identifiers model dtdef)) ->
     (forall ev, In ev (enum_values_of model (o_uuid dtdef)) ->
        In (o_identifier ev) (map dtv_id (dt_values ddef))) ->
     data_type_mod_action model id ddef s = (inr None, s)).
Proof.
  intros Hrf. unfold data_type_mod_action, bind, gets. rewrite Hrf. cbv beta iota zeta.
  split.
  - intros e He. rewrite He. reflexivity.
  - intros dtdef Hb Hl Hv Hev. rewrite Hb. rewrite Hl, String.eqb_refl.
    rewrite (filter_all_false _ (dt_values ddef)).
    2:{ intros v Hin. apply Bool.negb_false_iff, mem_iff, Hv, Hin. }
    rewrite (filter_all_false _ (enum_values_of model (o_uuid dtdef))).
    2:{ intros ev Hin. apply Bool.negb_false_iff, mem_iff, Hev, Hin. }
    reflexivity.
Qed.

Lemma ReqFinder_get_some m value xtypes attr below o :
  ReqFinder_get m value xtypes attr below = inr (Some o) ->
  filter (fun o => String.eqb (attr_of attr o) value) (search m xtypes below) = [o].
Proof.
  unfold ReqFinder_get, by_attr_single.
  destruct (filter _ (search m xtypes below)) as [|o1 [|o2 rest]]; intros H; try discriminate H.
  injection H as ->. reflexivity.
Qed.

Lemma ReqFinder_get_some_props m value xtypes attr below o :
  ReqFinder_get m value xtypes attr below = inr (Some o) ->
  In o m /\ In (kind_name (o_kind o)) xtypes /\ attr_of attr o = value
  /\ (forall r, below = Some r -> is_below m r o = true).
Proof.
  intros H. apply ReqFinder_get_some in H.
  assert (Hin : In o [o]) by (left; reflexivity). rewrite <- H in Hin.
  apply filter_In in Hin as [Hin Ha]. unfold search in Hin.
  apply filter_In in Hin as [Hm Hx]. apply andb_prop in Hx as [Hx Hb].
  apply existsb_exists in Hx as [x [Hx Ex]]. apply String.eqb_eq in Ex.
  apply String.eqb_eq in Ha.
  split; [exact Hm|]. split; [rewrite Ex; exact Hx|]. split; [exact Ha|].
  intros r ->. exact Hb.
Qed.

(** X22: an object returned by [ReqFinder._get] is an object of the model of
    one of the requested classes, with the requested attribute value,
    below [below] when given, and it is the only such object. *)
Theorem ReqFinder_get_found m value xtypes attr below o :
  ReqFinder_get m value xtypes attr below = inr (Some o) ->
  In o m /\ In (kind_name (o_kind o)) xtypes /\ attr_of attr o = value
  /\ (forall r, below = Some r -> is_below m r o = true)
  /\ (forall o', In o' (search m xtypes below) -> attr_of attr o' = value -> o' = o).
Proof.
  intros H. destruct (ReqFinder_get_some_props _ _ _ _ _ _ H) as [H1 [H2 [H3 H4]]].
  split; [exact H1|]. split; [exact H2|]. split; [exact H3|]. split; [exact H4|].
  intros o' Hs Ha. apply ReqFinder_get_some in H.
  assert (Hin : In o' (filter (fun o => String.eqb (attr_of attr o) value) (search m xtypes below)))
    by (apply filter_In; split; [exact Hs|apply String.eqb_eq, Ha]).
  rewrite H in Hin. destruct Hin as [E|[]]. symmetry. exact E.
Qed.

(** X23: each lookup method of [ReqFinder] returns only an object of its
    class whose UUID, identifier ([str] of the argument) or long name is
    the one asked for. *)
Theorem ReqFinder_methods_found m o :
  (forall uuid, reqmodule m uuid = inr (Some o) ->
     kind_name (o_kind o) = "CapellaModule" /\ o_uuid o = uuid)
  /\ (forall i b, reqtypesfolder_by_identifier m i b = inr (Some o) ->
     kind_name (o_kind o) = "CapellaTypesFolder" /\ o_identifier o = py_str i)
  /\ (forall i b, reqtype_by_identifier m i b = inr (Some o) ->
     kind_name (o_kind o) = "RequirementType" /\ o_identifier o = py_str i)
  /\ (forall x i b, attribute_definition_by_identifier m x i b = inr (Some o) ->
     kind_name (o_kind o) = x /\ o_identifier o = i)
  /\ (forall i b, folder_by_identifier m i b = inr (Some o) ->
     kind_name (o_kind o) = "Folder" /\ o_identifier o = py_str i)
  /\ (forall i b, requirement_by_identifier m i b = inr (Some o) ->
     kind_name (o_kind o) = "Requirement" /\ o_identifier o = py_str i)
  /\ (forall ln b, enum_data_type_definition_by_long_name m ln b = inr (Some o) ->
     kind_name (o_kind o) = "EnumerationDataTypeDefinition" /\ o_long_name o = ln)
  /\ (forall ln b, enum_value_by_long_name m ln b = inr (Some o) ->
     kind_name (o_kind o) = "EnumValue" /\ o_long_name o = ln).
Proof.
  unfold reqmodule, reqtypesfolder_by_identifier, reqtype_by_identifier,
    attribute_definition_by_identifier, folder_by_identifier, requirement_by_identifier,
    enum_data_type_definition_by_long_name, enum_value_by_long_name.
  repeat split; intros;
    match goal with H : ReqFinder_get _ _ _ _ _ = _ |- _ =>
      destruct (ReqFinder_get_some_props _ _ _ _ _ _ H) as [_ [[Hk|[]] [Ha _]]] end;
    first [exact (eq_sym Hk) | exact Ha].
Qed.

(** [_deep_update_keys] at a concrete input. *)
Lemma _deep_update_keys_witness :
  NoDup (dkeys [("a", VInt 1)])
  /\ NoDup (dkeys (_deep_update [("a", VInt 1)] [("b", VInt 2)])).
Proof.
  assert (H : NoDup (dkeys [("a", VInt 1)])) by (repeat constructor; simpl; intuition discriminate).
  split; [exact H|]. exact (proj2 (_deep_update_keys [("a", VInt 1)] [("b", VInt 2)]) H).
Defined.

(** [_deep_update_lookup] at a concrete input. *)
Lemma _deep_update_lookup_witness :
  NoDup (dkeys [("b", VInt 2)])
  /\ dget (_deep_update [("a", VInt 1)] [("b", VInt 2)]) "b" = Some (VInt 2).
Proof.
  assert (H : NoDup (dkeys [("b", VInt 2)])) by (repeat constructor; simpl; intuition discriminate).
  split; [exact H|].
  exact (proj2 (_deep_update_lookup [("a", VInt 1)] [("b", VInt 2)] "b" H) (VInt 2)
           (or_introl eq_refl) I).
Defined.

(** [_deep_update_nested] at a concrete input. *)
Lemma _deep_update_nested_witness :
  dget (dget_dict (_deep_update [("x", VDict [("p", VInt 1)])] [("x", VDict [("q", VInt 2)])]) "x") "p"
  = Some (VInt 1).
Proof.
  rewrite (proj1 (_deep_update_nested [("x", VDict [("p", VInt 1)])] "x" [("q", VInt 2)])).
  - reflexivity.
  - discriminate.
  - right. exists [("p", VInt 1)]. reflexivity.
  - simpl. intuition discriminate.
Defined.

(** [_add_action_safely_appends] at a concrete input. *)
Lemma _add_action_safely_appends_witness :
  dget (dget_dict [("extend", VDict [("requirements", VList [VRef "a"])])] "extend") "requirements"
    = Some (VList [VRef "a"])
  /\ group_list (_add_action_safely [("extend", VDict [("requirements", VList [VRef "a"])])]
                  "extend" "requirements" (VRef "b")) "extend" "requirements"
     = [VRef "a"; VRef "b"].
Proof.
  split; [reflexivity|].
  apply (proj1 (_add_action_safely_appends [("extend", VDict [("requirements", VList [VRef "a"])])]
                  "extend" "requirements" (VRef "b")
                  (or_intror (ex_intro _ [("requirements", VList [VRef "a"])]
                     (conj eq_refl (or_intror (ex_intro _ [VRef "a"] eq_refl))))))).
Defined.

(** [invalidate_deletion_removes_first] at a concrete input. *)
Lemma invalidate_deletion_removes_first_witness :
  invalidate_deletion obj_r1 (st_pending_deletion [VRef "r1"; VRef "r2"])
    = (inr tt, snd (invalidate_deletion obj_r1 (st_pending_deletion [VRef "r1"; VRef "r2"])))
  /\ dget (dget_dict (deref (snd (invalidate_deletion obj_r1 (st_pending_deletion [VRef "r1"; VRef "r2"])))
                             0) "delete") "requirements" = Some (VList [VRef "r2"]).
Proof.
  assert (H : invalidate_deletion obj_r1 (st_pending_deletion [VRef "r1"; VRef "r2"])
    = (inr tt, snd (invalidate_deletion obj_r1 (st_pending_deletion [VRef "r1"; VRef "r2"]))))
    by (vm_compute; reflexivity).
  split; [exact H|].
  destruct (invalidate_deletion_removes_first obj_r1 (st_pending_deletion [VRef "r1"; VRef "r2"]) 0
              (VDict [("requirements", VList [VRef "r1"; VRef "r2"])]) [VRef "r1"; VRef "r2"] _
              ltac:(simpl; lia) eq_refl eq_refl eq_refl H)
    as [pre [post [Hx [Hn [Hk _]]]]].
  change (deletion_key obj_r1) with "requirements" in Hk. rewrite Hk. destruct pre as [|p pre].
  - injection Hx as <-. reflexivity.
  - injection Hx as Hp _. exfalso. apply Hn. left. rewrite <- Hp. reflexivity.
Defined.

(** [attribute_loops_skip_blacklisted] at a concrete input. *)
Lemma attribute_loops_skip_blacklisted_witness :
  "T1" <> ""
  /\ modify_attribute_loop model_empty snapshot_invalid_enum true obj_r2 "T1" "REQ-2" false
       [("Type", VStr "Folder"); ("Priority", VList [VStr "Low"])] st_module_m
     = modify_attribute_loop model_empty snapshot_invalid_enum true obj_r2 "T1" "REQ-2" false
         [("Priority", VList [VStr "Low"])] st_module_m.
Proof.
  assert (H : "T1" <> "") by discriminate.
  split; [exact H|].
  exact (proj2 (attribute_loops_skip_blacklisted model_empty snapshot_invalid_enum true "T1" "REQ-2"
                  obj_r2 false [("Type", VStr "Folder"); ("Priority", VList [VStr "Low"])] H) st_module_m).
Defined.

(** [untyped_item_attributes_reported] at a concrete input. *)
Lemma untyped_item_attributes_reported_witness :
  create_attributes model_empty snapshot_invalid_enum true
    (work_item "X" None [("Note", VStr "a")] None) st_module_m
  = (inr [], set_errors (errors st_module_m
                          ++ ["Invalid workitem 'X'. Missing type but attributes found"]) st_module_m).
Proof.
  exact (proj1 (untyped_item_attributes_reported model_empty snapshot_invalid_enum
                  (work_item "X" None [("Note", VStr "a")] None) obj_r2 false st_module_m
                  I ltac:(discriminate))).
Defined.

(** [requirement_type_create_action_counts] at a concrete input. *)
Lemma requirement_type_create_action_counts_witness :
  exists defs new,
    dget (as_dict (match fst (requirement_type_create_action model_empty snapshot_invalid_enum true "T1"
                                reqtype_t1_bad st_module_m) with inr v => v | inl _ => VNone end))
      "attribute_definitions" = Some (VList defs)
    /\ length defs = 1 /\ length new = 1
    /\ errors (snd (requirement_type_create_action model_empty snapshot_invalid_enum true "T1"
                      reqtype_t1_bad st_module_m)) = app (errors st_module_m) new.
Proof.
  assert (H : requirement_type_create_action model_empty snapshot_invalid_enum true "T1"
                reqtype_t1_bad st_module_m
    = (inr (match fst (requirement_type_create_action model_empty snapshot_invalid_enum true "T1"
                         reqtype_t1_bad st_module_m) with inr v => v | inl _ => VNone end),
       snd (requirement_type_create_action model_empty snapshot_invalid_enum true "T1"
              reqtype_t1_bad st_module_m))) by (vm_compute; reflexivity).
  destruct (requirement_type_create_action_counts _ _ _ _ _ _ _ H) as [defs [new [H1 [H2 H3]]]].
  exists defs, new. split; [exact H1|].
  vm_compute in H1. injection H1 as <-.
  split; [reflexivity|]. split; [simpl in H3; lia|exact H2].
Defined.

(** [attribute_definition_mod_action_found] at a concrete input. *)
Lemma attribute_definition_mod_action_found_witness :
  by_attr_single (attribute_definitions_of model_applied (o_uuid obj_t1)) "identifier"
    ("Priority" ++ " " ++ o_identifier obj_t1) = inr obj_ad
  /\ attribute_definition_mod_action model_applied snapshot_invalid_enum true obj_t1 "Priority"
       (mkAttrDef "Priority" "Enum" None) st_module_m
     = (inr (Some (VDict [("identifier", VStr "Priority T1"); ("long_name", VStr "Priority");
                          ("data_type", VRef "dt"); ("multi_valued", VBool false);
                          ("_type", VStr "AttributeDefinitionEnumeration");
                          ("promise_id", VStr "AttributeDefinitionEnumeration Priority T1")])),
        st_module_m).
Proof.
  assert (H : by_attr_single (attribute_definitions_of model_applied (o_uuid obj_t1)) "identifier"
    ("Priority" ++ " " ++ o_identifier obj_t1) = inr obj_ad) by (vm_compute; reflexivity).
  split; [exact H|].
  apply (proj2 (proj2 (attribute_definition_mod_action_found model_applied snapshot_invalid_enum true
                  obj_t1 "Priority" (mkAttrDef "Priority" "Enum" None) obj_ad st_module_m H))
           eq_refl eq_refl eq_refl eq_refl).
  vm_compute. reflexivity.
Defined.

(** [calculate_change_set_no_gather_logs] at a concrete input. *)
Lemma calculate_change_set_no_gather_logs_witness :
  calculate_change_set model_empty "info" identity_html config_m snapshot_invalid_enum false true false
    = inr (match calculate_change_set model_empty "info" identity_html config_m snapshot_invalid_enum
                   false true false with inr cs => cs | inl _ => mkChangeSet [] [] [] end)
  /\ exists cs, calculate_change_set model_empty "info" identity_html config_m snapshot_invalid_enum
                  false true false = inr cs /\ cs_errors cs = [] /\ cs_actions cs <> [].
Proof.
  assert (H : calculate_change_set model_empty "info" identity_html config_m snapshot_invalid_enum
                false true false
    = inr (match calculate_change_set model_empty "info" identity_html config_m snapshot_invalid_enum
                   false true false with inr cs => cs | inl _ => mkChangeSet [] [] [] end))
    by (vm_compute; reflexivity).
  split; [exact H|].
  eexists. split; [exact H|]. split.
  - exact (proj1 (calculate_change_set_no_gather_logs _ _ _ _ _ _ _ _ H)).
  - vm_compute. discriminate.
Defined.

(** [calculate_change_set_one_error] at a concrete input. *)
Lemma calculate_change_set_one_error_witness :
  calculate_change_set model_empty "info" identity_html config_m snapshot_invalid_enum false true true
    = inr (match calculate_change_set model_empty "info" identity_html config_m snapshot_invalid_enum
                   false true true with inr cs => cs | inl _ => mkChangeSet [] [] [] end)
  /\ length (cs_errors (match calculate_change_set model_empty "info" identity_html config_m
                          snapshot_invalid_enum false true true with
                        | inr cs => cs | inl _ => mkChangeSet [] [] [] end)) <= 1.
Proof.
  assert (H : calculate_change_set model_empty "info" identity_html config_m snapshot_invalid_enum
                false true true
    = inr (match calculate_change_set model_empty "info" identity_html config_m snapshot_invalid_enum
                   false true true with inr cs => cs | inl _ => mkChangeSet [] [] [] end))
    by (vm_compute; reflexivity).
  split; [exact H|].
  exact (calculate_change_set_one_error _ _ _ _ _ _ _ _ _ H).
Defined.

(** [data_type_mod_action_unchanged] at a concrete input. *)
Lemma data_type_mod_action_unchanged_witness :
  by_attr_single (data_type_definitions_of model_applied "tf") "identifier" "Priority" = inr obj_dt
  /\ data_type_mod_action model_applied "Priority"
       (mkDataType "Priority" [mkDataTypeValue "Low" "Low"; mkDataTypeValue "High" "High"]) st_module_m
     = (inr None, st_module_m).
Proof.
  assert (H : by_attr_single (data_type_definitions_of model_applied "tf") "identifier" "Priority"
              = inr obj_dt) by (vm_compute; reflexivity).
  split; [exact H|].
  apply (proj2 (data_type_mod_action_unchanged model_applied "Priority"
                  (mkDataType "Priority" [mkDataTypeValue "Low" "Low"; mkDataTypeValue "High" "High"])
                  st_module_m "tf" eq_refl) obj_dt H eq_refl).
  - intros v Hv. vm_compute. vm_compute in Hv. intuition (subst; auto).
  - intros ev Hev. vm_compute in Hev. vm_compute. intuition (subst; auto).
Defined.

(** [ReqFinder_get_found] at a concrete input. *)
Lemma ReqFinder_get_found_witness :
  ReqFinder_get model_move "R" ["Requirement"] "identifier" (Some "m")
    = inr (Some (plain_obj "r" KRequirement "R" "m" (Some "rt")))
  /\ is_below model_move "m" (plain_obj "r" KRequirement "R" "m" (Some "rt")) = true.
Proof.
  assert (H : ReqFinder_get model_move "R" ["Requirement"] "identifier" (Some "m")
    = inr (Some (plain_obj "r" KRequirement "R" "m" (Some "rt")))) by (vm_compute; reflexivity).
  split; [exact H|].
  destruct (ReqFinder_get_found _ _ _ _ _ _ H) as [_ [_ [_ [Hb _]]]].
  exact (Hb "m" eq_refl).
Defined.

(** [ReqFinder_methods_found] at a concrete input. *)
Lemma ReqFinder_methods_found_witness :
  requirement_by_identifier model_move (VStr "R") None
    = inr (Some (plain_obj "r" KRequirement "R" "m" (Some "rt")))
  /\ kind_name (o_kind (plain_obj "r" KRequirement "R" "m" (Some "rt"))) = "Requirement".
Proof.
  assert (H : requirement_by_identifier model_move (VStr "R") None
    = inr (Some (plain_obj "r" KRequirement "R" "m" (Some "rt")))) by (vm_compute; reflexivity).
  split; [exact H|].
  destruct (ReqFinder_methods_found model_move (plain_obj "r" KRequirement "R" "m" (Some "rt")))
    as [_ [_ [_ [_ [_ [Hr _]]]]]].
  exact (proj1 (Hr _ _ H)).
Defined.
